(** * Enhanced RAG pipeline (insurance_RAG backend): shallow embedding

    The embedded sources are
    - [insurance_RAG/backend/docs/rishi_rag.py]: the agent loop
      ([EnhancedRAGPipeline]) with its seven graph nodes, the helpers
      [_format_docs], [_dedupe_docs], [_safe_json_parse] and the public
      operations [ask] and [stream];
    - [insurance_RAG/backend/app.py]: the [policy_qa] endpoint, the
      claim table ([generate_claim_table_rows]) and the upload
      validation and error handling of [process_claim] and
      [workshop_suggestion].

    Python values are dynamically typed, so the embedding carries a small
    universe of Python values ([value]), Python exceptions as data ([exn])
    and binary64 floats as [spec_float] (IEEE 754, precision 53).  The
    graph state is a dictionary from keys to values, exactly as the
    [TypedDict] of the source is at run time. *)

From Stdlib Require Import ZArith Lia SpecFloat Ascii.
From stdpp Require Import base option list gmap strings pretty.

Set Warnings "-register-all".
Set Default Proof Using "Type".

Open Scope Z_scope.

(** ** Exceptions and results *)

Inductive exn :=
| KeyError (key : string)
| TypeError
| AttributeError
| ValueError
| OverflowError
| ZeroDivisionError
| GraphRecursionError
| ServiceError (msg : string)
| HTTPException (status_code : Z) (detail : string).

Inductive result (A : Type) :=
| Ok (a : A)
| Raise (e : exn).
Arguments Ok {A} a.
Arguments Raise {A} e.

Definition rbind {A B} (r : result A) (k : A → result B) : result B :=
  match r with
  | Ok a => k a
  | Raise e => Raise e
  end.

Declare Scope py_scope.
Delimit Scope py_scope with py.
Notation "'try!' x := r 'in' k" := (rbind r (λ x, k))
  (at level 10, x name, r at level 100, k at level 200,
   format "'[v' 'try!'  x  :=  r  'in' '/' k ']'") : py_scope.
Open Scope py_scope.

Definition is_ok {A} (r : result A) : bool :=
  match r with Ok _ => true | Raise _ => false end.

Fixpoint rmap_list {A B} (f : A → result B) (l : list A) : result (list B) :=
  match l with
  | [] => Ok []
  | a :: l' =>
      try! b := f a in
      try! bs := rmap_list f l' in
      Ok (b :: bs)
  end.

(** ** binary64 arithmetic, as CPython's [float] *)

Module PyFloat.

Definition prec : Z := 53.
Definition emax : Z := 1024.

Definition fmul := SFmul prec emax.
Definition fadd := SFadd prec emax.
Definition fsub := SFsub prec emax.
Definition fdiv := SFdiv prec emax.

(** A Python [int] seen as an exact (not yet rounded) dyadic number. *)
Definition exact_of_Z (z : Z) : spec_float :=
  match z with
  | Z0 => S754_zero false
  | Zpos p => S754_finite false p 0
  | Zneg p => S754_finite true p 0
  end.

(** [float(z)]: round to nearest even; too large raises. *)
Definition of_Z (z : Z) : result spec_float :=
  match binary_normalize prec emax z 0 false with
  | S754_infinity _ => Raise OverflowError
  | x => Ok x
  end.

(** [int(x)]: truncation toward zero. *)
Definition trunc (x : spec_float) : result Z :=
  match x with
  | S754_zero _ => Ok 0
  | S754_infinity _ => Raise OverflowError
  | S754_nan => Raise ValueError
  | S754_finite s m e =>
      let a := if decide (0 ≤ e) then Z.shiftl (Zpos m) e
               else Z.shiftr (Zpos m) (- e) in
      Ok (if s then - a else a)
  end.

(** [a / b] on two Python ints: the correctly rounded quotient. *)
Definition div_Z (a b : Z) : result spec_float :=
  if decide (b = 0) then Raise ZeroDivisionError
  else match fdiv (exact_of_Z a) (exact_of_Z b) with
       | S754_infinity _ => Raise OverflowError
       | x => Ok x
       end.

Definition is_zero (x : spec_float) : bool :=
  match x with S754_zero _ => true | _ => false end.

(** Literals of the source, as the nearest binary64 numbers. *)
Definition f0_0 : spec_float := S754_zero false.
Definition f0_2 : spec_float := S754_finite false 7205759403792794 (-55).
Definition f0_4 : spec_float := S754_finite false 7205759403792794 (-54).
Definition f0_5 : spec_float := S754_finite false 4503599627370496 (-53).
Definition f0_8 : spec_float := S754_finite false 7205759403792794 (-53).
Definition f1_0 : spec_float := S754_finite false 4503599627370496 (-52).
Definition f5_0 : spec_float := S754_finite false 5629499534213120 (-50).
Definition f10_0 : spec_float := S754_finite false 5629499534213120 (-49).

End PyFloat.

(** ** Documents and Python values *)

(** Metadata values of a stored passage: the loaders write a string
    [source] / [file_path] and an integer [page]; a key may be absent or
    null.  On these, Python's [==] and [hash] are structural. *)
Inductive meta :=
| MNone
| MInt (n : Z)
| MStr (s : string).

Global Instance meta_eq_dec : EqDecision meta.
Proof. solve_decision. Defined.

Definition meta_to_sum (m : meta) : unit + (Z + string) :=
  match m with
  | MNone => inl tt
  | MInt n => inr (inl n)
  | MStr s => inr (inr s)
  end.

Definition meta_of_sum (x : unit + (Z + string)) : meta :=
  match x with
  | inl _ => MNone
  | inr (inl n) => MInt n
  | inr (inr s) => MStr s
  end.

Global Instance meta_countable : Countable meta.
Proof.
  apply (inj_countable' meta_to_sum meta_of_sum).
  by intros [].
Defined.

Record Document := mkDocument {
  page_content : string;
  metadata : gmap string meta;
}.

Global Instance Document_eq_dec : EqDecision Document.
Proof. solve_decision. Defined.

Inductive value :=
| VNone
| VBool (b : bool)
| VInt (n : Z)
| VFloat (x : spec_float)
| VStr (s : string)
| VList (items : list value)
| VDict (entries : list (string * value))
| VDoc (d : Document).

(** The graph state: the [EnhancedAgentState] dictionary. *)
Abbreviation State := (gmap string value).

(** ** Strings

    A model string is a sequence of characters with code points below
    256; indexing, slicing and iteration are by character, as in Python. *)

Module PyString.

Definition chars (s : string) : list ascii := String.list_ascii_of_string s.
Definition of_chars (l : list ascii) : string := String.string_of_list_ascii l.

Definition code (c : ascii) : N := N_of_ascii c.

Definition newline : ascii := ascii_of_N 10.
Definition lbrace : ascii := ascii_of_N 123.
Definition rbrace : ascii := ascii_of_N 125.

(** [s.find(c)] for a one-character [c]: first index, or -1. *)
Fixpoint find_from (c : ascii) (l : list ascii) (i : Z) : Z :=
  match l with
  | [] => -1
  | x :: l' => if decide (x = c) then i else find_from c l' (i + 1)
  end.
Definition find (c : ascii) (s : string) : Z := find_from c (chars s) 0.

(** [s.rfind(c)]: last index, or -1. *)
Fixpoint rfind_from (c : ascii) (l : list ascii) (i : Z) (last : Z) : Z :=
  match l with
  | [] => last
  | x :: l' => rfind_from c l' (i + 1) (if decide (x = c) then i else last)
  end.
Definition rfind (c : ascii) (s : string) : Z := rfind_from c (chars s) 0 (-1).

(** [s[start:stop]] for [0 <= start <= stop]. *)
Definition slice (start stop : Z) (s : string) : string :=
  of_chars (take (Z.to_nat (stop - start)) (drop (Z.to_nat start) (chars s))).

(** [l[-n:]] on a sequence. *)
Definition last_n {A} (n : nat) (l : list A) : list A :=
  drop (length l - n) l.

(** [str.lower] on the code points below 256: A-Z, and the Latin-1
    capitals U+00C0..U+00DE without the multiplication sign. *)
Definition lower_char (c : ascii) : ascii :=
  let n := code c in
  if decide ((65 ≤ n ∧ n ≤ 90) ∨ (192 ≤ n ∧ n ≤ 222 ∧ n ≠ 215))%N
  then ascii_of_N (n + 32) else c.
Definition lower (s : string) : string := of_chars (lower_char <$> chars s).

(** [str.isspace] on one character below 256. *)
Definition is_space (c : ascii) : bool :=
  let n := code c in
  bool_decide ((9 ≤ n ∧ n ≤ 13) ∨ (28 ≤ n ∧ n ≤ 32) ∨ n = 133 ∨ n = 160)%N.

Fixpoint lstrip_chars (l : list ascii) : list ascii :=
  match l with
  | [] => []
  | c :: l' => if is_space c then lstrip_chars l' else l
  end.

(** [s.strip()] *)
Definition strip (s : string) : string :=
  of_chars (rev (lstrip_chars (rev (lstrip_chars (chars s))))).

(** Line boundaries of [str.splitlines] below code point 256. *)
Definition is_linebreak (c : ascii) : bool :=
  let n := code c in
  bool_decide ((10 ≤ n ∧ n ≤ 13) ∨ (28 ≤ n ∧ n ≤ 30) ∨ n = 133)%N.

Fixpoint first_line_chars (l : list ascii) : list ascii :=
  match l with
  | [] => []
  | c :: l' => if is_linebreak c then [] else c :: first_line_chars l'
  end.

(** [s.splitlines()[0][:120]] for a non-empty [s]. *)
Definition first_line_120 (s : string) : string :=
  of_chars (take 120 (first_line_chars (chars s))).

(** ["\n".join(lines)] *)
Fixpoint join_lines (lines : list string) : string :=
  match lines with
  | [] => ""
  | [x] => x
  | x :: rest => x +:+ String newline (join_lines rest)
  end.

Definition is_empty (s : string) : bool :=
  match s with EmptyString => true | _ => false end.

Definition of_nat (n : nat) : string := pretty n.
Definition of_Z (n : Z) : string := pretty n.

Fixpoint has_prefix (needle hay : list ascii) : bool :=
  match needle, hay with
  | [], _ => true
  | a :: needle', c :: hay' =>
      if decide (a = c) then has_prefix needle' hay' else false
  | _ :: _, [] => false
  end.

Fixpoint contains_chars (needle hay : list ascii) : bool :=
  has_prefix needle hay ||
  match hay with
  | [] => false
  | _ :: hay' => contains_chars needle hay'
  end.

(** [needle in hay] *)
Definition contains (needle hay : string) : bool :=
  contains_chars (chars needle) (chars hay).

End PyString.

(** ** Operations of the Python object model used by the pipeline *)

Module Py.

(** [bool(v)] *)
Definition truthy (v : value) : bool :=
  match v with
  | VNone => false
  | VBool b => b
  | VInt n => bool_decide (n ≠ 0)
  | VFloat x => negb (PyFloat.is_zero x)
  | VStr s => negb (PyString.is_empty s)
  | VList l => bool_decide (l ≠ [])
  | VDict d => bool_decide (d ≠ [])
  | VDoc _ => true
  end.

Fixpoint dict_lookup (k : string) (d : list (string * value)) : option value :=
  match d with
  | [] => None
  | (k', v) :: d' => if decide (k' = k) then Some v else dict_lookup k d'
  end.

(** [d[k] = v] on a dict: the key keeps its position when present. *)
Fixpoint dict_store (k : string) (v : value) (d : list (string * value))
  : list (string * value) :=
  match d with
  | [] => [(k, v)]
  | (k', v') :: d' =>
      if decide (k' = k) then (k, v) :: d' else (k', v') :: dict_store k v d'
  end.

(** [v.get(k, dflt)]: only dicts have [get]. *)
Definition get (v : value) (k : string) (dflt : value) : result value :=
  match v with
  | VDict d => Ok (default dflt (dict_lookup k d))
  | _ => Raise AttributeError
  end.

(** [v[k]] for a string key [k]. *)
Definition getitem (v : value) (k : string) : result value :=
  match v with
  | VDict d =>
      match dict_lookup k d with
      | Some x => Ok x
      | None => Raise (KeyError k)
      end
  | _ => Raise TypeError
  end.

(** [v.append(x)]: only lists have [append]. *)
Definition append (v x : value) : result value :=
  match v with
  | VList l => Ok (VList (l ++ [x]))
  | _ => Raise AttributeError
  end.

(** [v.lower()]: only strings have [lower]. *)
Definition lower (v : value) : result string :=
  match v with
  | VStr s => Ok (PyString.lower s)
  | _ => Raise AttributeError
  end.

(** [v == lit] for a string literal [lit]. *)
Definition eq_str (v : value) (lit : string) : bool :=
  match v with
  | VStr s => bool_decide (s = lit)
  | _ => false
  end.

(** [len(v)] *)
Definition len (v : value) : result Z :=
  match v with
  | VStr s => Ok (Z.of_nat (length (PyString.chars s)))
  | VList l => Ok (Z.of_nat (length l))
  | VDict d => Ok (Z.of_nat (length d))
  | _ => Raise TypeError
  end.

(** [v[-n:]]: lists and strings can be sliced. *)
Definition slice_last (n : nat) (v : value) : result value :=
  match v with
  | VList l => Ok (VList (PyString.last_n n l))
  | VStr s => Ok (VStr (PyString.of_chars (PyString.last_n n (PyString.chars s))))
  | _ => Raise TypeError
  end.

(** [v[:n]] *)
Definition slice_first (n : nat) (v : value) : result value :=
  match v with
  | VList l => Ok (VList (take n l))
  | VStr s => Ok (VStr (PyString.of_chars (take n (PyString.chars s))))
  | _ => Raise TypeError
  end.

(** The items visited by [for x in v]. *)
Definition iterate (v : value) : result (list value) :=
  match v with
  | VList l => Ok l
  | VStr s => Ok ((λ c, VStr (String c EmptyString)) <$> PyString.chars s)
  | VDict d => Ok ((λ kv, VStr kv.1) <$> d)
  | _ => Raise TypeError
  end.

(** Numbers: [bool] is a subtype of [int]. *)
Inductive num :=
| NInt (z : Z)
| NFloat (x : spec_float).

Definition as_num (v : value) : option num :=
  match v with
  | VBool b => Some (NInt (if b then 1 else 0))
  | VInt n => Some (NInt n)
  | VFloat x => Some (NFloat x)
  | _ => None
  end.

Definition to_float (n : num) : result spec_float :=
  match n with
  | NInt z => PyFloat.of_Z z
  | NFloat x => Ok x
  end.

(** [v * c] for a float literal [c]. *)
Definition mul_float (v : value) (c : spec_float) : result spec_float :=
  match as_num v with
  | Some n => try! x := to_float n in Ok (PyFloat.fmul x c)
  | None => Raise TypeError
  end.

(** [v / c] for a non-zero float literal [c]. *)
Definition div_float (v : value) (c : spec_float) : result spec_float :=
  match as_num v with
  | Some n => try! x := to_float n in Ok (PyFloat.fdiv x c)
  | None => Raise TypeError
  end.

(** [a - b] *)
Definition sub (a b : value) : result value :=
  match as_num a, as_num b with
  | Some (NInt x), Some (NInt y) => Ok (VInt (x - y))
  | Some x, Some y =>
      try! fx := to_float x in
      try! fy := to_float y in
      Ok (VFloat (PyFloat.fsub fx fy))
  | _, _ => Raise TypeError
  end.

End Py.

(** ** The environment of a pipeline

    [Runtime] gathers the functions of the Python standard library whose
    results the pipeline only passes on (JSON decoding and encoding,
    [str()] formatting, [==] on arbitrary values, [list.sort]).
    [Services] gathers the remote collaborators: the three chat models,
    the two retrievers of the vector store and the source of fresh
    thread ids.  A remote call receives the number of calls made before
    it, so that a service may answer the same request differently over
    time. *)

Record Runtime := mkRuntime {
  (** [json.loads]; [None] stands for [JSONDecodeError] / [ValueError] *)
  json_loads : string → option value;
  (** [json.dumps] *)
  json_dumps : value → string;
  (** [str(v)], as used by f-string interpolation *)
  py_str : value → string;
  (** [a == b] *)
  py_eq : value → value → bool;
  (** [items.sort(key=..., reverse=True)] on (key, item) pairs *)
  sort_reverse : list (value * value) → result (list value);
  (** [str(e)] for an exception [e] *)
  exn_str : exn → string;
  (** the graph library's bound on the steps of one run (25 unless
      configured); a run that needs more raises [GraphRecursionError] *)
  recursion_limit : nat;
}.

Inductive llm_id := analysis_llm | planning_llm | synthesis_llm.

Inductive template :=
| QUESTION_ANALYSIS_PROMPT
| MULTI_QUERY_PLANNING_PROMPT
| CONTEXT_ASSESSMENT_PROMPT
| DECISION_MAKING_PROMPT
| ENHANCED_SYNTHESIS_PROMPT
| ADVANCED_VERIFICATION_PROMPT.

Inductive retriever_id := semantic_retriever | similarity_retriever.

Record Services := mkServices {
  llm_invoke : nat → llm_id → template → list (string * value) → result string;
  retriever_invoke : nat → retriever_id → value → result (list Document);
  uuid4_hex : nat → string;
}.

(** The nodes of the graph built in [__init__]. *)
Inductive node :=
| analyze_question
| enhanced_plan
| parallel_retrieve
| advanced_assess
| intelligent_decide
| enhanced_synthesis
| advanced_verify.

Global Instance node_eq_dec : EqDecision node.
Proof. solve_decision. Defined.

(** What a run can observe and change outside its own state: how many
    remote calls were made, which nodes completed with which update
    (oldest first), and the [MemorySaver] checkpoints by thread id. *)
Record World := mkWorld {
  llm_calls : nat;
  retriever_calls : nat;
  uuids_drawn : nat;
  node_log : list (node * State);
  checkpoints : gmap string State;
}.

Definition empty_world : World := mkWorld 0 0 0 [] ∅.

Definition M (A : Type) : Type := World → result A * World.

Definition ret {A} (a : A) : M A := λ w, (Ok a, w).

Definition lift {A} (r : result A) : M A := λ w, (r, w).

Definition bind {A B} (m : M A) (k : A → M B) : M B :=
  λ w, match m w with
       | (Ok a, w') => k a w'
       | (Raise e, w') => (Raise e, w')
       end.

(** [try: m except Exception as e: h e] *)
Definition catch {A} (m : M A) (h : exn → M A) : M A :=
  λ w, match m w with
       | (Ok a, w') => (Ok a, w')
       | (Raise e, w') => h e w'
       end.

Notation "'do!' x := m 'in' k" := (bind m (λ x, k))
  (at level 10, x name, m at level 100, k at level 200,
   format "'[v' 'do!'  x  :=  m  'in' '/' k ']'") : py_scope.
Notation "'let!' x := r 'in' k" := (bind (lift r) (λ x, k))
  (at level 10, x name, r at level 100, k at level 200,
   format "'[v' 'let!'  x  :=  r  'in' '/' k ']'") : py_scope.

(** [state[k]] *)
Definition state_getitem (state : State) (k : string) : result value :=
  match state !! k with
  | Some v => Ok v
  | None => Raise (KeyError k)
  end.

(** [state.get(k, dflt)] *)
Definition state_get (state : State) (k : string) (dflt : value) : value :=
  default dflt (state !! k).

(** Fields that only the pipeline writes are read at the type it writes. *)
Definition as_int (v : value) : result Z :=
  match v with
  | VInt n => Ok n
  | VBool b => Ok (if b then 1 else 0)
  | _ => Raise TypeError
  end.

Definition as_doc (v : value) : result Document :=
  match v with
  | VDoc d => Ok d
  | _ => Raise AttributeError
  end.

Definition as_docs (v : value) : result (list Document) :=
  match v with
  | VList l => rmap_list as_doc l
  | _ => Raise TypeError
  end.

Definition of_docs (docs : list Document) : value := VList (VDoc <$> docs).

(** ** Utility functions of the module *)

Definition meta_truthy (m : meta) : bool :=
  match m with
  | MNone => false
  | MInt n => bool_decide (n ≠ 0)
  | MStr s => negb (PyString.is_empty s)
  end.

Definition meta_str (m : meta) : string :=
  match m with
  | MNone => "None"
  | MInt n => PyString.of_Z n
  | MStr s => s
  end.

(** [d.metadata.get(k)] *)
Definition meta_get (d : Document) (k : string) : meta :=
  default MNone (metadata d !! k).

(** [d.metadata.get("source") or d.metadata.get("file_path") or "unknown"] *)
Definition doc_source (d : Document) : meta :=
  if meta_truthy (meta_get d "source") then meta_get d "source"
  else if meta_truthy (meta_get d "file_path") then meta_get d "file_path"
  else MStr "unknown".

(** [d.metadata.get("page", "?")] *)
Definition doc_page (d : Document) : meta :=
  default (MStr "?") (metadata d !! "page").

Definition format_doc (i : nat) (d : Document) : string :=
  let src := doc_source d in
  let page := doc_page d in
  let header :=
    "[S" +:+ PyString.of_nat i +:+ "] (" +:+ meta_str src +:+ " p."
         +:+ meta_str page +:+ ")" in
  let body := page_content d in
  header +:+ String PyString.newline (body +:+ String PyString.newline "").

Fixpoint format_docs_from (i : nat) (docs : list Document) : list string :=
  match docs with
  | [] => []
  | d :: rest => format_doc i d :: format_docs_from (S i) rest
  end.

Definition _format_docs (docs : list Document) : string :=
  PyString.join_lines (format_docs_from 1 docs).

(** The deduplication key: [(d.metadata.get("source"), d.metadata.get("page"))] *)
Definition doc_key (d : Document) : meta * meta :=
  (meta_get d "source", meta_get d "page").

Fixpoint dedupe_loop (docs : list Document) (seen : gset (meta * meta))
    (out : list Document) : list Document :=
  match docs with
  | [] => out
  | d :: rest =>
      let key := doc_key d in
      if decide (key ∉ seen)
      then dedupe_loop rest ({[key]} ∪ seen) (out ++ [d])
      else dedupe_loop rest seen out
  end.

Definition _dedupe_docs (docs : list Document) : list Document :=
  dedupe_loop docs ∅ [].

Section SafeJsonParse.
Context (rt : Runtime).

Definition _safe_json_parse (text : string) (default : option value) : value :=
  let default := match default with None => VDict [] | Some d => d end in
  let start := PyString.find PyString.lbrace text in
  let end_ := PyString.rfind PyString.rbrace text + 1 in
  let parsed :=
    if decide (0 ≤ start ∧ start < end_)
    then json_loads rt (PyString.slice start end_ text)
    else json_loads rt text in
  match parsed with
  | Some v => v
  | None => default
  end.

End SafeJsonParse.

(** ** The pipeline object *)

Record Pipeline := mkPipeline {
  default_max_iters : Z;
  min_iters : Z;
}.

(** [EnhancedRAGPipeline.__init__(max_iters, min_iters)], as far as the
    two loop parameters go. *)
Definition EnhancedRAGPipeline (max_iters min_iters : Z) : Pipeline :=
  {| default_max_iters := max_iters; min_iters := Z.max 0 min_iters |}.

(** A dict literal of the source. *)
Definition dict (entries : list (string * value)) : State := list_to_map entries.

Definition FIXED_NO_EVIDENCE_ANSWER : string :=
  "I couldn't find any relevant evidence in the knowledge base for this query.".

Section Nodes.
Context (rt : Runtime) (sv : Services) (self : Pipeline).

(** [chain.invoke(vars)] for [chain = prompt | llm | StrOutputParser()] *)
Definition chain_invoke (llm : llm_id) (t : template)
    (vars : list (string * value)) : M string :=
  λ w, (llm_invoke sv (llm_calls w) llm t vars,
        mkWorld (S (llm_calls w)) (retriever_calls w) (uuids_drawn w)
                (node_log w) (checkpoints w)).

(** [retriever.invoke(query)] *)
Definition retriever_call (r : retriever_id) (query : value) : M (list Document) :=
  λ w, (retriever_invoke sv (retriever_calls w) r query,
        mkWorld (llm_calls w) (S (retriever_calls w)) (uuids_drawn w)
                (node_log w) (checkpoints w)).

(** *** analyze_question *)

Definition analysis_default : value :=
  VDict [("complexity_score", VFloat PyFloat.f5_0);
         ("question_type", VStr "analytical");
         ("estimated_hops", VInt 4);
         ("required_evidence_types", VList [VStr "documents"]);
         ("key_aspects", VList [VStr "general"]);
         ("reasoning", VStr "Default analysis")].

(** [min(self.default_max_iters,
         max(2, int(complexity * 0.8 + estimated_hops * 0.5)))] *)
Definition dynamic_budget (complexity estimated_hops : value) : result Z :=
  try! a := Py.mul_float complexity PyFloat.f0_8 in
  try! b := Py.mul_float estimated_hops PyFloat.f0_5 in
  try! n := PyFloat.trunc (PyFloat.fadd a b) in
  Ok (Z.min (default_max_iters self) (Z.max 2 n)).

Definition _analyze_question (state : State) : M State :=
  let! question := state_getitem state "question" in
  do! response :=
    chain_invoke analysis_llm QUESTION_ANALYSIS_PROMPT [("question", question)] in
  let analysis := _safe_json_parse rt response (Some analysis_default) in
  let! complexity := Py.get analysis "complexity_score" (VFloat PyFloat.f5_0) in
  let! estimated_hops := Py.get analysis "estimated_hops" (VInt 4) in
  let! max_dynamic := dynamic_budget complexity estimated_hops in
  let! question_type := Py.get analysis "question_type" (VStr "analytical") in
  let! required :=
    Py.get analysis "required_evidence_types" (VList [VStr "documents"]) in
  let! key_aspects := Py.get analysis "key_aspects" (VList [VStr "general"]) in
  ret (dict [("question_complexity", complexity);
             ("question_type", question_type);
             ("estimated_hops", estimated_hops);
             ("required_evidence_types", required);
             ("key_aspects", key_aspects);
             ("max_dynamic_iters", VInt max_dynamic);
             ("iteration", VInt 0);
             ("evidence_docs", VList []);
             ("evidence_hints", VList []);
             ("gaps", VList []);
             ("recent_quality_improvements", VList []);
             ("context_quality_score", VFloat PyFloat.f0_0);
             ("coverage_score", VFloat PyFloat.f0_0);
             ("evidence_strength", VFloat PyFloat.f0_0);
             ("information_gaps", VList []);
             ("detected_contradictions", VList []);
             ("key_findings", VList [])]).

(** *** enhanced_plan *)

(** ["\n".join(f"- {x}" for x in v[-n:]) or "None"] *)
Definition bullet_lines (n : nat) (v : value) : result string :=
  try! tail := Py.slice_last n v in
  try! items := Py.iterate tail in
  let joined := PyString.join_lines ((λ x, "- " +:+ py_str rt x) <$> items) in
  Ok (if PyString.is_empty joined then "None" else joined).

Definition planning_default (question : value) : value :=
  VDict [("sub_questions",
          VList [VDict [("query", question);
                        ("priority", VFloat PyFloat.f1_0);
                        ("aspect", VStr "general");
                        ("strategy", VStr "semantic")]]);
         ("reasoning", VStr "Default planning")].

(** [v.sort(key=lambda x: x.get("priority", 0.5), reverse=True)] *)
Definition sort_by_priority (v : value) : result value :=
  match v with
  | VList items =>
      try! keys := rmap_list (λ x, Py.get x "priority" (VFloat PyFloat.f0_5)) items in
      try! sorted := sort_reverse rt (zip keys items) in
      Ok (VList sorted)
  | _ => Raise AttributeError
  end.

Definition _enhanced_plan (state : State) : M State :=
  let! question := state_getitem state "question" in
  let analysis :=
    VDict [("complexity_score", state_get state "question_complexity" (VFloat PyFloat.f5_0));
           ("question_type", state_get state "question_type" (VStr "analytical"));
           ("estimated_hops", state_get state "estimated_hops" (VInt 4));
           ("required_evidence_types",
            state_get state "required_evidence_types" (VList []))] in
  let! context_hints := bullet_lines 10 (state_get state "evidence_hints" (VList [])) in
  let! gaps := bullet_lines 5 (state_get state "information_gaps" (VList [])) in
  do! response :=
    chain_invoke planning_llm MULTI_QUERY_PLANNING_PROMPT
      [("question", question);
       ("analysis", VStr (json_dumps rt analysis));
       ("context_hints", VStr context_hints);
       ("gaps", VStr gaps)] in
  let planning_result := _safe_json_parse rt response (Some (planning_default question)) in
  let! sub_questions := Py.get planning_result "sub_questions" (VList []) in
  let! sub_questions := sort_by_priority sub_questions in
  let! top := Py.slice_first 3 sub_questions in
  let! top_items := Py.iterate top in
  let! current_batch := rmap_list (λ sq, Py.getitem sq "query") top_items in
  let sub_question :=
    match current_batch with
    | q :: _ => q
    | [] => question
    end in
  ret (dict [("sub_questions", sub_questions);
             ("current_query_batch", VList current_batch);
             ("sub_question", sub_question)]).

(** *** parallel_retrieve *)

Definition retrieve_with_strategy (query strategy : value) : M (list Document) :=
  catch
    (if Py.eq_str strategy "semantic" then
       retriever_call semantic_retriever query
     else if Py.eq_str strategy "similarity" then
       retriever_call similarity_retriever query
     else
       do! semantic_docs := retriever_call semantic_retriever query in
       do! similarity_docs := retriever_call similarity_retriever query in
       ret (_dedupe_docs (semantic_docs ++ similarity_docs)))
    (λ _, ret []).

(** The inner [for sq in state.get("sub_questions", [])] loop with its
    [break]. *)
Fixpoint strategy_for (query : value) (sqs : list value) : result value :=
  match sqs with
  | [] => Ok (VStr "semantic")
  | sq :: rest =>
      try! q := Py.get sq "query" VNone in
      if py_eq rt q query then Py.get sq "strategy" (VStr "semantic")
      else strategy_for query rest
  end.

Definition pick_strategy (state : State) (query : value) : result value :=
  if Py.truthy (state_get state "sub_questions" VNone) then
    try! sqs := Py.iterate (state_get state "sub_questions" (VList [])) in
    strategy_for query sqs
  else Ok (VStr "semantic").

(** The [for query in queries] loop, threading [parallel_results] and
    [all_docs]. *)
Fixpoint retrieve_loop (state : State) (queries : list value)
    (parallel_results : list (string * value)) (all_docs : list Document)
  : M (list (string * value) * list Document) :=
  match queries with
  | [] => ret (parallel_results, all_docs)
  | query :: rest =>
      let! strategy := pick_strategy state query in
      do! docs := retrieve_with_strategy query strategy in
      let key := py_str rt query +:+ "_" +:+ py_str rt strategy in
      retrieve_loop state rest
        (Py.dict_store key (of_docs docs) parallel_results)
        (all_docs ++ docs)
  end.

(** One hint line per fused document. *)
Definition hint_of (d : Document) : value :=
  let src := doc_source d in
  let page := doc_page d in
  let title :=
    if PyString.is_empty (page_content d) then "No content"
    else PyString.first_line_120 (page_content d) in
  VStr (meta_str src +:+ " p." +:+ meta_str page +:+ ": " +:+ title).

(** [(existing_hints + new_hints)[-50:]] *)
Definition extend_hints (existing : value) (new_hints : list value) : result value :=
  match existing with
  | VList l => Ok (VList (PyString.last_n 50 (l ++ new_hints)))
  | _ => Raise TypeError
  end.

Definition _parallel_retrieve (state : State) : M State :=
  let! question := state_getitem state "question" in
  let queries :=
    state_get state "current_query_batch"
      (VList [state_get state "sub_question" question]) in
  let! queries := Py.iterate queries in
  do! looped := retrieve_loop state queries [] [] in
  let parallel_results := looped.1 in
  let all_docs := looped.2 in
  let fused_docs := _dedupe_docs all_docs in
  let! existing_evidence := as_docs (state_get state "evidence_docs" (VList [])) in
  let updated_evidence := _dedupe_docs (existing_evidence ++ fused_docs) in
  let new_hints := hint_of <$> fused_docs in
  let! updated_hints :=
    extend_hints (state_get state "evidence_hints" (VList [])) new_hints in
  ret (dict [("parallel_results", VDict parallel_results);
             ("fused_results", of_docs fused_docs);
             ("last_batch", of_docs fused_docs);
             ("evidence_docs", of_docs updated_evidence);
             ("evidence_hints", updated_hints)]).

(** *** advanced_assess *)

Definition assessment_default : value :=
  VDict [("quality_score", VFloat PyFloat.f0_5);
         ("coverage_score", VFloat PyFloat.f0_5);
         ("evidence_strength", VFloat PyFloat.f0_5);
         ("information_gaps", VList [VStr "Assessment failed"]);
         ("contradictions", VList []);
         ("sufficiency_assessment", VStr "partial");
         ("key_findings", VList []);
         ("reasoning", VStr "Default assessment")].

Definition _advanced_assess (state : State) : M State :=
  let! question := state_getitem state "question" in
  let evidence_docs := state_get state "evidence_docs" (VList []) in
  let! evidence_count := Py.len evidence_docs in
  if negb (Py.truthy evidence_docs) then
    ret (dict [("context_quality_score", VFloat PyFloat.f0_0);
               ("coverage_score", VFloat PyFloat.f0_0);
               ("evidence_strength", VFloat PyFloat.f0_0);
               ("information_gaps", VList [VStr "No relevant documents found"]);
               ("detected_contradictions", VList []);
               ("sufficiency_assessment", VStr "insufficient");
               ("key_findings", VList []);
               ("gaps", VList [VStr "No relevant documents found"])])
  else
    let! docs := as_docs evidence_docs in
    let context := _format_docs docs in
    do! response :=
      chain_invoke analysis_llm CONTEXT_ASSESSMENT_PROMPT
        [("question", question);
         ("context", VStr context);
         ("evidence_count", VInt evidence_count)] in
    let assessment := _safe_json_parse rt response (Some assessment_default) in
    let previous_quality := state_get state "context_quality_score" (VFloat PyFloat.f0_0) in
    let! current_quality := Py.get assessment "quality_score" (VFloat PyFloat.f0_5) in
    let! quality_improvement := Py.sub current_quality previous_quality in
    let recent_improvements := state_get state "recent_quality_improvements" (VList []) in
    let! recent_improvements := Py.append recent_improvements quality_improvement in
    let! recent_improvements := Py.slice_last 3 recent_improvements in
    let! coverage := Py.get assessment "coverage_score" (VFloat PyFloat.f0_5) in
    let! strength := Py.get assessment "evidence_strength" (VFloat PyFloat.f0_5) in
    let! information_gaps := Py.get assessment "information_gaps" (VList []) in
    let! contradictions := Py.get assessment "contradictions" (VList []) in
    let! sufficiency := Py.get assessment "sufficiency_assessment" (VStr "partial") in
    let! key_findings := Py.get assessment "key_findings" (VList []) in
    ret (dict [("context_quality_score", current_quality);
               ("coverage_score", coverage);
               ("evidence_strength", strength);
               ("information_gaps", information_gaps);
               ("detected_contradictions", contradictions);
               ("sufficiency_assessment", sufficiency);
               ("key_findings", key_findings);
               ("recent_quality_improvements", recent_improvements);
               ("gaps", information_gaps)]).

(** *** intelligent_decide *)

Definition decision_default : value :=
  VDict [("decision", VStr "continue");
         ("confidence", VFloat PyFloat.f0_5);
         ("reasoning", VStr "Default decision");
         ("stop_reasons", VList []);
         ("continue_strategy", VStr "general search");
         ("estimated_remaining_hops", VInt 2)].

(** [d[k].append(x)]: the list stored under [k] grows in place. *)
Definition append_at (d : value) (k : string) (x : value) : result value :=
  try! l := Py.getitem d k in
  try! l' := Py.append l x in
  match d with
  | VDict entries => Ok (VDict (Py.dict_store k l' entries))
  | _ => Raise TypeError
  end.

Definition _intelligent_decide (state : State) : M State :=
  let! iteration := as_int (state_get state "iteration" (VInt 0)) in
  let! max_iters :=
    as_int (state_get state "max_dynamic_iters" (VInt (default_max_iters self))) in
  let complexity := state_get state "question_complexity" (VFloat PyFloat.f5_0) in
  let quality_score := state_get state "context_quality_score" (VFloat PyFloat.f0_0) in
  let coverage_score := state_get state "coverage_score" (VFloat PyFloat.f0_0) in
  let assessment :=
    VDict [("quality_score", quality_score);
           ("coverage_score", coverage_score);
           ("evidence_strength", state_get state "evidence_strength" (VFloat PyFloat.f0_0));
           ("sufficiency_assessment",
            state_get state "sufficiency_assessment" (VStr "insufficient"));
           ("information_gaps", state_get state "information_gaps" (VList []));
           ("recent_improvements",
            state_get state "recent_quality_improvements" (VList []))] in
  let! last_batch_size := Py.len (state_get state "last_batch" (VList [])) in
  let recent_success :=
    if decide (0 < last_batch_size) then "successful" else "unsuccessful" in
  let! question := state_getitem state "question" in
  do! response :=
    chain_invoke analysis_llm DECISION_MAKING_PROMPT
      [("question", question);
       ("iteration", VInt (iteration + 1));
       ("max_iterations", VInt max_iters);
       ("assessment", VStr (json_dumps rt assessment));
       ("recent_success", VStr recent_success);
       ("complexity", complexity)] in
  let decision_result := _safe_json_parse rt response (Some decision_default) in
  let! decision := Py.get decision_result "decision" (VStr "continue") in
  let! lowered := Py.lower decision in
  let should_stop := bool_decide (lowered = "stop") in
  (* Additional safety checks *)
  let! checked :=
    if decide (max_iters ≤ iteration + 1) then
      try! marked :=
        append_at decision_result "stop_reasons" (VStr "Reached maximum iterations") in
      Ok (true, marked)
    else Ok (should_stop, decision_result) in
  let should_stop := checked.1 in
  let decision_result := checked.2 in
  (* Minimum iterations check *)
  let should_stop :=
    if decide (iteration + 1 < min_iters self) then false else should_stop in
  let! iteration_ratio := PyFloat.div_Z (iteration + 1) max_iters in
  let! complexity_factor := Py.div_float complexity PyFloat.f10_0 in
  let! confidence := Py.get decision_result "confidence" (VFloat PyFloat.f0_5) in
  let! stop_reasons := Py.get decision_result "stop_reasons" (VList []) in
  ret (dict [("stop", VBool should_stop);
             ("iteration", VInt (iteration + 1));
             ("decision_factors",
              VDict [("quality_score", quality_score);
                     ("coverage_score", coverage_score);
                     ("iteration_ratio", VFloat iteration_ratio);
                     ("complexity_factor", VFloat complexity_factor)]);
             ("continue_probability", confidence);
             ("stop_reasons", stop_reasons)]).

(** *** enhanced_synthesis *)

Definition _enhanced_synthesis (state : State) : M State :=
  let! question := state_getitem state "question" in
  let evidence_docs := state_get state "evidence_docs" (VList []) in
  if negb (Py.truthy evidence_docs) then
    ret (dict [("final_answer", VStr FIXED_NO_EVIDENCE_ANSWER);
               ("answer_confidence", VFloat PyFloat.f0_0)])
  else
    let! docs := as_docs evidence_docs in
    let context := _format_docs docs in
    let quality_score := state_get state "context_quality_score" (VFloat PyFloat.f0_5) in
    let coverage_score := state_get state "coverage_score" (VFloat PyFloat.f0_5) in
    let evidence_strength := state_get state "evidence_strength" (VFloat PyFloat.f0_5) in
    do! answer :=
      chain_invoke synthesis_llm ENHANCED_SYNTHESIS_PROMPT
        [("question", question);
         ("context", VStr context);
         ("quality_score", quality_score);
         ("coverage_score", coverage_score);
         ("evidence_strength", evidence_strength)] in
    let! q := Py.mul_float quality_score PyFloat.f0_4 in
    let! c := Py.mul_float coverage_score PyFloat.f0_4 in
    let! e := Py.mul_float evidence_strength PyFloat.f0_2 in
    let confidence := PyFloat.fadd (PyFloat.fadd q c) e in
    ret (dict [("final_answer", VStr (PyString.strip answer));
               ("answer_confidence", VFloat confidence)]).

(** *** advanced_verify *)

Definition verification_default : value :=
  VDict [("overall_grounding", VStr "fail");
         ("factual_grounding", VFloat PyFloat.f0_5);
         ("logical_consistency", VFloat PyFloat.f0_5);
         ("completeness", VFloat PyFloat.f0_5);
         ("source_attribution", VFloat PyFloat.f0_5);
         ("confidence_calibration", VFloat PyFloat.f0_5);
         ("issues_found", VList [VStr "Verification failed"]);
         ("recommendations", VList []);
         ("final_assessment", VStr "needs_improvement")].

Definition _advanced_verify (state : State) : M State :=
  let! question := state_getitem state "question" in
  let answer := state_get state "final_answer" (VStr "") in
  let evidence_docs := state_get state "evidence_docs" (VList []) in
  if negb (Py.truthy evidence_docs) || negb (Py.truthy answer) then
    ret (dict [("grounded_ok", VBool false)])
  else
    let! docs := as_docs evidence_docs in
    let context := _format_docs docs in
    do! response :=
      chain_invoke analysis_llm ADVANCED_VERIFICATION_PROMPT
        [("question", question);
         ("answer", answer);
         ("context", VStr context)] in
    let verification := _safe_json_parse rt response (Some verification_default) in
    let! grounding := Py.get verification "overall_grounding" (VStr "fail") in
    let! lowered := Py.lower grounding in
    let grounded_ok := bool_decide (lowered = "pass") in
    ret (dict [("grounded_ok", VBool grounded_ok)]).

(** *** The graph *)

Definition node_fn (n : node) : State → M State :=
  match n with
  | analyze_question => _analyze_question
  | enhanced_plan => _enhanced_plan
  | parallel_retrieve => _parallel_retrieve
  | advanced_assess => _advanced_assess
  | intelligent_decide => _intelligent_decide
  | enhanced_synthesis => _enhanced_synthesis
  | advanced_verify => _advanced_verify
  end.

(** The edges added in [__init__]; [None] is [END]. *)
Definition next_node (n : node) (state : State) : option node :=
  match n with
  | analyze_question => Some enhanced_plan
  | enhanced_plan => Some parallel_retrieve
  | parallel_retrieve => Some advanced_assess
  | advanced_assess => Some intelligent_decide
  | intelligent_decide =>
      if Py.truthy (state_get state "stop" (VBool false))
      then Some enhanced_synthesis else Some enhanced_plan
  | enhanced_synthesis => Some advanced_verify
  | advanced_verify => None
  end.

(** After a node completes, its update is reported and the merged
    state is checkpointed under the thread id. *)
Definition record_step (tid : string) (n : node) (update state' : State) : M unit :=
  λ w, (Ok (),
        mkWorld (llm_calls w) (retriever_calls w) (uuids_drawn w)
                (node_log w ++ [(n, update)])
                (<[tid := state']> (checkpoints w))).

(** Keys returned by a node overwrite the state; the others stay. *)
Fixpoint run_from (limit : nat) (tid : string) (n : node) (state : State)
  : M State :=
  match limit with
  | O => lift (Raise GraphRecursionError)
  | S limit' =>
      do! update := node_fn n state in
      let state' := update ∪ state in
      do! _ := record_step tid n update state' in
      match next_node n state' with
      | None => ret state'
      | Some n' => run_from limit' tid n' state'
      end
  end.

(** [self.app.invoke(init, config)]: the input is written over the
    state checkpointed for the thread, and the graph runs from its
    entry point. *)
Definition app_invoke (init : State) (tid : string) : M State :=
  λ w, run_from (recursion_limit rt) tid analyze_question
         (init ∪ default ∅ (checkpoints w !! tid)) w.

(** *** Public API *)

(** [f"enhanced-rag-{uuid4().hex}"] *)
Definition fresh_thread_id : M string :=
  λ w, (Ok ("enhanced-rag-" +:+ uuid4_hex sv (uuids_drawn w)),
        mkWorld (llm_calls w) (retriever_calls w) (S (uuids_drawn w))
                (node_log w) (checkpoints w)).

(** [thread_id or f"enhanced-rag-{uuid4().hex}"] *)
Definition thread_or_fresh (thread_id : option string) : M string :=
  match thread_id with
  | Some t => if PyString.is_empty t then fresh_thread_id else ret t
  | None => fresh_thread_id
  end.

Definition ask (question : string) (max_iters : option Z)
    (thread_id : option string) : M (value * value) :=
  let mi := match max_iters with
            | Some m => m
            | None => default_max_iters self
            end in
  let init := dict [("question", VStr question)] in
  do! tid := thread_or_fresh thread_id in
  do! final_state := app_invoke init tid in
  let answer := state_get final_state "final_answer" (VStr "") in
  let evidence := state_get final_state "evidence_docs" (VList []) in
  let! evidence_count := Py.len (if Py.truthy evidence then evidence else VList []) in
  let! last_gaps := Py.slice_last 3 (state_get final_state "information_gaps" (VList [])) in
  let debug :=
    VDict [("iterations", state_get final_state "iteration" (VInt 0));
           ("evidence_count", VInt evidence_count);
           ("grounded_ok", state_get final_state "grounded_ok" VNone);
           ("question_complexity",
            state_get final_state "question_complexity" (VFloat PyFloat.f0_0));
           ("context_quality_score",
            state_get final_state "context_quality_score" (VFloat PyFloat.f0_0));
           ("coverage_score", state_get final_state "coverage_score" (VFloat PyFloat.f0_0));
           ("answer_confidence",
            state_get final_state "answer_confidence" (VFloat PyFloat.f0_0));
           ("stop_reasons", state_get final_state "stop_reasons" (VList []));
           ("last_gaps", last_gaps);
           ("last_sub_question", state_get final_state "sub_question" (VStr ""))] in
  ret (answer, debug).

Definition node_name (n : node) : string :=
  match n with
  | analyze_question => "analyze_question"
  | enhanced_plan => "enhanced_plan"
  | parallel_retrieve => "parallel_retrieve"
  | advanced_assess => "advanced_assess"
  | intelligent_decide => "intelligent_decide"
  | enhanced_synthesis => "enhanced_synthesis"
  | advanced_verify => "advanced_verify"
  end.

(** What the generator [stream] yields. *)
Inductive stream_event :=
| NodeEvent (name : string) (input output : value)
| FinalEvent (state : State).

(** In "updates" mode the graph reports [{node: update}] after each
    node; the payload is the node's update dict. *)
Definition event_of (step : node * State) : stream_event :=
  NodeEvent (node_name step.1)
            (state_get step.2 "input" VNone)
            (state_get step.2 "output" VNone).

Definition steps_so_far : M nat := λ w, (Ok (length (node_log w)), w).
Definition steps_since (n : nat) : M (list (node * State)) :=
  λ w, (Ok (drop n (node_log w)), w).

(** The events of a [stream] call consumed to its end; events yielded
    before a failure remain visible in [node_log]. *)
Definition stream (question : string) (max_iters : option Z)
    (thread_id : option string) : M (list stream_event) :=
  let mi := match max_iters with
            | Some m => m
            | None => default_max_iters self
            end in
  let init := dict [("question", VStr question)] in
  do! tid := thread_or_fresh thread_id in
  do! mark := steps_so_far in
  do! _ := app_invoke init tid in
  do! steps := steps_since mark in
  (* Get final state *)
  do! final_state := app_invoke init tid in
  ret ((event_of <$> steps) ++ [FinalEvent final_state]).

End Nodes.

(** ** The question-answering endpoint of [app.py] *)

Module App.

(** The pydantic request model: both fields are required strings. *)
Record PolicyQARequest := mkPolicyQARequest {
  question : string;
  thread_id : string;
}.

Record JSONResponse := mkJSONResponse {
  status_code : Z;
  content : value;
}.

(** [rag_pipeline = EnhancedRAGPipeline(max_iters=3, min_iters=1)] *)
Definition rag_pipeline : Pipeline := EnhancedRAGPipeline 3 1.

Definition is_finite (x : spec_float) : bool :=
  match x with
  | S754_zero _ | S754_finite _ _ _ => true
  | _ => false
  end.

(** [JSONResponse] renders its content with [allow_nan=False]. *)
Fixpoint renderable (v : value) : bool :=
  match v with
  | VFloat x => is_finite x
  | VList items => forallb renderable items
  | VDict entries =>
      forallb (λ kv, match kv with (_, x) => renderable x end) entries
  | VDoc _ => false
  | _ => true
  end.

Definition render (v : value) : result unit :=
  if renderable v then Ok () else Raise ValueError.

Definition meta_value (m : meta) : value :=
  match m with
  | MNone => VNone
  | MInt n => VInt n
  | MStr s => VStr s
  end.

(** [{"metadata": doc.metadata, "page_content": doc.page_content}] *)
Definition doc_json (v : value) : result value :=
  try! d := as_doc v in
  Ok (VDict [("metadata",
              VDict ((λ kv, (kv.1, meta_value kv.2)) <$> map_to_list (metadata d)));
             ("page_content", VStr (page_content d))]).

(** [d[k] = x] on a dict value *)
Definition setitem (d : value) (k : string) (x : value) : result value :=
  match d with
  | VDict entries => Ok (VDict (Py.dict_store k x entries))
  | _ => Raise TypeError
  end.

(** *** The claim table *)

Definition is_dict (v : value) : bool :=
  match v with VDict _ => true | _ => false end.

Definition is_str (v : value) : bool :=
  match v with VStr _ => true | _ => false end.

(** The analysis that replaces one that is not a dict. *)
Definition analysis_fallback : value :=
  VDict [("policy_suggestion", VStr "Unknown");
         ("estimated_claim", VStr "Unknown");
         ("claim_details",
          VDict [("Description", VStr "Analysis failed");
                 ("Date of Loss", VStr "Unknown")]);
         ("policy_details",
          VDict [("Policy Number", VStr "Unknown");
                 ("Holder", VStr "Unknown")])].

(** [photo_summary[:100] + "..." if len(photo_summary) > 100
     else photo_summary] *)
Definition brief (photo_summary : value) : result value :=
  try! n := Py.len photo_summary in
  if decide (100 < n) then
    try! head := Py.slice_first 100 photo_summary in
    match head with
    | VStr s => Ok (VStr (s +:+ "..."))
    | _ => Raise TypeError
    end
  else Ok photo_summary.

Section ClaimTable.
Context (rt : Runtime).

Definition photo_row (policy_number date_of_loss estimated_loss : value)
    (i : nat) (photo_summary : value) : result value :=
  let claim_id := py_str rt policy_number +:+ "-D" +:+ PyString.of_nat i in
  try! description := brief photo_summary in
  Ok (VDict [("Claim ID/Policy #", VStr claim_id);
             ("Date of Loss", date_of_loss);
             ("Type of Claim", VStr "Motor - Damage Photo");
             ("Description", description);
             ("Estimated Loss Amount", estimated_loss);
             ("Total Loss", VStr "No");
             ("No Claim Bonus", VStr "Unknown");
             ("Status", VStr "Open")]).

(** The [for i, photo_summary in enumerate(damaged_photos, 1)] loop. *)
Fixpoint photo_rows_from (policy_number date_of_loss estimated_loss : value)
    (i : nat) (photos : list value) : result (list value) :=
  match photos with
  | [] => Ok []
  | photo_summary :: rest =>
      try! row :=
        photo_row policy_number date_of_loss estimated_loss i photo_summary in
      try! rows :=
        photo_rows_from policy_number date_of_loss estimated_loss (S i) rest in
      Ok (row :: rows)
  end.

Definition generate_claim_table_rows (analysis_json extracted_data : value)
  : result (list value) :=
  let analysis_json :=
    if is_dict analysis_json then analysis_json else analysis_fallback in
  try! policy_details := Py.get analysis_json "policy_details" (VDict []) in
  try! policy_number :=
    if is_dict policy_details
    then Py.get policy_details "Policy Number" (VStr "Unknown")
    else Ok (VStr "Unknown") in
  try! claim_details := Py.get analysis_json "claim_details" (VDict []) in
  try! date_of_loss :=
    if is_dict claim_details
    then Py.get claim_details "Date of Loss" (VStr "Unknown")
    else Ok (VStr "Unknown") in
  try! description :=
    if is_str claim_details then Ok claim_details
    else if is_dict claim_details
         then Py.get claim_details "Description" (VStr "See summary")
         else Ok (VStr "See summary") in
  try! estimated_loss := Py.get analysis_json "estimated_claim" (VStr "Unknown") in
  let total_loss :=
    match description with
    | VStr s =>
        if PyString.contains "total loss" (PyString.lower s) then "Yes" else "No"
    | _ => "No"
    end in
  let ncb := "Unknown" in
  let status := "Open" in
  let claim_type := "Motor" in
  let first :=
    VDict [("Claim ID/Policy #", policy_number);
           ("Date of Loss", date_of_loss);
           ("Type of Claim", VStr claim_type);
           ("Description", description);
           ("Estimated Loss Amount", estimated_loss);
           ("Total Loss", VStr total_loss);
           ("No Claim Bonus", VStr ncb);
           ("Status", VStr status)] in
  try! photos_entry := Py.get extracted_data "damaged_photos" (VDict []) in
  try! damaged_photos := Py.get photos_entry "summaries" (VList []) in
  try! photos := Py.iterate damaged_photos in
  try! photo_rows :=
    photo_rows_from policy_number date_of_loss estimated_loss 1 photos in
  Ok (take 10 (first :: photo_rows)).

End ClaimTable.

(** The description a photo row shows for a summary that is a string. *)
Definition shortened (summary : string) : string :=
  if decide (100 < length (PyString.chars summary))%nat
  then PyString.of_chars (take 100 (PyString.chars summary)) +:+ "..."
  else summary.

(** *** The upload endpoints: validation and error handling

    [process_claim] and [workshop_suggestion] first validate their
    uploads, then extract, analyse and report through Azure Document
    Intelligence and the chat model.  The validation and the two
    [except] clauses around the whole body are embedded; what follows
    the validation is a parameter ([remainder]), in a world of its
    own. *)

Definition MAX_FILE_SIZE : Z := 10 * 1024 * 1024.
Definition MAX_DAMAGED_PHOTOS : Z := 5.

Record UploadFile := mkUploadFile {
  filename : option string;
  file_content : list Byte.byte;
}.

(** [f"{file.filename}"] *)
Definition filename_str (file : UploadFile) : string :=
  match filename file with
  | Some name => name
  | None => "None"
  end.

(** The loop [for file in files: content = await file.read(); if
    len(content) > MAX_FILE_SIZE: raise ...; await file.seek(0)]. *)
Fixpoint validate_sizes (files : list UploadFile) : result unit :=
  match files with
  | [] => Ok ()
  | file :: rest =>
      if decide (MAX_FILE_SIZE < Z.of_nat (length (file_content file)))
      then Raise (HTTPException 422
                    ("File " +:+ filename_str file +:+ " exceeds 10MB limit"))
      else validate_sizes rest
  end.

Section Uploads.
Context (rt : Runtime) {W : Type}.

(** [try: body except HTTPException as http_err: raise http_err
     except Exception as e: raise HTTPException(500, ...)] *)
Definition reraise_http {A} (body : W → result A * W) : W → result A * W :=
  λ w, match body w with
       | (Ok a, w') => (Ok a, w')
       | (Raise (HTTPException code detail), w') =>
           (Raise (HTTPException code detail), w')
       | (Raise e, w') =>
           (Raise (HTTPException 500 ("Unexpected error: " +:+ exn_str rt e)), w')
       end.

Definition process_claim
    (remainder : UploadFile → UploadFile → UploadFile → UploadFile →
                 list UploadFile → option UploadFile → option UploadFile →
                 W → result JSONResponse * W)
    (emirates_id driving_license vehicle_registry claim_form : UploadFile)
    (damaged_photos : list UploadFile)
    (police_report police_document : option UploadFile)
  : W → result JSONResponse * W :=
  reraise_http (λ w,
    if decide (MAX_DAMAGED_PHOTOS < Z.of_nat (length damaged_photos)) then
      (Raise (HTTPException 422
                ("Maximum " +:+ PyString.of_Z MAX_DAMAGED_PHOTOS
                   +:+ " damaged photos allowed")), w)
    else
      let files_to_validate :=
        [emirates_id; driving_license; vehicle_registry; claim_form]
          ++ damaged_photos in
      let files_to_validate :=
        match police_report with
        | Some report => files_to_validate ++ [report]
        | None => files_to_validate
        end in
      match validate_sizes files_to_validate with
      | Raise e => (Raise e, w)
      | Ok _ =>
          remainder emirates_id driving_license vehicle_registry claim_form
            damaged_photos police_report police_document w
      end).

Definition workshop_suggestion
    (remainder : UploadFile → UploadFile → UploadFile →
                 W → result JSONResponse * W)
    (workshop1 workshop2 workshop3 : UploadFile)
  : W → result JSONResponse * W :=
  reraise_http (λ w,
    match validate_sizes [workshop1; workshop2; workshop3] with
    | Raise e => (Raise e, w)
    | Ok _ => remainder workshop1 workshop2 workshop3 w
    end).

End Uploads.

(** The first file of a list that is larger than the limit. *)
Fixpoint first_too_large (files : list UploadFile) : option UploadFile :=
  match files with
  | [] => None
  | file :: rest =>
      if decide (MAX_FILE_SIZE < Z.of_nat (length (file_content file)))
      then Some file else first_too_large rest
  end.

Section Endpoint.
Context (rt : Runtime) (sv : Services).

Definition policy_qa (request : PolicyQARequest) : M JSONResponse :=
  catch
    (if PyString.is_empty (PyString.strip (question request)) then
       lift (Raise (HTTPException 422 "Question cannot be empty"))
     else
       do! answered :=
         ask rt sv rag_pipeline (question request) None (Some (thread_id request)) in
       let final_answer := answered.1 in
       let debug_info := answered.2 in
       let! evidence := Py.get debug_info "evidence_docs" (VList []) in
       let! items := Py.iterate evidence in
       let! listed := rmap_list doc_json items in
       let! debug_info := setitem debug_info "evidence_docs" (VList listed) in
       let body :=
         VDict [("status", VStr "success");
                ("answer", final_answer);
                ("debug_info", debug_info)] in
       let! _ := render body in
       ret (mkJSONResponse 200 body))
    (λ e, lift (Raise (HTTPException 500
                         ("Error processing question: " +:+ exn_str rt e)))).

End Endpoint.

(** The status the HTTP client sees: an [HTTPException] carries its
    own, any other exception is an internal server error. *)
Definition http_status (r : result JSONResponse) : Z :=
  match r with
  | Ok resp => status_code resp
  | Raise (HTTPException code _) => code
  | Raise _ => 500
  end.

Definition is_client_error (code : Z) : bool :=
  bool_decide (400 ≤ code ∧ code < 500).

Definition is_server_error (code : Z) : bool :=
  bool_decide (500 ≤ code ∧ code < 600).

End App.

(** ** A concrete runtime

    For running the pipeline on concrete inputs: a JSON decoder for the
    grammar of [json.loads] over the model's strings, and direct
    implementations of the other runtime functions on the fragment of
    values they are documented for. *)

Module MiniJson.
Import PyString.

Definition at_code (c : ascii) (n : N) : bool := N.eqb (code c) n.

Definition is_ws (c : ascii) : bool :=
  at_code c 32 || at_code c 9 || at_code c 10 || at_code c 13.

Fixpoint skip_ws (cs : list ascii) : list ascii :=
  match cs with
  | c :: r => if is_ws c then skip_ws r else cs
  | [] => []
  end.

Definition digit_of (c : ascii) : option Z :=
  let n := code c in
  if decide (48 ≤ n ∧ n ≤ 57)%N then Some (Z.of_N n - 48) else None.

(** Reads a run of digits: the number read so far, how many digits,
    and the rest. *)
Fixpoint digits (cs : list ascii) (acc : Z) (count : nat)
  : Z * nat * list ascii :=
  match cs with
  | c :: r =>
      match digit_of c with
      | Some d => digits r (10 * acc + d) (S count)
      | None => (acc, count, cs)
      end
  | [] => (acc, count, [])
  end.

(** The integer part: [0] or a run of digits not starting with [0]. *)
Definition int_part (cs : list ascii) : option (Z * list ascii) :=
  match cs with
  | c :: r =>
      if at_code c 48 then Some (0, r)
      else match digits cs 0 0 with
           | (_, O, _) => None
           | (n, _, rest) => Some (n, rest)
           end
  | [] => None
  end.

(** An optional [.digits]: the digits appended to [n], their count. *)
Definition frac_part (n : Z) (cs : list ascii) : option (Z * nat * list ascii) :=
  match cs with
  | c :: r =>
      if at_code c 46 then
        match digits r n 0 with
        | (_, O, _) => None
        | res => Some res
        end
      else None
  | [] => None
  end.

(** An optional [e±digits]. *)
Definition exp_part (cs : list ascii) : option (Z * list ascii) :=
  match cs with
  | c :: r =>
      if at_code c 101 || at_code c 69 then
        let signed :=
          match r with
          | s :: r' =>
              if at_code s 45 then (true, r')
              else if at_code s 43 then (false, r') else (false, r)
          | [] => (false, r)
          end in
        match digits signed.2 0 0 with
        | (_, O, _) => None
        | (e, _, rest) => Some (if signed.1 then - e else e, rest)
        end
      else None
  | [] => None
  end.

(** The binary64 number nearest to [± m * 10^e]. *)
Definition decimal (neg : bool) (m e : Z) : spec_float :=
  if decide (m = 0) then S754_zero neg
  else
    let x :=
      if decide (0 ≤ e)
      then binary_normalize PyFloat.prec PyFloat.emax (m * 10 ^ e) 0 false
      else PyFloat.fdiv (PyFloat.exact_of_Z m) (PyFloat.exact_of_Z (10 ^ (- e))) in
    if neg then SFopp x else x.

Definition number (neg : bool) (cs : list ascii) : option (value * list ascii) :=
  match int_part cs with
  | None => None
  | Some (n, rest) =>
      let fr := match frac_part n rest with
                | Some (m, k, rest') => (Some (m, k), rest')
                | None => (None, rest)
                end in
      let ex := match exp_part fr.2 with
                | Some (e, rest') => (Some e, rest')
                | None => (None, fr.2)
                end in
      match fr.1, ex.1 with
      | None, None => Some (VInt (if neg then - n else n), rest)
      | _, _ =>
          let m := match fr.1 with Some mk => mk.1 | None => n end in
          let k := match fr.1 with Some mk => Z.of_nat mk.2 | None => 0 end in
          let e := default 0 ex.1 in
          Some (VFloat (decimal neg m (e - k)), ex.2)
      end
  end.

Definition hex_of (c : ascii) : option N :=
  let n := code c in
  if decide (48 ≤ n ∧ n ≤ 57)%N then Some (n - 48)%N
  else if decide (97 ≤ n ∧ n ≤ 102)%N then Some (n - 87)%N
  else if decide (65 ≤ n ∧ n ≤ 70)%N then Some (n - 55)%N
  else None.

(** The body of a string after its opening quote.  Escapes [\uXXXX]
    are decoded when the code point is below 256. *)
Fixpoint string_body (fuel : nat) (cs : list ascii) (acc : list ascii)
  : option (string * list ascii) :=
  match fuel with
  | O => None
  | S fuel' =>
      match cs with
      | [] => None
      | c :: r =>
          if at_code c 34 then Some (of_chars (rev acc), r)
          else if at_code c 92 then
            match r with
            | [] => None
            | e :: r' =>
                if at_code e 34 || at_code e 92 || at_code e 47 then string_body fuel' r' (e :: acc)
                else if at_code e 98 then string_body fuel' r' (ascii_of_N 8 :: acc)
                else if at_code e 102 then string_body fuel' r' (ascii_of_N 12 :: acc)
                else if at_code e 110 then string_body fuel' r' (ascii_of_N 10 :: acc)
                else if at_code e 114 then string_body fuel' r' (ascii_of_N 13 :: acc)
                else if at_code e 116 then string_body fuel' r' (ascii_of_N 9 :: acc)
                else if at_code e 117 then
                  match r' with
                  | h1 :: h2 :: h3 :: h4 :: r'' =>
                      match hex_of h1, hex_of h2, hex_of h3, hex_of h4 with
                      | Some 0%N, Some 0%N, Some a, Some b =>
                          string_body fuel' r'' (ascii_of_N (16 * a + b) :: acc)
                      | _, _, _, _ => None
                      end
                  | _ => None
                  end
                else None
            end
          else if (code c <? 32)%N then None
          else string_body fuel' r (c :: acc)
      end
  end.

Fixpoint starts_with (lit cs : list ascii) : option (list ascii) :=
  match lit, cs with
  | [], _ => Some cs
  | a :: lit', c :: cs' => if decide (a = c) then starts_with lit' cs' else None
  | _ :: _, [] => None
  end.

Definition literal (cs : list ascii) : option (value * list ascii) :=
  match starts_with (chars "null") cs with
  | Some r => Some (VNone, r)
  | None =>
  match starts_with (chars "true") cs with
  | Some r => Some (VBool true, r)
  | None =>
  match starts_with (chars "false") cs with
  | Some r => Some (VBool false, r)
  | None =>
  match starts_with (chars "NaN") cs with
  | Some r => Some (VFloat S754_nan, r)
  | None =>
  match starts_with (chars "Infinity") cs with
  | Some r => Some (VFloat (S754_infinity false), r)
  | None =>
  match starts_with (chars "-Infinity") cs with
  | Some r => Some (VFloat (S754_infinity true), r)
  | None => None
  end end end end end end.

Fixpoint parse_value (fuel : nat) (cs : list ascii) {struct fuel}
  : option (value * list ascii) :=
  match fuel with
  | O => None
  | S fuel' =>
      match cs with
      | [] => None
      | c :: r =>
          if at_code c 91 then parse_elements fuel' (skip_ws r) [] true
          else if at_code c 123 then parse_members fuel' (skip_ws r) [] true
          else if at_code c 34 then
            match string_body fuel' r [] with
            | Some (s, rest) => Some (VStr s, rest)
            | None => None
            end
          else match literal cs with
               | Some res => Some res
               | None => if at_code c 45 then number true r else number false cs
               end
      end
  end
with parse_elements (fuel : nat) (cs : list ascii) (acc : list value)
    (first : bool) {struct fuel} : option (value * list ascii) :=
  match fuel with
  | O => None
  | S fuel' =>
      match cs with
      | [] => None
      | c :: r =>
          if at_code c 93 && first then Some (VList [], r)
          else
            match parse_value fuel' cs with
            | None => None
            | Some (v, rest) =>
                match skip_ws rest with
                | d :: rest' =>
                    if at_code d 44 then parse_elements fuel' (skip_ws rest') (acc ++ [v]) false
                    else if at_code d 93 then Some (VList (acc ++ [v]), rest')
                    else None
                | [] => None
                end
            end
      end
  end
with parse_members (fuel : nat) (cs : list ascii) (acc : list (string * value))
    (first : bool) {struct fuel} : option (value * list ascii) :=
  match fuel with
  | O => None
  | S fuel' =>
      match cs with
      | [] => None
      | c :: r =>
          if at_code c 125 && first then Some (VDict [], r)
          else if at_code c 34 then
            match string_body fuel' r [] with
            | None => None
            | Some (k, rest) =>
                match skip_ws rest with
                | colon :: rest' =>
                    if at_code colon 58 then
                      match parse_value fuel' (skip_ws rest') with
                      | None => None
                      | Some (v, rest'') =>
                          match skip_ws rest'' with
                          | d :: rest3 =>
                              if at_code d 44 then
                                parse_members fuel' (skip_ws rest3)
                                  (Py.dict_store k v acc) false
                              else if at_code d 125 then
                                Some (VDict (Py.dict_store k v acc), rest3)
                              else None
                          | [] => None
                          end
                      end
                    else None
                | [] => None
                end
            end
          else None
      end
  end.

(** [json.loads]: one value, surrounded by optional whitespace. *)
Definition loads (text : string) : option value :=
  let cs := chars text in
  match parse_value (2 * length cs + 2) (skip_ws cs) with
  | Some (v, rest) =>
      match skip_ws rest with
      | [] => Some v
      | _ => None
      end
  | None => None
  end.

(** Writes JSON text with apostrophes where the quotation marks go. *)
Definition dq (s : string) : string :=
  of_chars ((λ c, if at_code c 39 then ascii_of_N 34 else c) <$> chars s).

End MiniJson.

Module Example.

(** [str(v)] on strings, ints, bools and [None]; other values are
    outside the fragment and shown as a fixed text. *)
Definition str (v : value) : string :=
  match v with
  | VStr s => s
  | VInt n => PyString.of_Z n
  | VBool b => if b then "True" else "False"
  | VNone => "None"
  | _ => "<object>"
  end.

Definition quote : string := String (ascii_of_N 34) "".

Fixpoint join_with (sep : string) (parts : list string) : string :=
  match parts with
  | [] => ""
  | [x] => x
  | x :: rest => x +:+ sep +:+ join_with sep rest
  end.

(** [json.dumps(v)] on strings without characters to escape, ints,
    bools, null, floats with an integer value, and lists and dicts of
    these. *)
Fixpoint dumps (v : value) : string :=
  match v with
  | VNone => "null"
  | VBool b => if b then "true" else "false"
  | VInt n => PyString.of_Z n
  | VFloat x =>
      match PyFloat.trunc x with
      | Ok n => PyString.of_Z n +:+ ".0"
      | Raise _ => "NaN"
      end
  | VStr s => quote +:+ s +:+ quote
  | VList items => "[" +:+ join_with ", " (dumps <$> items) +:+ "]"
  | VDict entries =>
      "{" +:+ join_with ", "
                ((λ kv, match kv with
                        | (k, x) => quote +:+ k +:+ quote +:+ ": " +:+ dumps x
                        end) <$> entries) +:+ "}"
  | VDoc _ => "<document>"
  end.

(** [a == b] on JSON values whose numbers are ints. *)
Fixpoint eqb (a b : value) {struct a} : bool :=
  match a, b with
  | VNone, VNone => true
  | VBool x, VBool y => bool_decide (x = y)
  | VInt x, VInt y => bool_decide (x = y)
  | VBool x, VInt y | VInt y, VBool x => bool_decide ((if x then 1 else 0) = y)
  | VStr s, VStr t => bool_decide (s = t)
  | VList l, VList l' =>
      (fix go (l l' : list value) : bool :=
         match l, l' with
         | [], [] => true
         | x :: r, y :: r' => eqb x y && go r r'
         | _, _ => false
         end) l l'
  | VDict d, VDict d' =>
      bool_decide (length d = length d') &&
      (fix go (d : list (string * value)) : bool :=
         match d with
         | [] => true
         | (k, x) :: r =>
             match Py.dict_lookup k d' with
             | Some y => eqb x y && go r
             | None => false
             end
         end) d
  | VDoc x, VDoc y => bool_decide (x = y)
  | _, _ => false
  end.

(** Sort keys: ints, bools and finite floats, the ints small enough
    to be floats exactly. *)
Definition key_float (k : value) : result spec_float :=
  match Py.as_num k with
  | Some (Py.NFloat S754_nan) | None => Raise TypeError
  | Some n => Py.to_float n
  end.

Fixpoint insert_desc (k : spec_float) (x : value)
    (sorted : list (spec_float * value)) : list (spec_float * value) :=
  match sorted with
  | [] => [(k, x)]
  | (k', x') :: rest =>
      match SFcompare k' k with
      | Some Lt => (k, x) :: sorted
      | _ => (k', x') :: insert_desc k x rest
      end
  end.

(** [list.sort(reverse=True)] on decorated items: descending by key,
    items with equal keys in their original order.  A list of at most
    one item is not compared at all. *)
Definition sort_desc (items : list (value * value)) : result (list value) :=
  match items with
  | [] | [_] => Ok (snd <$> items)
  | _ =>
      try! keyed := rmap_list (λ kx, try! k := key_float kx.1 in Ok (k, kx.2)) items in
      Ok (snd <$> fold_left (λ sorted kx, insert_desc kx.1 kx.2 sorted) keyed [])
  end.

(** [str(e)] *)
Definition show_exn (e : exn) : string :=
  match e with
  | KeyError k => "'" +:+ k +:+ "'"
  | HTTPException code detail => PyString.of_Z code +:+ ": " +:+ detail
  | ServiceError msg => msg
  | _ => ""
  end.

Definition runtime : Runtime :=
  {| json_loads := MiniJson.loads;
     json_dumps := dumps;
     py_str := str;
     py_eq := eqb;
     sort_reverse := sort_desc;
     exn_str := show_exn;
     recursion_limit := 25 |}.

(** Services scripted by prompt template and call number; the
    retrievers answer from one function of the call number, the
    retriever and the query. *)
Definition scripted (script : template → nat → string)
    (store : nat → retriever_id → value → result (list Document)) : Services :=
  {| llm_invoke := λ n _ t _, Ok (script t n);
     retriever_invoke := store;
     uuid4_hex := λ n, PyString.of_nat n |}.

Definition doc (content source : string) (page : Z) : Document :=
  mkDocument content (<["source" := MStr source]> (<["page" := MInt page]> ∅)).

(** A passage whose loader stored a [file_path] and no [source]. *)
Definition scanned (content file_path : string) (page : Z) : Document :=
  mkDocument content (<["file_path" := MStr file_path]> (<["page" := MInt page]> ∅)).

Definition policy_p3 : Document := doc "Windscreen cover applies." "doc.pdf" 3.
Definition policy_p3_other : Document := doc "Excess is 500 AED." "doc.pdf" 3.
Definition policy_p4 : Document := doc "Towing is included." "doc.pdf" 4.

(** A store that returns one passage for every query. *)
Definition one_passage : nat → retriever_id → value → result (list Document) :=
  λ _ _ _, Ok [policy_p3].

(** A store that never finds anything. *)
Definition nothing : nat → retriever_id → value → result (list Document) :=
  λ _ _ _, Ok [].

(** A store that cannot be reached. *)
Definition unreachable : nat → retriever_id → value → result (list Document) :=
  λ _ _ _, Raise (ServiceError "connection refused").

(** A store whose later answers bring a passage of a known page, with
    another text, and a passage of a new page. *)
Definition growing : nat → retriever_id → value → result (list Document) :=
  λ n _ _, Ok (match n with
               | O => [policy_p3]
               | _ => [policy_p3_other; policy_p4]
               end).

(** Every model output is well-formed JSON; the controller always
    answers "continue" with its full schema. *)
Definition well_formed : template → nat → string :=
  λ t _,
    match t with
    | QUESTION_ANALYSIS_PROMPT =>
        MiniJson.dq "{'complexity_score': 9, 'estimated_hops': 8}"
    | MULTI_QUERY_PLANNING_PROMPT =>
        MiniJson.dq "{'sub_questions': [{'query': 'windscreen', 'priority': 1}]}"
    | CONTEXT_ASSESSMENT_PROMPT =>
        MiniJson.dq "{'quality_score': 0.5, 'coverage_score': 0.5}"
    | DECISION_MAKING_PROMPT =>
        MiniJson.dq "{'decision': 'continue', 'stop_reasons': []}"
    | ENHANCED_SYNTHESIS_PROMPT => " Windscreen damage is covered. "
    | ADVANCED_VERIFICATION_PROMPT =>
        MiniJson.dq "{'overall_grounding': 'fail'}"
    end.

(** As [well_formed], but the controller's decision object has no
    [stop_reasons] field. *)
Definition no_stop_reasons : template → nat → string :=
  λ t n,
    match t with
    | DECISION_MAKING_PROMPT => MiniJson.dq "{'decision': 'continue'}"
    | _ => well_formed t n
    end.

(** As [well_formed], but the planner's sub-question has no [query]. *)
Definition no_query : template → nat → string :=
  λ t n,
    match t with
    | MULTI_QUERY_PLANNING_PROMPT =>
        MiniJson.dq "{'sub_questions': [{'priority': 1}]}"
    | _ => well_formed t n
    end.

(** As [well_formed], but the analyzer answers with a JSON array. *)
Definition non_object : template → nat → string :=
  λ t n,
    match t with
    | QUESTION_ANALYSIS_PROMPT => "[]"
    | _ => well_formed t n
    end.

End Example.

(** ** Runs as a step relation

    A configuration is the node about to run, the state it will read and
    the world.  One step runs the node, merges its update and follows the
    outgoing edge; a node that raises has no step. *)

Definition config : Type := node * State * World.

Section Steps.
Context (rt : Runtime) (sv : Services) (self : Pipeline) (tid : string).

Inductive step : config → config → Prop :=
| step_node n state w update w1 w2 n' :
    node_fn rt sv self n state w = (Ok update, w1) →
    record_step tid n update (update ∪ state) w1 = (Ok (), w2) →
    next_node n (update ∪ state) = Some n' →
    step (n, state, w) (n', update ∪ state, w2).

(** The configurations a run started at the entry point can reach. *)
Definition reachable (state0 : State) (w0 : World) (c : config) : Prop :=
  rtc step (analyze_question, state0, w0) c.

End Steps.

(** The keys of the update each node returns. *)
Definition node_writes (n : node) : list string :=
  match n with
  | analyze_question =>
      ["question_complexity"; "question_type"; "estimated_hops";
       "required_evidence_types"; "key_aspects"; "max_dynamic_iters";
       "iteration"; "evidence_docs"; "evidence_hints"; "gaps";
       "recent_quality_improvements"; "context_quality_score";
       "coverage_score"; "evidence_strength"; "information_gaps";
       "detected_contradictions"; "key_findings"]
  | enhanced_plan => ["sub_questions"; "current_query_batch"; "sub_question"]
  | parallel_retrieve =>
      ["parallel_results"; "fused_results"; "last_batch"; "evidence_docs";
       "evidence_hints"]
  | advanced_assess =>
      ["context_quality_score"; "coverage_score"; "evidence_strength";
       "information_gaps"; "detected_contradictions"; "sufficiency_assessment";
       "key_findings"; "recent_quality_improvements"; "gaps"]
  | intelligent_decide =>
      ["stop"; "iteration"; "decision_factors"; "continue_probability";
       "stop_reasons"]
  | enhanced_synthesis => ["final_answer"; "answer_confidence"]
  | advanced_verify => ["grounded_ok"]
  end.

(** The Evidence Accumulator of a state, when it is a list of documents. *)
Definition evidence_of (state : State) : option (list Document) :=
  match as_docs (state_get state "evidence_docs" (VList [])) with
  | Ok docs => Some docs
  | Raise _ => None
  end.

(** The merge of one retrieval step: the batch is fused, then merged
    into the accumulator (the two [_dedupe_docs] calls of
    [_parallel_retrieve]). *)
Definition accumulate (existing batch : list Document) : list Document :=
  _dedupe_docs (existing ++ _dedupe_docs batch).

(** ** The budget formula as the specification words it *)

Module Spec.




End Spec.

(** The documents of [docs] that [dedupe_loop] appends to [out] when it
    starts with the keys [seen]. *)
Fixpoint keep_unseen (seen : gset (meta * meta)) (docs : list Document)
  : list Document :=
  match docs with
  | [] => []
  | d :: rest =>
      if decide (doc_key d ∉ seen)
      then d :: keep_unseen ({[doc_key d]} ∪ seen) rest
      else keep_unseen seen rest
  end.

(** The keys of a list of documents, as a set. *)
Definition keys_of (docs : list Document) : gset (meta * meta) :=
  list_to_set (doc_key <$> docs).

(** ** Invariants of a run *)

(** The accumulator is a list of documents with pairwise distinct keys. *)
Definition evidence_ok (state : State) : Prop :=
  ∃ acc, evidence_of state = Some acc ∧ NoDup (doc_key <$> acc).

Definition counters (state : State) (i m : Z) : Prop :=
  state !! "iteration" = Some (VInt i) ∧
  state !! "max_dynamic_iters" = Some (VInt m).

(** What holds of the state when a node is about to run. *)
Definition run_inv (self : Pipeline) (n : node) (state : State) : Prop :=
  match n with
  | analyze_question => True
  | enhanced_plan | parallel_retrieve | advanced_assess | intelligent_decide =>
      evidence_ok state ∧
      ∃ i m, counters state i m ∧ m ≤ default_max_iters self ∧
             0 ≤ i ∧ (i = 0 ∨ i < m ∨ i < min_iters self)
  | enhanced_synthesis | advanced_verify =>
      evidence_ok state ∧
      (∃ i m, counters state i m ∧ m ≤ default_max_iters self ∧ m ≠ 0 ∧
              1 ≤ i ∧ min_iters self ≤ i ∧
              (i = 1 ∨ i ≤ m ∨ i ≤ min_iters self)) ∧
      (n = advanced_verify → evidence_of state = Some [] →
       state !! "final_answer" = Some (VStr FIXED_NO_EVIDENCE_ANSWER) ∧
       state !! "answer_confidence" = Some (VFloat PyFloat.f0_0))
  end.

(** ** A bound on the length of a run

    [steps_left] bounds the number of nodes still to run from a
    configuration that satisfies [run_inv]: the loop is left at the
    latest when the counter reaches the larger of the budget and the
    floor. *)

Definition iteration_bound (self : Pipeline) : Z :=
  Z.max 1 (Z.max (default_max_iters self) (min_iters self)).

Definition iteration_of (state : State) : Z :=
  match state !! "iteration" with
  | Some (VInt i) => i
  | _ => 0
  end.


(** ** The shape and the cost of a run *)

Definition loop_nodes : list node :=
  [enhanced_plan; parallel_retrieve; advanced_assess; intelligent_decide].

Fixpoint rounds (i : nat) : list node :=
  match i with
  | O => []
  | S i' => rounds i' ++ loop_nodes
  end.

(** The nodes of a completed run of [i] iterations, in the order they
    ran. *)
Definition run_trace (i : nat) : list node :=
  analyze_question :: rounds i ++ [enhanced_synthesis; advanced_verify].

(** The nodes that have completed when [n] is about to run with the
    iteration counter at [i]. *)
Definition trace_before (n : node) (i : nat) : list node :=
  match n with
  | analyze_question => []
  | enhanced_plan | enhanced_synthesis => analyze_question :: rounds i
  | parallel_retrieve => analyze_question :: rounds i ++ [enhanced_plan]
  | advanced_assess =>
      analyze_question :: rounds i ++ [enhanced_plan; parallel_retrieve]
  | intelligent_decide =>
      analyze_question
        :: rounds i ++ [enhanced_plan; parallel_retrieve; advanced_assess]
  | advanced_verify => analyze_question :: rounds i ++ [enhanced_synthesis]
  end.

(** The model calls one visit of a node makes: at least, at most.  The
    assessment, the synthesis and the verification return without a
    call on empty evidence. *)
Definition llm_calls_of (n : node) : nat * nat :=
  match n with
  | analyze_question | enhanced_plan | intelligent_decide => (1, 1)%nat
  | parallel_retrieve => (0, 0)%nat
  | advanced_assess | enhanced_synthesis | advanced_verify => (0, 1)%nat
  end.

(** The retriever calls one visit of a node makes, at most: two for
    each of the three queries of a batch. *)
Definition retriever_calls_of (n : node) : nat :=
  match n with
  | parallel_retrieve => 6
  | _ => 0
  end.

Definition total (f : node → nat) (trace : list node) : nat :=
  sum_list (f <$> trace).

(** A logged update has only keys its node writes. *)
Definition schema_only (entry : node * State) : Prop :=
  ∀ k, k ∉ node_writes entry.1 → entry.2 !! k = None.

(** What holds of the world when a node is about to run, in a run that
    started in the world [w0]. *)
Definition trace_inv (w0 : World) (n : node) (state : State) (w : World) : Prop :=
  let trace := trace_before n (Z.to_nat (iteration_of state)) in
  (∃ entries,
     node_log w = node_log w0 ++ entries ∧
     entries.*1 = trace ∧
     Forall schema_only entries) ∧
  uuids_drawn w = uuids_drawn w0 ∧
  (llm_calls w0 + total (λ n, (llm_calls_of n).1) trace ≤ llm_calls w)%nat ∧
  (llm_calls w ≤ llm_calls w0 + total (λ n, (llm_calls_of n).2) trace)%nat ∧
  (retriever_calls w0 ≤ retriever_calls w)%nat ∧
  (retriever_calls w ≤ retriever_calls w0 + total retriever_calls_of trace)%nat ∧
  (n = parallel_retrieve →
   ∃ batch, state !! "current_query_batch" = Some (VList batch) ∧
            (length batch ≤ 3)%nat).

(** A list of at most [bound] items is stored under a key. *)
Definition list_within (bound : nat) (v : option value) : Prop :=
  ∃ items, v = Some (VList items) ∧ (length items ≤ bound)%nat.

(** The working lists of the state are bounded once the analysis has
    run; the query batch is written by the first planning step. *)
Definition lists_bounded (n : node) (state : State) : Prop :=
  n ≠ analyze_question →
  list_within 50 (state !! "evidence_hints") ∧
  list_within 3 (state !! "recent_quality_improvements") ∧
  (n ≠ enhanced_plan → list_within 3 (state !! "current_query_batch")).

(** ** What a run can depend on

    A thread's checkpoint is the state an earlier run on the thread
    left; the next run starts from it with the new question written over
    it.  [known n] lists the keys that are the run's own when [n] is
    about to run: the question, and what the nodes before [n] wrote. *)

Definition known (n : node) : list string :=
  match n with
  | analyze_question => ["question"]
  | enhanced_plan => "question" :: node_writes analyze_question
  | parallel_retrieve =>
      "question" :: node_writes analyze_question ++ node_writes enhanced_plan
  | advanced_assess =>
      "question" :: node_writes analyze_question ++ node_writes enhanced_plan
        ++ node_writes parallel_retrieve
  | intelligent_decide =>
      "question" :: node_writes analyze_question ++ node_writes enhanced_plan
        ++ node_writes parallel_retrieve ++ node_writes advanced_assess
  | enhanced_synthesis =>
      "question" :: node_writes analyze_question ++ node_writes enhanced_plan
        ++ node_writes parallel_retrieve ++ node_writes advanced_assess
        ++ node_writes intelligent_decide
  | advanced_verify =>
      "question" :: node_writes analyze_question ++ node_writes enhanced_plan
        ++ node_writes parallel_retrieve ++ node_writes advanced_assess
        ++ node_writes intelligent_decide ++ node_writes enhanced_synthesis
  end.

(** The keys of a final state that the run itself has written. *)
Definition known_at_end : list string :=
  known advanced_verify ++ node_writes advanced_verify.

Definition agree_on (keys : list string) (s1 s2 : State) : Prop :=
  ∀ k, k ∈ keys → s1 !! k = s2 !! k.

(** Two worlds in which the services have been called equally often;
    the checkpoints and the log may differ. *)
Definition same_calls (w1 w2 : World) : Prop :=
  llm_calls w1 = llm_calls w2 ∧
  retriever_calls w1 = retriever_calls w2 ∧
  uuids_drawn w1 = uuids_drawn w2.

(** A computation that looks at the world only through its services. *)
Definition respects {A} (m : M A) : Prop :=
  ∀ w1 w2, same_calls w1 w2 →
    (m w1).1 = (m w2).1 ∧ same_calls (m w1).2 (m w2).2.

(** Two outcomes of a run that differ at most in keys the run never
    wrote. *)
Definition same_outcome (r1 r2 : result State) : Prop :=
  match r1, r2 with
  | Ok final1, Ok final2 => agree_on known_at_end final1 final2
  | Raise e1, Raise e2 => e1 = e2
  | _, _ => False
  end.

(** ** Running steps

    [exec_step] computes the step a configuration takes, when it takes
    one; it serves to exhibit concrete reachable configurations. *)

Section Exec.
Context (rt : Runtime) (sv : Services) (self : Pipeline) (tid : string).

Definition exec_step (c : config) : option config :=
  match node_fn rt sv self c.1.1 c.1.2 c.2 with
  | (Ok update, w1) =>
      match next_node c.1.1 (update ∪ c.1.2) with
      | Some n' =>
          Some (n', update ∪ c.1.2,
                (record_step tid c.1.1 update (update ∪ c.1.2) w1).2)
      | None => None
      end
  | (Raise _, _) => None
  end.

Fixpoint exec_steps (k : nat) (c : config) : option config :=
  match k with
  | O => Some c
  | S k' =>
      match exec_step c with
      | Some c' => exec_steps k' c'
      | None => None
      end
  end.

End Exec.

(** ** Concrete runs *)

Module Scenario.
Import Example.

Definition tid : string := "thread-1".
Definition init : State := dict [("question", VStr "Is windscreen damage covered?")].
Definition self : Pipeline := EnhancedRAGPipeline 3 1.

Definition services : Services := scripted well_formed one_passage.
Definition services_growing : Services := scripted well_formed growing.
Definition services_nothing : Services := scripted well_formed nothing.
Definition services_down : Services := scripted well_formed unreachable.

Definition start : config := (analyze_question, init, empty_world).

(** A state as synthesis leaves it, for the verifier alone. *)
Definition synthesized : State :=
  dict [("question", VStr "Is windscreen damage covered?");
        ("evidence_docs", of_docs [policy_p3]);
        ("final_answer", VStr "Windscreen damage is covered.");
        ("answer_confidence", VFloat PyFloat.f0_5)].

(** A world in which an earlier run has left a state on the thread. *)
Definition with_history : World :=
  mkWorld 0 0 0 [] (<[tid := synthesized]> ∅).

Definition blank_request : App.PolicyQARequest :=
  App.mkPolicyQARequest "   " "thread-1".

Definition succeeded {A} (r : result A * World) : bool := is_ok r.1.

Definition stepped (c : option config) : option node :=
  match c with
  | Some c' => Some c'.1.1
  | None => None
  end.

End Scenario.

(** * Proofs *)

Set Warnings "-clear-no-such-hyp".

(** ** Inversion of monadic code *)

Section MonadFacts.
Context {A B : Type}.

Lemma rbind_Ok (r : result A) (k : A → result B) b :
  rbind r k = Ok b → ∃ a, r = Ok a ∧ k a = Ok b.
Proof. destruct r as [a|e]; simpl; [eauto|done]. Qed.

Lemma bind_Ok (m : M A) (k : A → M B) w b w' :
  bind m k w = (Ok b, w') → ∃ a w1, m w = (Ok a, w1) ∧ k a w1 = (Ok b, w').
Proof.
  unfold bind. destruct (m w) as [[a|e] w1]; [eauto|done].
Qed.

Lemma bind_lift_Ok (r : result A) (k : A → M B) w b w' :
  bind (lift r) k w = (Ok b, w') → ∃ a, r = Ok a ∧ k a w = (Ok b, w').
Proof. unfold bind, lift. destruct r as [a|e]; [eauto|done]. Qed.

Lemma ret_Ok (a a' : A) w w' : ret a w = (Ok a', w') → a' = a ∧ w' = w.
Proof. unfold ret. by intros [= -> ->]. Qed.
End MonadFacts.

Ltac inv_bind H :=
  repeat (cbv beta zeta in H;
    match type of H with
    | bind (lift _) _ _ = (Ok _, _) =>
        let a := fresh "a" in let E := fresh "E" in
        apply bind_lift_Ok in H as (a & E & H)
    | bind _ _ _ = (Ok _, _) =>
        let a := fresh "a" in let w := fresh "w" in let E := fresh "E" in
        apply bind_Ok in H as (a & w & E & H)
    | (if ?c then _ else _) _ = (Ok _, _) =>
        let C := fresh "C" in destruct c eqn:C
    | ret _ _ = (Ok _, _) =>
        let E1 := fresh "E" in let E2 := fresh "E" in
        apply ret_Ok in H as [E1 E2]
    end).

(** ** Deduplication *)

Section DedupeFacts.
Implicit Types (docs out : list Document) (seen : gset (meta * meta)).

Lemma dedupe_loop_keep docs : ∀ seen out,
  dedupe_loop docs seen out = out ++ keep_unseen seen docs.
Proof.
  induction docs as [|d rest IH]; intros seen out; simpl.
  - by rewrite app_nil_r.
  - case_decide; rewrite IH; [|done]. by rewrite <- app_assoc.
Qed.

Lemma dedupe_keep docs : _dedupe_docs docs = keep_unseen ∅ docs.
Proof. unfold _dedupe_docs. by rewrite dedupe_loop_keep. Qed.

Lemma keys_of_app docs1 docs2 : keys_of (docs1 ++ docs2) = keys_of docs1 ∪ keys_of docs2.
Proof. unfold keys_of. rewrite fmap_app. by rewrite list_to_set_app_L. Qed.

Lemma elem_of_keys_of k docs : k ∈ keys_of docs ↔ k ∈ doc_key <$> docs.
Proof. unfold keys_of. by rewrite elem_of_list_to_set. Qed.

Lemma keys_of_nil : keys_of [] = ∅.
Proof. done. Qed.

Lemma keys_of_cons d docs : keys_of (d :: docs) = {[doc_key d]} ∪ keys_of docs.
Proof. done. Qed.

Lemma keep_unseen_app docs1 : ∀ seen docs2,
  keep_unseen seen (docs1 ++ docs2)
  = keep_unseen seen docs1 ++ keep_unseen (keys_of docs1 ∪ seen) docs2.
Proof.
  induction docs1 as [|d rest IH]; intros seen docs2; simpl.
  - by rewrite keys_of_nil, (left_id_L ∅ (∪)).
  - rewrite keys_of_cons. case_decide as Hd; rewrite IH; simpl.
    + by rewrite (assoc_L (∪)), (comm_L (∪) (keys_of rest)).
    +
      by rewrite <- (assoc_L (∪)), (subseteq_union_1_L {[doc_key d]})
        by (by apply singleton_subseteq_l, elem_of_union_r).
Qed.

Lemma keep_unseen_all_seen docs : ∀ seen,
  keys_of docs ⊆ seen → keep_unseen seen docs = [].
Proof.
  induction docs as [|d rest IH]; intros seen Hsub; [done|]. simpl.
  rewrite keys_of_cons in Hsub. apply union_subseteq in Hsub as [Hk Hrest].
  apply singleton_subseteq_l in Hk.
  rewrite decide_False by (by intros Hn). by apply IH.
Qed.

Lemma keep_unseen_keys docs : ∀ seen,
  keys_of (keep_unseen seen docs) ∪ seen = keys_of docs ∪ seen.
Proof.
  assert (∀ a b c : gset (meta * meta), a ∪ b ∪ c = b ∪ (a ∪ c)) as Hswap
    by (intros; set_unfold; intros; tauto).
  induction docs as [|d rest IH]; intros seen; [done|]. simpl.
  rewrite keys_of_cons. case_decide as Hd.
  - by rewrite keys_of_cons, !Hswap, IH.
  - rewrite IH, Hswap. f_equal. symmetry. apply subseteq_union_1_L.
    by apply singleton_subseteq_l.
Qed.

Lemma keep_unseen_fresh docs : ∀ seen,
  NoDup (doc_key <$> docs) → keys_of docs ## seen → keep_unseen seen docs = docs.
Proof.
  induction docs as [|d rest IH]; intros seen Hnd Hdisj; [done|]. simpl.
  rewrite fmap_cons in Hnd. apply NoDup_cons in Hnd as [Hd Hnd].
  rewrite keys_of_cons in Hdisj.
  apply disjoint_union_l in Hdisj as [Hk Hrest].
  apply disjoint_singleton_l in Hk.
  rewrite decide_True by done. f_equal. apply IH; [done|].
  apply disjoint_union_r. split; [|done].
  apply disjoint_singleton_r. by rewrite elem_of_keys_of.
Qed.

Lemma keep_unseen_distinct docs : ∀ seen,
  NoDup (doc_key <$> keep_unseen seen docs) ∧ keys_of (keep_unseen seen docs) ## seen.
Proof.
  induction docs as [|d rest IH]; intros seen; simpl.
  - split; [constructor|]. rewrite keys_of_nil. apply disjoint_empty_l.
  - case_decide as Hd; [|apply IH].
    destruct (IH ({[doc_key d]} ∪ seen)) as [Hnd Hdisj].
    apply disjoint_union_r in Hdisj as [Hk Hseen].
    apply disjoint_singleton_r in Hk.
    split.
    + rewrite fmap_cons. apply NoDup_cons. split; [|done].
      by rewrite <- elem_of_keys_of.
    + rewrite keys_of_cons. apply disjoint_union_l. split; [|done].
      by apply disjoint_singleton_l.
Qed.

Lemma keep_unseen_sublist docs : ∀ seen, keep_unseen seen docs `sublist_of` docs.
Proof.
  induction docs as [|d rest IH]; intros seen; simpl; [done|].
  case_decide; [by apply sublist_skip | by apply sublist_cons].
Qed.
End DedupeFacts.

(** ** What the nodes write and return *)

Lemma dict_lookup_None entries k : k ∉ entries.*1 → dict entries !! k = None.
Proof. intros. by apply not_elem_of_list_to_map_1. Qed.

Section NodeFacts.
Context (rt : Runtime) (sv : Services) (self : Pipeline).

Lemma node_update_keys n state w update w' k :
  node_fn rt sv self n state w = (Ok update, w') →
  k ∉ node_writes n → update !! k = None.
Proof.
  intros Hrun Hk. destruct n; simpl in Hrun;
    [ unfold _analyze_question in Hrun
    | unfold _enhanced_plan in Hrun
    | unfold _parallel_retrieve in Hrun
    | unfold _advanced_assess in Hrun
    | unfold _intelligent_decide in Hrun
    | unfold _enhanced_synthesis in Hrun
    | unfold _advanced_verify in Hrun ];
    inv_bind Hrun; subst; apply dict_lookup_None; try done.
  simpl. intros Hin. apply Hk. simpl.
  repeat (apply elem_of_cons in Hin as [->|Hin]; [by repeat constructor|]).
  by apply elem_of_nil in Hin.
Qed.
End NodeFacts.

Section NodeSpecs.
Context (rt : Runtime) (sv : Services) (self : Pipeline).

Lemma analyze_question_spec state w update w' :
  _analyze_question rt sv self state w = (Ok update, w') →
  ∃ complexity hops m,
    dynamic_budget self complexity hops = Ok m ∧
    update !! "question_complexity" = Some complexity ∧
    update !! "estimated_hops" = Some hops ∧
    update !! "max_dynamic_iters" = Some (VInt m) ∧
    update !! "iteration" = Some (VInt 0) ∧
    update !! "evidence_docs" = Some (VList []).
Proof.
  intros Hrun. unfold _analyze_question in Hrun. inv_bind Hrun. subst.
  eexists _, _, _. split; [eassumption|]. by repeat split.
Qed.

Lemma intelligent_decide_spec state w update w' i m :
  state !! "iteration" = Some (VInt i) →
  state !! "max_dynamic_iters" = Some (VInt m) →
  _intelligent_decide rt sv self state w = (Ok update, w') →
  ∃ stop,
    update !! "iteration" = Some (VInt (i + 1)) ∧
    update !! "stop" = Some (VBool stop) ∧
    m ≠ 0 ∧
    (i + 1 < min_iters self → stop = false) ∧
    (min_iters self ≤ i + 1 → m ≤ i + 1 → stop = true).
Proof.
  intros Hi Hm Hrun. unfold _intelligent_decide in Hrun.
  unfold state_get in Hrun at 1 2. rewrite Hi, Hm in Hrun. simpl in Hrun.
  inv_bind Hrun. subst. simplify_eq.
  assert (a0 ≠ 0) as Hnz.
  { intros ->. unfold PyFloat.div_Z in E7. by rewrite decide_True in E7. }
  eexists. split; [done|]. split; [done|]. split; [done|].
  destruct (decide (a + 1 < min_iters self)) as [Hlt|Hge].
  - split; [done|]. lia.
  - split; [lia|]. intros _ Hmax.
    rewrite decide_True in E6 by done.
    by apply rbind_Ok in E6 as (marked & _ & [= <-]).
Qed.

Lemma as_docs_of_docs docs : as_docs (of_docs docs) = Ok docs.
Proof.
  unfold as_docs, of_docs. induction docs as [|d rest IH]; [done|].
  rewrite fmap_cons. simpl. by rewrite IH.
Qed.

Lemma as_docs_nil v : as_docs v = Ok [] → v = VList [].
Proof.
  destruct v as [| | | | |items| |]; try done. simpl.
  destruct items as [|x rest]; [done|]. simpl.
  destruct (as_doc x); [|done]. simpl. by destruct (rmap_list as_doc rest).
Qed.

Lemma parallel_retrieve_spec state w update w' :
  _parallel_retrieve rt sv state w = (Ok update, w') →
  ∃ existing all_docs,
    as_docs (state_get state "evidence_docs" (VList [])) = Ok existing ∧
    update !! "evidence_docs" = Some (of_docs (accumulate existing all_docs)) ∧
    update !! "last_batch" = Some (of_docs (_dedupe_docs all_docs)).
Proof.
  intros Hrun. unfold _parallel_retrieve in Hrun. inv_bind Hrun. subst.
  by eexists _, _.
Qed.

Lemma enhanced_synthesis_empty state w :
  is_Some (state !! "question") →
  Py.truthy (state_get state "evidence_docs" (VList [])) = false →
  _enhanced_synthesis sv state w
  = (Ok (dict [("final_answer", VStr FIXED_NO_EVIDENCE_ANSWER);
               ("answer_confidence", VFloat PyFloat.f0_0)]), w).
Proof.
  intros [q Hq] Hempty. unfold _enhanced_synthesis, state_getitem.
  rewrite Hq. unfold bind at 1, lift at 1. by rewrite Hempty.
Qed.

Lemma enhanced_synthesis_question state w update w' :
  _enhanced_synthesis sv state w = (Ok update, w') →
  is_Some (state !! "question").
Proof.
  intros Hrun. unfold _enhanced_synthesis in Hrun. inv_bind Hrun;
    unfold state_getitem in *; by destruct (state !! "question").
Qed.

Lemma advanced_verify_spec state w update w' :
  _advanced_verify rt sv state w = (Ok update, w') →
  ∃ grounded, update = dict [("grounded_ok", VBool grounded)] ∧
    ((Py.truthy (state_get state "evidence_docs" (VList [])) = false ∨
      Py.truthy (state_get state "final_answer" (VStr "")) = false) →
     grounded = false ∧ w' = w).
Proof.
  intros Hrun. unfold _advanced_verify in Hrun. inv_bind Hrun; subst.
  - eexists. split; [done|]. done.
  - eexists. split; [done|]. intros Hshort.
    apply orb_false_elim in C as [C1 C2].
    apply negb_false_iff in C1, C2. destruct Hshort; congruence.
Qed.
End NodeSpecs.

(** ** Invariants along a run *)

Section RunFacts.
Context (rt : Runtime) (sv : Services) (self : Pipeline) (tid : string).

Lemma merged_lookup_written (update state : State) k v :
  update !! k = Some v → (update ∪ state) !! k = Some v.
Proof. intros. by apply lookup_union_Some_l. Qed.

Lemma merged_lookup_frame n state w update w' k :
  node_fn rt sv self n state w = (Ok update, w') →
  k ∉ node_writes n → (update ∪ state) !! k = state !! k.
Proof.
  intros Hrun Hk. apply lookup_union_r. by eapply node_update_keys.
Qed.

Lemma evidence_of_ext (s1 s2 : State) :
  s1 !! "evidence_docs" = s2 !! "evidence_docs" → evidence_of s1 = evidence_of s2.
Proof. unfold evidence_of, state_get. by intros ->. Qed.

Lemma evidence_ok_ext (s1 s2 : State) :
  s1 !! "evidence_docs" = s2 !! "evidence_docs" → evidence_ok s2 → evidence_ok s1.
Proof. unfold evidence_ok. intros Heq. by rewrite (evidence_of_ext _ _ Heq). Qed.

Lemma counters_ext (s1 s2 : State) i m :
  s1 !! "iteration" = s2 !! "iteration" →
  s1 !! "max_dynamic_iters" = s2 !! "max_dynamic_iters" →
  counters s2 i m → counters s1 i m.
Proof. unfold counters. by intros -> ->. Qed.

Local Ltac not_written := simpl; rewrite ?elem_of_cons, elem_of_nil; naive_solver.

Lemma dynamic_budget_le complexity hops m :
  dynamic_budget self complexity hops = Ok m → m ≤ default_max_iters self.
Proof.
  unfold dynamic_budget. intros H.
  apply rbind_Ok in H as (a & _ & H). apply rbind_Ok in H as (b & _ & H).
  apply rbind_Ok in H as (n & _ & [= <-]). lia.
Qed.

Lemma step_preserves_inv n state w n' state' w' :
  step rt sv self tid (n, state, w) (n', state', w') →
  run_inv self n state → run_inv self n' state'.
Proof.
  intros Hstep Hinv. inversion Hstep as [? ? ? update w1 w2 ? Hrun Hrec Hnext]; subst.
  destruct n; simpl in Hnext.
  - (* analyze_question *)
    injection Hnext as <-. simpl in Hrun.
    apply analyze_question_spec in Hrun
      as (complexity & hops & m & Hbudget & _ & _ & Hm & Hi & He).
    split.
    + exists []. split; [|constructor].
      unfold evidence_of, state_get. by rewrite (merged_lookup_written _ _ _ _ He).
    + exists 0, m. split; [split; by apply merged_lookup_written|].
      split; [by eapply dynamic_budget_le|]. lia.
  - (* enhanced_plan *)
    injection Hnext as <-. destruct Hinv as [Hev (i & m & Hc & Hbounds)].
    split.
    + eapply evidence_ok_ext; [|done]. eapply merged_lookup_frame; [done|not_written].
    + exists i, m. split; [|done].
      eapply counters_ext; [| |done]; (eapply merged_lookup_frame; [done|not_written]).
  - (* parallel_retrieve *)
    injection Hnext as <-. destruct Hinv as [Hev (i & m & Hc & Hbounds)].
    split.
    + simpl in Hrun. apply parallel_retrieve_spec in Hrun
        as (existing & all_docs & _ & Hev' & _).
      exists (accumulate existing all_docs). split.
      * unfold evidence_of, state_get.
        rewrite (merged_lookup_written _ _ _ _ Hev'). cbn [from_option id].
        by rewrite as_docs_of_docs.
      * unfold accumulate. rewrite dedupe_keep. apply keep_unseen_distinct.
    + exists i, m. split; [|done].
      eapply counters_ext; [| |done]; (eapply merged_lookup_frame; [done|not_written]).
  - (* advanced_assess *)
    injection Hnext as <-. destruct Hinv as [Hev (i & m & Hc & Hbounds)].
    split.
    + eapply evidence_ok_ext; [|done]. eapply merged_lookup_frame; [done|not_written].
    + exists i, m. split; [|done].
      eapply counters_ext; [| |done]; (eapply merged_lookup_frame; [done|not_written]).
  - (* intelligent_decide *)
    destruct Hinv as [Hev (i & m & [Hi Hm] & Hle & Hi0 & Hloop)].
    assert (evidence_ok (update ∪ state)) as Hev'.
    { eapply evidence_ok_ext; [|done]. eapply merged_lookup_frame; [done|not_written]. }
    assert ((update ∪ state) !! "max_dynamic_iters" = Some (VInt m)) as Hm'.
    { rewrite <- Hm. eapply merged_lookup_frame; [done|not_written]. }
    simpl in Hrun.
    destruct (intelligent_decide_spec _ _ _ _ _ _ _ i m Hi Hm Hrun)
      as (stop & Hit & Hstop & Hnz & Hfloor & Hceil).
    apply (merged_lookup_written _ state) in Hit, Hstop.
    unfold state_get in Hnext. rewrite Hstop in Hnext. simpl in Hnext.
    destruct stop; injection Hnext as <-.
    + split; [done|]. split; [|done].
      exists (i + 1), m. split; [done|].
      destruct (decide (i + 1 < min_iters self)) as [Hlt|Hge];
        [by specialize (Hfloor Hlt)|lia].
    + split; [done|]. exists (i + 1), m. split; [done|].
      destruct (decide (i + 1 < min_iters self)) as [Hlt|Hge]; [lia|].
      destruct (decide (m ≤ i + 1)) as [Hmax|Hmax]; [|lia].
      by specialize (Hceil ltac:(lia) Hmax).
  - (* enhanced_synthesis *)
    injection Hnext as <-. destruct Hinv as (Hev & (i & m & Hc & Hbounds) & _).
    assert ((update ∪ state) !! "evidence_docs" = state !! "evidence_docs") as Hsame.
    { eapply merged_lookup_frame; [done|not_written]. }
    split; [by eapply evidence_ok_ext|]. split.
    + exists i, m. split; [|done].
      eapply counters_ext; [| |done]; (eapply merged_lookup_frame; [done|not_written]).
    + intros _ Hempty. rewrite (evidence_of_ext _ _ Hsame) in Hempty.
      unfold evidence_of in Hempty.
      destruct (as_docs (state_get state "evidence_docs" (VList []))) as [docs|] eqn:Hdocs;
        [|done].
      injection Hempty as ->. apply as_docs_nil in Hdocs.
      simpl in Hrun. pose proof (enhanced_synthesis_question _ _ _ _ _ Hrun) as Hq.
      rewrite (enhanced_synthesis_empty sv state w Hq) in Hrun by (by rewrite Hdocs).
      injection Hrun as <- <-.
      split; by apply merged_lookup_written.
  - done.
Qed.

Lemma reachable_inv state0 w0 n state w :
  reachable rt sv self tid state0 w0 (n, state, w) → run_inv self n state.
Proof.
  unfold reachable. intros Hreach.
  change (run_inv self (n, state, w).1.1 (n, state, w).1.2).
  revert Hreach. generalize (n, state, w). apply rtc_ind_r; [done|].
  intros [[n1 s1] w1] [[n2 s2] w2] _ Hstep IH. simpl in *.
  by eapply step_preserves_inv.
Qed.
End RunFacts.

Section Runs.
Context (rt : Runtime) (sv : Services) (self : Pipeline) (tid : string).

Lemma record_step_Ok n update state' w :
  record_step tid n update state' w
  = (Ok (), mkWorld (llm_calls w) (retriever_calls w) (uuids_drawn w)
              (node_log w ++ [(n, update)]) (<[tid := state']> (checkpoints w))).
Proof. done. Qed.

(** A completed run is a path of steps to the verifier, whose update
    is merged last. *)
Lemma run_from_steps limit : ∀ n state w final w',
  run_from rt sv self limit tid n state w = (Ok final, w') →
  ∃ state1 w1 update w2,
    rtc (step rt sv self tid) (n, state, w) (advanced_verify, state1, w1) ∧
    _advanced_verify rt sv state1 w1 = (Ok update, w2) ∧
    final = update ∪ state1 ∧
    record_step tid advanced_verify update final w2 = (Ok (), w').
Proof.
  induction limit as [|limit IH]; intros n state w final w' Hrun; [done|].
  simpl in Hrun. apply bind_Ok in Hrun as (update & w1 & Hnode & Hrun).
  cbv zeta in Hrun. apply bind_Ok in Hrun as ([] & w2 & Hrec & Hrun).
  destruct (next_node n (update ∪ state)) as [n'|] eqn:Hnext.
  - apply IH in Hrun as (state1 & w3 & update1 & w4 & Hpath & Hrest).
    exists state1, w3, update1, w4. split; [|done].
    eapply rtc_l; [|done]. by econstructor.
  - apply ret_Ok in Hrun as [-> ->].
    assert (n = advanced_verify) as -> by (destruct n; simpl in Hnext; by try case_match).
    by exists state, w, update, w1.
Qed.

Lemma app_invoke_steps init w final w' :
  app_invoke rt sv self init tid w = (Ok final, w') →
  ∃ state1 w1 update w2,
    reachable rt sv self tid (init ∪ default ∅ (checkpoints w !! tid)) w
      (advanced_verify, state1, w1) ∧
    _advanced_verify rt sv state1 w1 = (Ok update, w2) ∧
    final = update ∪ state1 ∧
    record_step tid advanced_verify update final w2 = (Ok (), w').
Proof. unfold app_invoke. apply run_from_steps. Qed.
End Runs.

(** ** Termination within the recursion limit *)

Section Termination.
Context (rt : Runtime) (sv : Services) (self : Pipeline) (tid : string).

Local Ltac not_written := simpl; rewrite ?elem_of_cons, elem_of_nil; naive_solver.



Lemma run_from_unfold limit n state w :
  run_from rt sv self (S limit) tid n state w
  = match node_fn rt sv self n state w with
    | (Ok update, w1) =>
        let w2 := (record_step tid n update (update ∪ state) w1).2 in
        match next_node n (update ∪ state) with
        | Some n' => run_from rt sv self limit tid n' (update ∪ state) w2
        | None => (Ok (update ∪ state), w2)
        end
    | (Raise e, w1) => (Raise e, w1)
    end.
Proof.
  simpl. unfold bind at 1.
  destruct (node_fn rt sv self n state w) as [[update|e] w1]; [|done].
  unfold bind, record_step. simpl. by destruct (next_node n (update ∪ state)).
Qed.


End Termination.

Section ExecFacts.
Context (rt : Runtime) (sv : Services) (self : Pipeline) (tid : string).

Lemma exec_step_sound c c' :
  exec_step rt sv self tid c = Some c' → step rt sv self tid c c'.
Proof.
  destruct c as [[n state] w]. unfold exec_step. simpl.
  destruct (node_fn rt sv self n state w) as [[update|e] w1] eqn:Hnode; [|done].
  destruct (next_node n (update ∪ state)) as [n'|] eqn:Hnext; [|done].
  intros [= <-]. by econstructor.
Qed.

Lemma exec_steps_sound k : ∀ c c',
  exec_steps rt sv self tid k c = Some c' → rtc (step rt sv self tid) c c'.
Proof.
  induction k as [|k IH]; intros c c'; simpl.
  - by intros [= <-].
  - destruct (exec_step rt sv self tid c) as [c1|] eqn:Hstep; [|done].
    intros Hrest. eapply rtc_l; [by apply exec_step_sound|by apply IH].
Qed.
End ExecFacts.

Lemma exec_steps_snoc rt sv self tid k : ∀ c,
  exec_steps rt sv self tid (S k) c
  = match exec_steps rt sv self tid k c with
    | Some c' => exec_step rt sv self tid c'
    | None => None
    end.
Proof.
  induction k as [|k IH]; intros c.
  - simpl. by destruct (exec_step rt sv self tid c).
  - change (exec_steps rt sv self tid (S (S k)) c)
      with (match exec_step rt sv self tid c with
            | Some c' => exec_steps rt sv self tid (S k) c'
            | None => None
            end).
    destruct (exec_step rt sv self tid c) as [c1|] eqn:Hstep.
    + rewrite IH. simpl. by rewrite Hstep.
    + simpl. by rewrite Hstep.
Qed.


(** ** The claims *)

(** C1. For every run in which [min_iters] does not exceed
    [max_dynamic_iters], the iteration counter of the final state is at
    least [min_iters] and at most [max_dynamic_iters], whatever the
    oracle decides: the counter stays within the budget in every
    configuration a run reaches, the Controller forces [stop = true]
    once [iteration + 1 >= max_dynamic_iters] and [stop = false] while
    [iteration + 1 < min_iters], and the orchestrator loops back to
    planning exactly while [stop] is false. *)
Theorem iteration_within_floor_and_ceiling
    (rt : Runtime) (sv : Services) (max_iters min_iters_arg : Z)
    (init : State) (tid : string) (w : World) (final : State) (w' : World) :
  app_invoke rt sv (EnhancedRAGPipeline max_iters min_iters_arg) init tid w
  = (Ok final, w') →
  (∃ i m,
     final !! "iteration" = Some (VInt i) ∧
     final !! "max_dynamic_iters" = Some (VInt m) ∧
     min_iters (EnhancedRAGPipeline max_iters min_iters_arg) ≤ i ∧
     (min_iters (EnhancedRAGPipeline max_iters min_iters_arg) ≤ m → i ≤ m)) ∧
  (∀ n state wN,
     reachable rt sv (EnhancedRAGPipeline max_iters min_iters_arg) tid
       (init ∪ default ∅ (checkpoints w !! tid)) w (n, state, wN) →
     n ≠ analyze_question →
     ∃ i m, counters state i m ∧
            (min_iters (EnhancedRAGPipeline max_iters min_iters_arg) ≤ m → i ≤ m)) ∧
  (∀ state wD update wD' i m,
     counters state i m →
     _intelligent_decide rt sv (EnhancedRAGPipeline max_iters min_iters_arg) state wD
     = (Ok update, wD') →
     ∃ stop,
       update !! "iteration" = Some (VInt (i + 1)) ∧
       update !! "stop" = Some (VBool stop) ∧
       (i + 1 < min_iters (EnhancedRAGPipeline max_iters min_iters_arg) → stop = false) ∧
       (min_iters (EnhancedRAGPipeline max_iters min_iters_arg) ≤ i + 1 →
        m ≤ i + 1 → stop = true)) ∧
  (∀ state stop,
     state !! "stop" = Some (VBool stop) →
     next_node intelligent_decide state
     = Some (if stop then enhanced_synthesis else enhanced_plan)).
Proof.
  intros Hrun.
  set (self := EnhancedRAGPipeline max_iters min_iters_arg) in *.
  assert (0 ≤ min_iters self) as Hmin0 by (simpl; lia).
  split; [|split; [|split]].
  - apply app_invoke_steps in Hrun
      as (state1 & w1 & update & w2 & Hreach & Hverify & -> & _).
    apply reachable_inv in Hreach
      as (_ & (i & m & [Hi Hm] & Hle & Hnz & H1 & Hfloor & Hceil) & _).
    assert (∀ k, k ≠ "grounded_ok" → (update ∪ state1) !! k = state1 !! k) as Hframe.
    { intros k Hk. eapply (merged_lookup_frame rt sv self advanced_verify); [done|].
      simpl. by rewrite list_elem_of_singleton. }
    exists i, m. rewrite !Hframe by done. repeat split; try done.
    subst self; simpl in *; lia.
  - intros n state wN Hreach Hn. apply reachable_inv in Hreach.
    destruct n; simpl in Hreach; try done.
    1-4: destruct Hreach as (_ & i & m & Hc & _ & Hi0 & Hloop);
         exists i, m; split; [done|]; subst self; simpl in *; lia.
    1-2: destruct Hreach as (_ & (i & m & Hc & _ & Hnz & H1 & _ & Hceil) & _);
         exists i, m; split; [done|]; subst self; simpl in *; lia.
  - intros state wD update wD' i m [Hi Hm] Hdecide.
    destruct (intelligent_decide_spec _ _ _ _ _ _ _ i m Hi Hm Hdecide)
      as (stop & Hit & Hstop & _ & Hfloor & Hceil).
    by exists stop.
  - intros state stop Hstop. simpl. unfold state_get. rewrite Hstop. by destruct stop.
Qed.

Lemma iteration_within_floor_and_ceiling_witness :
  ∃ final w',
    app_invoke Example.runtime Scenario.services (EnhancedRAGPipeline 3 1)
      Scenario.init Scenario.tid empty_world = (Ok final, w') ∧
    ∃ i m,
      final !! "iteration" = Some (VInt i) ∧
      final !! "max_dynamic_iters" = Some (VInt m) ∧
      1 ≤ i ∧ (1 ≤ m → i ≤ m).
Proof.
  assert (Scenario.succeeded
            (app_invoke Example.runtime Scenario.services (EnhancedRAGPipeline 3 1)
               Scenario.init Scenario.tid empty_world) = true) as Hok
    by (vm_compute; reflexivity).
  destruct (app_invoke Example.runtime Scenario.services (EnhancedRAGPipeline 3 1)
              Scenario.init Scenario.tid empty_world) as [[final|e] w'] eqn:Hrun;
    [|discriminate Hok].
  exists final, w'. split; [reflexivity|].
  destruct (iteration_within_floor_and_ceiling _ _ _ _ _ _ _ _ _ Hrun)
    as ((i & m & Hi & Hm & Hfloor & Hceil) & _).
  exists i, m. exact (conj Hi (conj Hm (conj Hfloor Hceil))).
Defined.

(** C2 (the code departs from it). A malformed model output is meant
    to be replaced by the node's defaults and never to abort the run.
    Here a decision object without [stop_reasons] at the budget's last
    iteration, a sub-question without [query], and a response that is a
    JSON array each abort the run with an exception, while the run with
    well-formed outputs completes. *)
Theorem malformed_model_output_aborts_the_run :
  let run script :=
    (ask Example.runtime (Example.scripted script Example.one_passage)
       App.rag_pipeline "Is windscreen damage covered?" None (Some "thread-1")
       empty_world).1 in
  run Example.no_stop_reasons = Raise (KeyError "stop_reasons") ∧
  run Example.no_query = Raise (KeyError "query") ∧
  run Example.non_object = Raise AttributeError ∧
  is_ok (run Example.well_formed) = true.
Proof. vm_compute. done. Qed.




(** C4. Deduplication identifies passages by the pair (source, page)
    of their metadata, not by their content: a passage is kept exactly
    when its pair has not occurred earlier in the input, so of two
    passages sharing a pair the later one is dropped whatever its
    text, and the output keeps the input's order of first occurrences. *)
Theorem dedupe_keeps_first_of_each_source_page (docs : list Document) :
  (∀ d, _dedupe_docs (docs ++ [d])
        = _dedupe_docs docs ++
          (if decide (doc_key d ∈ doc_key <$> docs) then [] else [d])) ∧
  NoDup (doc_key <$> _dedupe_docs docs) ∧
  _dedupe_docs docs `sublist_of` docs ∧
  (∀ k, k ∈ doc_key <$> _dedupe_docs docs ↔ k ∈ doc_key <$> docs) ∧
  (∀ before d1 between d2 after,
     docs = before ++ d1 :: between ++ d2 :: after →
     doc_key d1 = doc_key d2 →
     _dedupe_docs docs = _dedupe_docs (before ++ d1 :: between ++ after)).
Proof.
  rewrite !dedupe_keep. split; [|split; [|split; [|split]]].
  - intros d. rewrite dedupe_keep, keep_unseen_app. f_equal. simpl.
    rewrite (right_id_L ∅ (∪)).
    destruct (decide (doc_key d ∈ doc_key <$> docs)) as [Hin|Hout].
    + rewrite decide_False; [done|]. intros Hn. apply Hn. by apply elem_of_keys_of.
    + rewrite decide_True; [done|]. by rewrite elem_of_keys_of.
  - apply keep_unseen_distinct.
  - apply keep_unseen_sublist.
  - intros k. rewrite <- !elem_of_keys_of. pose proof (keep_unseen_keys docs ∅) as Hkeys.
    rewrite !(right_id_L ∅ (∪)) in Hkeys. by rewrite Hkeys.
  - intros before d1 between d2 after -> Hkey.
    rewrite dedupe_keep.
    change (d1 :: between ++ d2 :: after) with ([d1] ++ between ++ [d2] ++ after).
    change (d1 :: between ++ after) with ([d1] ++ between ++ after).
    rewrite !keep_unseen_app. do 3 f_equal.
    set (seen := keys_of between ∪ (keys_of [d1] ∪ (keys_of before ∪ ∅))).
    assert (keys_of [d2] ⊆ seen) as Hsub.
    { rewrite keys_of_cons, keys_of_nil, <- Hkey. unfold seen.
      rewrite (keys_of_cons d1). intros k Hk.
      apply elem_of_union in Hk as [Hk|Hk]; [|by apply elem_of_empty in Hk].
      rewrite !elem_of_union. tauto. }
    rewrite (keep_unseen_all_seen [d2]) by done.
    by rewrite (subseteq_union_1_L _ _ Hsub).
Qed.

(** C5. Within a run the Evidence Accumulator only grows: every step
    after the analysis leaves the accumulator's entries in place and in
    order, a retrieval step appends to them, and the length never
    decreases. *)
Theorem evidence_accumulator_only_grows
    (rt : Runtime) (sv : Services) (self : Pipeline) (tid : string)
    (state0 : State) (w0 : World)
    (n : node) (state : State) (w : World)
    (n' : node) (state' : State) (w' : World) :
  reachable rt sv self tid state0 w0 (n, state, w) →
  n ≠ analyze_question →
  step rt sv self tid (n, state, w) (n', state', w') →
  ∃ acc fresh,
    evidence_of state = Some acc ∧
    evidence_of state' = Some (acc ++ fresh) ∧
    (length acc ≤ length (acc ++ fresh))%nat ∧
    (n ≠ parallel_retrieve → fresh = []).
Proof.
  intros Hreach Hn Hstep.
  pose proof (reachable_inv _ _ _ _ _ _ _ _ _ Hreach) as Hinv.
  assert (evidence_ok state) as (acc & Hacc & Hnd).
  { destruct n; simpl in Hinv; try done; tauto. }
  exists acc.
  inversion Hstep as [? ? ? update w1 w2 ? Hrun Hrec Hnext]; subst.
  destruct (decide (n = parallel_retrieve)) as [->|Hother].
  - simpl in Hrun. apply parallel_retrieve_spec in Hrun
      as (existing & all_docs & Hex & Hev' & _).
    unfold evidence_of in Hacc. rewrite Hex in Hacc. injection Hacc as ->.
    exists (keep_unseen (keys_of acc) (_dedupe_docs all_docs)).
    split; [by unfold evidence_of; rewrite Hex|]. split; [|split; [|done]].
    + unfold evidence_of, state_get.
      rewrite (merged_lookup_written _ _ _ _ Hev'). cbn [from_option id].
      rewrite as_docs_of_docs. f_equal. unfold accumulate.
      rewrite (dedupe_keep (acc ++ _)), keep_unseen_app, (right_id_L ∅ (∪)).
      f_equal. apply keep_unseen_fresh; [done|]. apply disjoint_empty_r.
    + rewrite length_app. lia.
  - exists []. rewrite app_nil_r. split; [done|]. split; [|done].
    rewrite <- Hacc. apply evidence_of_ext.
    eapply merged_lookup_frame; [done|].
    destruct n; simpl; try done;
      rewrite ?elem_of_cons, elem_of_nil; naive_solver.
Qed.

Lemma evidence_accumulator_only_grows_witness :
  ∃ state w state' w' acc fresh,
    reachable Example.runtime Scenario.services_growing Scenario.self Scenario.tid
      Scenario.init empty_world (parallel_retrieve, state, w) ∧
    step Example.runtime Scenario.services_growing Scenario.self Scenario.tid
      (parallel_retrieve, state, w) (advanced_assess, state', w') ∧
    evidence_of state = Some acc ∧
    evidence_of state' = Some (acc ++ fresh) ∧
    (length acc ≤ length (acc ++ fresh))%nat.
Proof.
  assert (Scenario.stepped
            (exec_steps Example.runtime Scenario.services_growing Scenario.self
               Scenario.tid 6 Scenario.start) = Some parallel_retrieve) as H6
    by (vm_compute; reflexivity).
  assert (Scenario.stepped
            (exec_steps Example.runtime Scenario.services_growing Scenario.self
               Scenario.tid 7 Scenario.start) = Some advanced_assess) as H7
    by (vm_compute; reflexivity).
  rewrite exec_steps_snoc in H7.
  destruct (exec_steps Example.runtime Scenario.services_growing Scenario.self
              Scenario.tid 6 Scenario.start) as [[[n state] w]|] eqn:Hreach;
    [|discriminate H6].
  injection H6 as ->.
  destruct (exec_step Example.runtime Scenario.services_growing Scenario.self
              Scenario.tid (parallel_retrieve, state, w)) as [[[n' state'] w']|] eqn:Hstep;
    [|discriminate H7].
  injection H7 as ->.
  apply exec_steps_sound in Hreach. apply exec_step_sound in Hstep.
  destruct (evidence_accumulator_only_grows _ _ _ _ _ _ _ _ _ _ _ _
              Hreach ltac:(discriminate) Hstep)
    as (acc & fresh & Hacc & Hacc' & Hlen & _).
  exists state, w, state', w', acc, fresh.
  exact (conj Hreach (conj Hstep (conj Hacc (conj Hacc' Hlen)))).
Defined.

(** C6. Merging into the Evidence Accumulator is idempotent: merging
    the same passage list a second time yields the accumulator that
    merging it once gave. *)
Theorem merging_a_batch_twice_changes_nothing (existing all_docs : list Document) :
  let fused_docs := _dedupe_docs all_docs in
  let updated_evidence := _dedupe_docs (existing ++ fused_docs) in
  _dedupe_docs (updated_evidence ++ fused_docs) = updated_evidence ∧
  accumulate (accumulate existing all_docs) all_docs = accumulate existing all_docs.
Proof.
  assert (_dedupe_docs (_dedupe_docs (existing ++ _dedupe_docs all_docs) ++ _dedupe_docs all_docs)
          = _dedupe_docs (existing ++ _dedupe_docs all_docs)) as Hidem.
  { rewrite !dedupe_keep.
    set (fused := keep_unseen ∅ all_docs).
    set (updated := keep_unseen ∅ (existing ++ fused)).
    rewrite keep_unseen_app.
    destruct (keep_unseen_distinct (existing ++ fused) ∅) as [Hnd Hdisj].
    rewrite (keep_unseen_fresh updated) by done.
    rewrite keep_unseen_all_seen; [by rewrite app_nil_r|].
    pose proof (keep_unseen_keys (existing ++ fused) ∅) as Hkeys.
    fold updated in Hkeys. rewrite !(right_id_L ∅ (∪)) in Hkeys.
    rewrite (right_id_L ∅ (∪)), Hkeys, keys_of_app.
    apply union_subseteq_r. }
  by split.
Qed.

(** C7. A run whose Evidence Accumulator is empty when synthesis is
    reached ends with the fixed no-relevant-evidence answer and answer
    confidence 0.0, and the Synthesizer makes no oracle call: it leaves
    the world as it found it. *)
Theorem empty_evidence_gives_fixed_answer
    (rt : Runtime) (sv : Services) (self : Pipeline)
    (init : State) (tid : string) (w : World) (final : State) (w' : World) :
  app_invoke rt sv self init tid w = (Ok final, w') →
  evidence_of final = Some [] →
  final !! "final_answer" = Some (VStr FIXED_NO_EVIDENCE_ANSWER) ∧
  final !! "answer_confidence" = Some (VFloat PyFloat.f0_0) ∧
  ∃ state wS,
    reachable rt sv self tid (init ∪ default ∅ (checkpoints w !! tid)) w
      (enhanced_synthesis, state, wS) ∧
    evidence_of state = Some [] ∧
    _enhanced_synthesis sv state wS
    = (Ok (dict [("final_answer", VStr FIXED_NO_EVIDENCE_ANSWER);
                 ("answer_confidence", VFloat PyFloat.f0_0)]), wS).
Proof.
  intros Hrun Hempty.
  apply app_invoke_steps in Hrun as (state1 & w1 & update & w2 & Hreach & Hverify & -> & _).
  assert (∀ k, k ≠ "grounded_ok" → (update ∪ state1) !! k = state1 !! k) as Hframe.
  { intros k Hk. eapply (merged_lookup_frame rt sv self advanced_verify); [done|].
    simpl. by rewrite list_elem_of_singleton. }
  rewrite (evidence_of_ext _ state1) in Hempty by (by apply Hframe).
  pose proof (reachable_inv _ _ _ _ _ _ _ _ _ Hreach) as (_ & _ & Hfixed).
  destruct (Hfixed eq_refl Hempty) as [Hanswer Hconf].
  rewrite !Hframe by done. split; [done|]. split; [done|].
  (* the verifier is only entered from the synthesizer *)
  unfold reachable in Hreach. apply rtc_inv_r in Hreach as [[=]|(c & Hpath & Hstep)].
  destruct c as [[n state] wS].
  inversion Hstep as [? ? ? updateS wS1 wS2 ? HrunS HrecS Hnext]; subst.
  assert (n = enhanced_synthesis) as ->.
  { destruct n; simpl in Hnext; try done. by case_match. }
  exists state, wS. split; [done|].
  assert (evidence_of state = Some []) as HemptyS.
  { rewrite <- Hempty. symmetry. apply evidence_of_ext.
    eapply merged_lookup_frame; [done|].
    simpl. rewrite ?elem_of_cons, elem_of_nil. naive_solver. }
  split; [done|].
  apply enhanced_synthesis_empty.
  - by eapply enhanced_synthesis_question.
  - unfold evidence_of in HemptyS.
    destruct (as_docs (state_get state "evidence_docs" (VList []))) as [docs|] eqn:Hdocs;
      [|done].
    injection HemptyS as ->. apply as_docs_nil in Hdocs. by rewrite Hdocs.
Qed.

Lemma empty_evidence_gives_fixed_answer_witness :
  ∃ final w',
    app_invoke Example.runtime Scenario.services_nothing Scenario.self
      Scenario.init Scenario.tid empty_world = (Ok final, w') ∧
    evidence_of final = Some [] ∧
    final !! "final_answer" = Some (VStr FIXED_NO_EVIDENCE_ANSWER) ∧
    final !! "answer_confidence" = Some (VFloat PyFloat.f0_0).
Proof.
  assert ((λ r : result State * World,
             match r.1 with
             | Ok final => evidence_of final
             | Raise _ => None
             end)
            (app_invoke Example.runtime Scenario.services_nothing Scenario.self
               Scenario.init Scenario.tid empty_world) = Some []) as Hok
    by (vm_compute; reflexivity).
  destruct (app_invoke Example.runtime Scenario.services_nothing Scenario.self
              Scenario.init Scenario.tid empty_world) as [[final|e] w'] eqn:Hrun;
    [|discriminate Hok].
  simpl in Hok.
  destruct (empty_evidence_gives_fixed_answer _ _ _ _ _ _ _ _ Hrun Hok)
    as (Hanswer & Hconf & _).
  exists final, w'. exact (conj eq_refl (conj Hok (conj Hanswer Hconf))).
Defined.



(** C9 (the code departs from it). A request with an empty or blank
    question is rejected before the pipeline is entered and is meant to
    get a client error.  The rejection is raised inside the handler's
    own [try], whose [except Exception] turns it into status 500: the
    world is untouched (the pipeline was never invoked) but the caller
    sees a server error. *)
Theorem empty_question_is_answered_with_500
    (rt : Runtime) (sv : Services) (request : App.PolicyQARequest) (w : World) :
  PyString.strip (App.question request) = "" →
  App.policy_qa rt sv request w
  = (Raise (HTTPException 500
              ("Error processing question: " +:+
               exn_str rt (HTTPException 422 "Question cannot be empty"))), w) ∧
  App.http_status (App.policy_qa rt sv request w).1 = 500 ∧
  App.is_client_error (App.http_status (App.policy_qa rt sv request w).1) = false ∧
  App.is_server_error (App.http_status (App.policy_qa rt sv request w).1) = true.
Proof.
  intros Hempty.
  assert (App.policy_qa rt sv request w
          = (Raise (HTTPException 500
                      ("Error processing question: " +:+
                       exn_str rt (HTTPException 422 "Question cannot be empty"))), w))
    as Heq.
  { unfold App.policy_qa, catch. by rewrite Hempty. }
  rewrite Heq. by repeat split.
Qed.

Lemma empty_question_is_answered_with_500_witness :
  PyString.strip (App.question Scenario.blank_request) = "" ∧
  App.http_status
    (App.policy_qa Example.runtime Scenario.services Scenario.blank_request empty_world).1
  = 500.
Proof.
  assert (PyString.strip (App.question Scenario.blank_request) = "") as Hblank
    by reflexivity.
  split; [exact Hblank|].
  destruct (empty_question_is_answered_with_500 Example.runtime Scenario.services
              Scenario.blank_request empty_world Hblank) as (_ & Hstatus & _).
  exact Hstatus.
Defined.

(** C10. The [max_iters] argument of [ask] and [stream] has no
    effect: for any two values of it, omitted or given, the two
    operations are the same computation, so they return the same
    results and leave the same world. *)
Theorem max_iters_argument_is_ignored
    (rt : Runtime) (sv : Services) (self : Pipeline)
    (question : string) (thread_id : option string) (max_iters1 max_iters2 : option Z) :
  ask rt sv self question max_iters1 thread_id
  = ask rt sv self question max_iters2 thread_id ∧
  stream rt sv self question max_iters1 thread_id
  = stream rt sv self question max_iters2 thread_id.
Proof. done. Qed.

(** ** Further properties of the code *)

Section DedupeLaws.
Implicit Types (docs : list Document) (seen : gset (meta * meta)).

Lemma keep_unseen_filter docs : ∀ seen1 seen2,
  keep_unseen (seen1 ∪ seen2) docs
  = filter (λ d, doc_key d ∉ seen1) (keep_unseen seen2 docs).
Proof.
  induction docs as [|d rest IH]; intros seen1 seen2; [done|]. simpl.
  destruct (decide (doc_key d ∈ seen2)) as [H2|H2].
  - rewrite decide_False by (intros Hn; apply Hn, elem_of_union_r, H2).
    rewrite (decide_False (P := doc_key d ∉ seen2)) by (by intros Hn).
    apply IH.
  - rewrite (decide_True (P := doc_key d ∉ seen2)) by done.
    destruct (decide (doc_key d ∈ seen1)) as [H1|H1].
    + rewrite decide_False by (intros Hn; apply Hn, elem_of_union_l, H1).
      rewrite filter_cons_False by (by intros Hn).
      rewrite <- IH. f_equal. apply set_eq. intros k.
      rewrite !elem_of_union, elem_of_singleton.
      split; [tauto|]. intros [?|[Hk|?]]; [tauto| |tauto]. subst k. tauto.
    + rewrite decide_True by (rewrite elem_of_union; tauto).
      rewrite filter_cons_True by done. f_equal.
      rewrite <- IH. f_equal. apply set_eq. intros k.
      rewrite !elem_of_union. tauto.
Qed.

Lemma keep_unseen_length docs : ∀ seen,
  (length (keep_unseen seen docs) ≤ length docs)%nat.
Proof.
  intros seen. apply sublist_length, keep_unseen_sublist.
Qed.

Lemma keep_unseen_full_length docs : ∀ seen,
  length (keep_unseen seen docs) = length docs → keep_unseen seen docs = docs.
Proof.
  induction docs as [|d rest IH]; intros seen Hlen; [done|]. simpl in *.
  case_decide.
  - f_equal. apply IH. simpl in Hlen. lia.
  - pose proof (keep_unseen_length rest seen). lia.
Qed.

Lemma keep_unseen_Forall (P : Document → Prop) docs seen :
  Forall P docs → Forall P (keep_unseen seen docs).
Proof.
  rewrite !Forall_forall. intros Hall d Hd. apply Hall.
  eapply elem_of_sublist; [done|]. apply keep_unseen_sublist.
Qed.
End DedupeLaws.

(** X1. Deduplicating twice gives what deduplicating once gave; a list
    is returned unchanged exactly when its (source, page) pairs are
    pairwise distinct; the result is never longer than the input, and
    of the same length only when nothing was dropped. *)
Theorem dedupe_is_idempotent_and_fixes_distinct_lists (docs : list Document) :
  _dedupe_docs (_dedupe_docs docs) = _dedupe_docs docs ∧
  (_dedupe_docs docs = docs ↔ NoDup (doc_key <$> docs)) ∧
  (length (_dedupe_docs docs) ≤ length docs)%nat ∧
  (length (_dedupe_docs docs) = length docs → _dedupe_docs docs = docs).
Proof.
  rewrite !dedupe_keep.
  destruct (keep_unseen_distinct docs ∅) as [Hnd Hdisj].
  split; [|split; [|split]].
  - by apply keep_unseen_fresh.
  - split.
    + intros Heq. by rewrite Heq in Hnd.
    + intros Hdistinct. apply keep_unseen_fresh; [done|]. apply disjoint_empty_r.
  - apply keep_unseen_length.
  - apply keep_unseen_full_length.
Qed.

(** X2. Deduplicating a concatenation keeps the deduplicated first
    list in front and appends those passages of the deduplicated second
    list whose (source, page) pair does not occur in the first: this is
    what the hybrid strategy returns for its two result lists, and how a
    fused batch is merged behind the existing evidence. *)
Theorem dedupe_of_a_concatenation (first second : list Document) :
  _dedupe_docs (first ++ second)
  = _dedupe_docs first ++
    filter (λ d, doc_key d ∉ doc_key <$> first) (_dedupe_docs second).
Proof.
  rewrite !dedupe_keep, keep_unseen_app. f_equal.
  rewrite keep_unseen_filter. apply list_filter_iff.
  intros d. by rewrite elem_of_keys_of.
Qed.

(** X3. The deduplication key reads [source] and never [file_path]:
    of passages whose metadata has no [source], at most one per page
    survives, and the second of two leading passages with the same page
    is dropped although [_format_docs] would label the two by their
    different file paths. *)
Theorem dedupe_without_source_keeps_one_passage_per_page (docs : list Document) :
  Forall (λ d, metadata d !! "source" = None) docs →
  NoDup ((λ d, meta_get d "page") <$> _dedupe_docs docs) ∧
  (∀ d1 d2 rest,
     docs = d1 :: d2 :: rest →
     meta_get d1 "page" = meta_get d2 "page" →
     _dedupe_docs docs = _dedupe_docs (d1 :: rest)).
Proof.
  intros Hnone. split.
  - rewrite dedupe_keep.
    destruct (keep_unseen_distinct docs ∅) as [Hnd _].
    assert (Forall (λ d, metadata d !! "source" = None) (keep_unseen ∅ docs)) as Hkept.
    { by apply keep_unseen_Forall. }
    assert (doc_key <$> keep_unseen ∅ docs
            = pair MNone <$> ((λ d, meta_get d "page") <$> keep_unseen ∅ docs)) as Hkeys.
    { rewrite <- list_fmap_compose. apply Forall_fmap_ext_1.
      eapply Forall_impl; [exact Hkept|]. intros d Hd. simpl.
      unfold doc_key, meta_get at 1. by rewrite Hd. }
    rewrite Hkeys in Hnd. by apply NoDup_fmap_1 in Hnd.
  - intros d1 d2 rest -> Hpage.
    apply Forall_cons in Hnone as [H1 Hnone]. apply Forall_cons in Hnone as [H2 _].
    rewrite !dedupe_keep. simpl.
    rewrite decide_True by (apply not_elem_of_empty).
    rewrite decide_False; [done|].
    intros Hn. apply Hn. apply elem_of_union_l, elem_of_singleton.
    unfold doc_key. rewrite Hpage. f_equal. unfold meta_get. by rewrite H1, H2.
Qed.

Lemma dedupe_without_source_keeps_one_passage_per_page_witness :
  Forall (λ d, metadata d !! "source" = None)
    [Example.scanned "Excess is 500 AED." "motor.pdf" 3;
     Example.scanned "Cover starts at noon." "home.pdf" 3] ∧
  _dedupe_docs [Example.scanned "Excess is 500 AED." "motor.pdf" 3;
                Example.scanned "Cover starts at noon." "home.pdf" 3]
  = _dedupe_docs [Example.scanned "Excess is 500 AED." "motor.pdf" 3].
Proof.
  assert (Forall (λ d, metadata d !! "source" = None)
            [Example.scanned "Excess is 500 AED." "motor.pdf" 3;
             Example.scanned "Cover starts at noon." "home.pdf" 3]) as Hnone
    by (repeat constructor).
  split; [exact Hnone|].
  destruct (dedupe_without_source_keeps_one_passage_per_page _ Hnone) as [_ Hdrop].
  exact (Hdrop _ _ [] eq_refl eq_refl).
Defined.

Section StringFacts.
Import PyString.

Lemma chars_app (a b : string) : chars (a +:+ b) = chars a ++ chars b.
Proof.
  unfold chars. induction a as [|c a IH]; [done|]. simpl. by rewrite <- IH.
Qed.







End StringFacts.



(** X5. [retrieve_with_strategy] never raises and makes no model
    call.  With the strategy "semantic" or "similarity" it calls that one
    retriever; with any other strategy (so also "keyword" and "hybrid",
    or a value that is not a string) it calls the semantic and then
    the similarity retriever and deduplicates the two lists.  A retriever
    that raises gives the empty list: in the combined case also when the
    semantic retriever had found passages, and the similarity retriever
    is not called after a failure of the semantic one. *)
Theorem retrieval_failures_give_an_empty_batch
    (sv : Services) (query strategy : value) (w : World) :
  ∃ docs w',
    retrieve_with_strategy sv query strategy w = (Ok docs, w') ∧
    llm_calls w' = llm_calls w ∧
    node_log w' = node_log w ∧
    checkpoints w' = checkpoints w ∧
    let calls := retriever_calls w in
    let semantic := retriever_invoke sv calls semantic_retriever query in
    if Py.eq_str strategy "semantic" then
      retriever_calls w' = S calls ∧
      docs = match semantic with Ok found => found | Raise _ => [] end
    else if Py.eq_str strategy "similarity" then
      retriever_calls w' = S calls ∧
      docs = match retriever_invoke sv calls similarity_retriever query with
             | Ok found => found
             | Raise _ => []
             end
    else
      match semantic with
      | Raise _ => retriever_calls w' = S calls ∧ docs = []
      | Ok semantic_docs =>
          retriever_calls w' = S (S calls) ∧
          docs = match retriever_invoke sv (S calls) similarity_retriever query with
                 | Ok similarity_docs => _dedupe_docs (semantic_docs ++ similarity_docs)
                 | Raise _ => []
                 end
      end.
Proof.
  unfold retrieve_with_strategy, catch.
  destruct (Py.eq_str strategy "semantic").
  - unfold retriever_call.
    destruct (retriever_invoke sv (retriever_calls w) semantic_retriever query);
      eexists _, _; by repeat split.
  - destruct (Py.eq_str strategy "similarity").
    + unfold retriever_call.
      destruct (retriever_invoke sv (retriever_calls w) similarity_retriever query);
        eexists _, _; by repeat split.
    + unfold bind, retriever_call, ret. simpl.
      destruct (retriever_invoke sv (retriever_calls w) semantic_retriever query);
        [|eexists _, _; by repeat split].
      destruct (retriever_invoke sv (S (retriever_calls w)) similarity_retriever query);
        eexists _, _; by repeat split.
Qed.

Section Effects.
Context (rt : Runtime) (sv : Services) (self : Pipeline).

Lemma chain_invoke_world llm t vars w r w' :
  chain_invoke sv llm t vars w = (r, w') →
  w' = mkWorld (S (llm_calls w)) (retriever_calls w) (uuids_drawn w)
         (node_log w) (checkpoints w).
Proof. unfold chain_invoke. by intros [= _ <-]. Qed.

Lemma retrieve_with_strategy_world query strategy w :
  ∃ docs w',
    retrieve_with_strategy sv query strategy w = (Ok docs, w') ∧
    llm_calls w' = llm_calls w ∧ uuids_drawn w' = uuids_drawn w ∧
    node_log w' = node_log w ∧ checkpoints w' = checkpoints w ∧
    (retriever_calls w ≤ retriever_calls w' ≤ retriever_calls w + 2)%nat.
Proof.
  unfold retrieve_with_strategy, catch.
  destruct (Py.eq_str strategy "semantic").
  - unfold retriever_call.
    destruct (retriever_invoke sv (retriever_calls w) semantic_retriever query);
      eexists _, _; (split; [reflexivity|]); simpl; repeat split; lia.
  - destruct (Py.eq_str strategy "similarity").
    + unfold retriever_call.
      destruct (retriever_invoke sv (retriever_calls w) similarity_retriever query);
        eexists _, _; (split; [reflexivity|]); simpl; repeat split; lia.
    + unfold bind, retriever_call, ret. simpl.
      destruct (retriever_invoke sv (retriever_calls w) semantic_retriever query);
        [|eexists _, _; (split; [reflexivity|]); simpl; repeat split; lia].
      destruct (retriever_invoke sv (S (retriever_calls w)) similarity_retriever query);
        eexists _, _; (split; [reflexivity|]); simpl; repeat split; lia.
Qed.

Lemma retrieve_loop_world state queries : ∀ parallel_results all_docs w r w',
  retrieve_loop rt sv state queries parallel_results all_docs w = (r, w') →
  llm_calls w' = llm_calls w ∧ uuids_drawn w' = uuids_drawn w ∧
  node_log w' = node_log w ∧ checkpoints w' = checkpoints w ∧
  (retriever_calls w ≤ retriever_calls w'
   ≤ retriever_calls w + 2 * length queries)%nat.
Proof.
  induction queries as [|query rest IH]; intros parallel_results all_docs w r w' Hrun.
  - simpl in Hrun. injection Hrun as _ <-. simpl. repeat split; lia.
  - simpl in Hrun. unfold bind at 1, lift at 1 in Hrun.
    destruct (pick_strategy rt state query) as [strategy|e].
    + unfold bind at 1 in Hrun.
      destruct (retrieve_with_strategy_world query strategy w)
        as (docs & w1 & Hone & Hl & Hu & Hn & Hc & Hr).
      rewrite Hone in Hrun. apply IH in Hrun as (Hl' & Hu' & Hn' & Hc' & Hr').
      simpl length. repeat split; try congruence; lia.
    + injection Hrun as _ <-. simpl. repeat split; lia.
Qed.

Ltac world_facts :=
  repeat match goal with
    | H : chain_invoke _ _ _ _ _ = (_, _) |- _ =>
        apply chain_invoke_world in H; subst
    | H : ret _ _ = (Ok _, _) |- _ => apply ret_Ok in H as [? ?]; subst
    end.

Lemma node_effects n state w update w' :
  node_fn rt sv self n state w = (Ok update, w') →
  node_log w' = node_log w ∧ checkpoints w' = checkpoints w ∧
  uuids_drawn w' = uuids_drawn w ∧
  (llm_calls w + (llm_calls_of n).1 ≤ llm_calls w')%nat ∧
  (llm_calls w' ≤ llm_calls w + (llm_calls_of n).2)%nat ∧
  (retriever_calls w ≤ retriever_calls w')%nat ∧
  (n ≠ parallel_retrieve → retriever_calls w' = retriever_calls w) ∧
  (∀ batch, state !! "current_query_batch" = Some (VList batch) →
            (retriever_calls w' ≤ retriever_calls w + 2 * length batch)%nat).
Proof.
  intros Hrun. destruct n; simpl in Hrun;
    [ unfold _analyze_question in Hrun
    | unfold _enhanced_plan in Hrun
    | unfold _parallel_retrieve in Hrun
    | unfold _advanced_assess in Hrun
    | unfold _intelligent_decide in Hrun
    | unfold _enhanced_synthesis in Hrun
    | unfold _advanced_verify in Hrun ];
    inv_bind Hrun; subst; world_facts; simpl;
    try (repeat split; first [done | lia | intros; lia]).
  apply retrieve_loop_world in E1 as (Hl & Hu & Hn & Hc & Hr).
  repeat split; try done; try lia.
  intros batch Hbatch. unfold state_get in E0. rewrite Hbatch in E0.
  simpl in E0. injection E0 as <-. lia.
Qed.
End Effects.

Lemma rmap_list_length {A B} (f : A → result B) (l : list A) : ∀ bs,
  rmap_list f l = Ok bs → length bs = length l.
Proof.
  induction l as [|a l IH]; intros bs; simpl.
  - by intros [= <-].
  - intros H. apply rbind_Ok in H as (b & _ & H).
    apply rbind_Ok in H as (bs' & Hbs & [= <-]). simpl. f_equal. by apply IH.
Qed.

Lemma total_app f (a b : list node) : total f (a ++ b) = (total f a + total f b)%nat.
Proof.
  unfold total. induction a as [|x a IH]; [done|].
  rewrite <- app_comm_cons, !fmap_cons. simpl. rewrite IH. lia.
Qed.

Lemma total_cons f x (l : list node) : total f (x :: l) = (f x + total f l)%nat.
Proof. done. Qed.

Lemma total_rounds f i :
  total f (rounds i) = (i * total f loop_nodes)%nat.
Proof.
  induction i as [|i IH]; [done|]. simpl rounds. rewrite total_app, IH. lia.
Qed.

Lemma length_rounds i : length (rounds i) = (4 * i)%nat.
Proof.
  induction i as [|i IH]; [done|]. simpl rounds. rewrite length_app, IH. simpl. lia.
Qed.

Section Trace.
Context (rt : Runtime) (sv : Services) (self : Pipeline) (tid : string).

Local Ltac not_written := simpl; rewrite ?elem_of_cons, elem_of_nil; naive_solver.

Lemma enhanced_plan_batch state w update w' :
  _enhanced_plan rt sv state w = (Ok update, w') →
  ∃ batch, update !! "current_query_batch" = Some (VList batch) ∧
           (length batch ≤ 3)%nat.
Proof.
  intros Hrun. unfold _enhanced_plan in Hrun. inv_bind Hrun. subst.
  eexists. split; [done|].
  apply rmap_list_length in E7. rewrite E7.
  unfold sort_by_priority in E4. destruct a3; try done.
  apply rbind_Ok in E4 as (keys & _ & E4).
  apply rbind_Ok in E4 as (sorted & _ & [= <-]).
  simpl in E5. injection E5 as <-. simpl in E6. injection E6 as <-.
  rewrite length_take. lia.
Qed.

Lemma trace_before_step n state w n' state' w' :
  step rt sv self tid (n, state, w) (n', state', w') →
  run_inv self n state →
  trace_before n' (Z.to_nat (iteration_of state'))
  = trace_before n (Z.to_nat (iteration_of state)) ++ [n].
Proof.
  intros Hstep Hinv.
  inversion Hstep as [? ? ? update w1 w2 ? Hrun Hrec Hnext]; subst.
  assert (∀ k, k ∉ node_writes n → (update ∪ state) !! k = state !! k) as Hframe
    by (intros; by eapply merged_lookup_frame).
  destruct n; simpl in Hnext.
  - injection Hnext as <-.
    apply analyze_question_spec in Hrun as (? & ? & ? & _ & _ & _ & _ & Hzero & _).
    apply (merged_lookup_written _ state) in Hzero.
    unfold iteration_of. by rewrite Hzero.
  - injection Hnext as <-. unfold iteration_of.
    rewrite Hframe by not_written. simpl. by rewrite <- ?app_assoc.
  - injection Hnext as <-. unfold iteration_of.
    rewrite Hframe by not_written. simpl. by rewrite <- ?app_assoc.
  - injection Hnext as <-. unfold iteration_of.
    rewrite Hframe by not_written. simpl. by rewrite <- ?app_assoc.
  - destruct Hinv as (_ & i & m & [Hi Hm] & Hle & Hi0 & Hloop).
    simpl in Hrun.
    destruct (intelligent_decide_spec _ _ _ _ _ _ _ i m Hi Hm Hrun)
      as (stop & Hit & Hstop & _).
    apply (merged_lookup_written _ state) in Hit, Hstop.
    unfold state_get in Hnext. rewrite Hstop in Hnext. simpl in Hnext.
    unfold iteration_of. rewrite Hit, Hi.
    replace (Z.to_nat (i + 1)) with (S (Z.to_nat i)) by lia.
    destruct stop; injection Hnext as <-; simpl; by rewrite <- ?app_assoc.
  - injection Hnext as <-. unfold iteration_of.
    rewrite Hframe by not_written. done.
  - done.
Qed.

Lemma step_preserves_trace w0 n state w n' state' w' :
  step rt sv self tid (n, state, w) (n', state', w') →
  run_inv self n state →
  trace_inv w0 n state w → trace_inv w0 n' state' w'.
Proof.
  intros Hstep Hinv Htrace.
  pose proof (trace_before_step _ _ _ _ _ _ Hstep Hinv) as Hnext_trace.
  destruct Htrace as ((entries & Hlog & Hnames & Hschema) & Hu & Hmin & Hmax & Hr0 & Hr & Hbatch).
  inversion Hstep as [? ? ? update w1 w2 ? Hrun Hrec Hnext]; subst.
  pose proof (node_effects _ _ _ _ _ _ _ _ Hrun)
    as (Hn1 & Hc1 & Hu1 & Hl1 & Hl2 & Hr1 & Hr2 & Hr3).
  unfold record_step in Hrec. injection Hrec as <-.
  unfold trace_inv. rewrite Hnext_trace. cbv zeta. simpl.
  rewrite !total_app. unfold total at 2 4 6. simpl.
  split; [|split; [|split; [|split; [|split; [|split]]]]].
  - exists (entries ++ [(n, update)]). rewrite Hn1, Hlog, <- app_assoc.
    split; [done|]. split.
    + by rewrite fmap_app, Hnames.
    + apply Forall_app. split; [done|]. apply Forall_singleton.
      intros k Hk. simpl in *. by eapply node_update_keys.
  - congruence.
  - lia.
  - lia.
  - lia.
  - destruct (decide (n = parallel_retrieve)) as [->|Hother].
    + destruct (Hbatch eq_refl) as (batch & Hb & Hlen).
      specialize (Hr3 batch Hb). simpl in Hr |- *. lia.
    + rewrite (Hr2 Hother).
      assert (retriever_calls_of n = 0%nat) as -> by (by destruct n).
      lia.
  - intros ->.
    assert (n = enhanced_plan) as ->.
    { destruct n; simpl in Hnext; try done. by case_match. }
    simpl in Hrun. apply enhanced_plan_batch in Hrun as (batch & Hb & Hlen).
    exists batch. split; [by apply merged_lookup_written|done].
Qed.

Lemma reachable_trace state0 w0 n state w :
  reachable rt sv self tid state0 w0 (n, state, w) → trace_inv w0 n state w.
Proof.
  unfold reachable. intros Hreach.
  assert (run_inv self n state ∧ trace_inv w0 n state w) as [_ H]; [|done].
  change (run_inv self (n, state, w).1.1 (n, state, w).1.2 ∧
          trace_inv w0 (n, state, w).1.1 (n, state, w).1.2 (n, state, w).2).
  revert Hreach. generalize (n, state, w). apply rtc_ind_r.
  - simpl. split; [done|]. unfold trace_inv. simpl.
    split; [exists []; by rewrite app_nil_r|].
    unfold total. simpl. repeat split; try lia. done.
  - intros [[n1 s1] w1] [[n2 s2] w2] _ Hstep [IH1 IH2]. simpl in *.
    split; [by eapply step_preserves_inv|by eapply step_preserves_trace].
Qed.
End Trace.

Section Completed.
Context (rt : Runtime) (sv : Services) (self : Pipeline) (tid : string).

(** Every node that completes uses one unit of the recursion limit. *)
Lemma run_from_log_length limit : ∀ n state w final w',
  run_from rt sv self limit tid n state w = (Ok final, w') →
  (length (node_log w') ≤ length (node_log w) + limit)%nat.
Proof.
  induction limit as [|limit IH]; intros n state w final w' Hrun; [done|].
  rewrite run_from_unfold in Hrun.
  destruct (node_fn rt sv self n state w) as [[update|e] w1] eqn:Hnode; [|done].
  apply node_effects in Hnode as (Hlog & _).
  cbv zeta in Hrun.
  destruct (next_node n (update ∪ state)) as [n'|].
  - apply IH in Hrun. simpl in Hrun. rewrite length_app, Hlog in Hrun. simpl in Hrun. lia.
  - injection Hrun as _ <-. simpl. rewrite length_app, Hlog. simpl. lia.
Qed.

(** What a completed run leaves: the state and the world at the
    verifier, and the verifier's step. *)
Lemma completed_run init w final w' :
  app_invoke rt sv self init tid w = (Ok final, w') →
  ∃ i entries,
    final !! "iteration" = Some (VInt (Z.of_nat i)) ∧
    (1 ≤ i)%nat ∧ Z.of_nat i ≤ iteration_bound self ∧
    node_log w' = node_log w ++ entries ∧
    entries.*1 = run_trace i ∧
    Forall schema_only entries ∧
    uuids_drawn w' = uuids_drawn w ∧
    (llm_calls w + (2 * i + 1) ≤ llm_calls w' ≤ llm_calls w + (3 * i + 3))%nat ∧
    (retriever_calls w ≤ retriever_calls w' ≤ retriever_calls w + 6 * i)%nat.
Proof.
  intros Hrun.
  apply app_invoke_steps in Hrun
    as (state1 & w1 & update & w2 & Hreach & Hverify & -> & Hrec).
  pose proof (reachable_inv _ _ _ _ _ _ _ _ _ Hreach)
    as (_ & (iz & m & [Hi Hm] & Hle & Hnz & H1 & Hfloor & Hceil) & _).
  pose proof (reachable_trace _ _ _ _ _ _ _ _ _ Hreach)
    as ((entries & Hlog & Hnames & Hschema) & Hu & Hmin & Hmax & Hr0 & Hr & _).
  pose proof (node_effects rt sv self advanced_verify _ _ _ _ Hverify)
    as (Hn1 & Hc1 & Hu1 & Hl1 & Hl2 & Hr1 & Hr2 & _).
  specialize (Hr2 ltac:(done)).
  unfold record_step in Hrec. injection Hrec as <-.
  unfold iteration_of in *. rewrite Hi in *.
  simpl trace_before in *.
  rewrite total_cons, total_app, total_rounds in Hmin, Hmax, Hr.
  unfold total in Hmin, Hmax, Hr. simpl in Hmin, Hmax, Hr, Hl1, Hl2.
  exists (Z.to_nat iz), (entries ++ [(advanced_verify, update)]). simpl.
  split; [|split; [|split; [|split; [|split; [|split; [|split; [|split]]]]]]].
  - rewrite Z2Nat.id by lia. rewrite <- Hi.
    eapply (merged_lookup_frame rt sv self advanced_verify); [done|].
    simpl. by rewrite list_elem_of_singleton.
  - lia.
  - unfold iteration_bound. lia.
  - by rewrite Hn1, Hlog, <- app_assoc.
  - rewrite fmap_app, Hnames. unfold run_trace. simpl. by rewrite <- app_assoc.
  - apply Forall_app. split; [done|]. apply Forall_singleton.
    intros k Hk. simpl in *. by eapply (node_update_keys rt sv self advanced_verify).
  - congruence.
  - lia.
  - lia.
Qed.
End Completed.

(** X6. A run that completes with the iteration counter at [i] has
    run the analysis once, then [i >= 1] times the four nodes plan,
    retrieve, assess, decide in this order, then the synthesis and the
    verification: [4 i + 3] nodes, each reported once in that order, and
    so many steps must fit into the recursion limit. *)
Theorem completed_run_visits_the_nodes_in_order
    (rt : Runtime) (sv : Services) (self : Pipeline)
    (init : State) (tid : string) (w : World) (final : State) (w' : World) :
  app_invoke rt sv self init tid w = (Ok final, w') →
  ∃ i entries,
    final !! "iteration" = Some (VInt (Z.of_nat i)) ∧
    (1 ≤ i)%nat ∧
    node_log w' = node_log w ++ entries ∧
    entries.*1 = run_trace i ∧
    length entries = (4 * i + 3)%nat ∧
    (4 * i + 3 ≤ recursion_limit rt)%nat.
Proof.
  intros Hrun.
  destruct (completed_run _ _ _ _ _ _ _ _ Hrun)
    as (i & entries & Hi & H1 & _ & Hlog & Hnames & _).
  assert (length entries = (4 * i + 3)%nat) as Hlen.
  { rewrite <- (length_fmap fst), Hnames. unfold run_trace. simpl.
    rewrite length_app, length_rounds. simpl. lia. }
  exists i, entries. repeat split; try done.
  unfold app_invoke in Hrun. apply run_from_log_length in Hrun.
  rewrite Hlog, length_app in Hrun. lia.
Qed.

Lemma completed_run_visits_the_nodes_in_order_witness :
  ∃ final w' i entries,
    app_invoke Example.runtime Scenario.services Scenario.self
      Scenario.init Scenario.tid empty_world = (Ok final, w') ∧
    final !! "iteration" = Some (VInt (Z.of_nat i)) ∧
    node_log w' = node_log empty_world ++ entries ∧
    entries.*1 = run_trace i ∧
    length entries = (4 * i + 3)%nat.
Proof.
  assert (Scenario.succeeded
            (app_invoke Example.runtime Scenario.services Scenario.self
               Scenario.init Scenario.tid empty_world) = true) as Hok
    by (vm_compute; reflexivity).
  destruct (app_invoke Example.runtime Scenario.services Scenario.self
              Scenario.init Scenario.tid empty_world) as [[final|e] w'] eqn:Hrun;
    [|discriminate Hok].
  destruct (completed_run_visits_the_nodes_in_order _ _ _ _ _ _ _ _ Hrun)
    as (i & entries & Hi & _ & Hlog & Hnames & Hlen & _).
  exists final, w', i, entries.
  exact (conj eq_refl (conj Hi (conj Hlog (conj Hnames Hlen)))).
Defined.

(** X7. A run that completes after [i] iterations has made between
    [2 i + 1] and [3 i + 3] model calls and at most [6 i] retriever
    calls (a batch has at most three queries, a query at most two
    retriever calls), it has drawn no thread id, and [i] is at most the
    largest of 1, the configured maximum and the floor. *)
Theorem completed_run_makes_a_bounded_number_of_calls
    (rt : Runtime) (sv : Services) (self : Pipeline)
    (init : State) (tid : string) (w : World) (final : State) (w' : World) :
  app_invoke rt sv self init tid w = (Ok final, w') →
  ∃ i,
    final !! "iteration" = Some (VInt (Z.of_nat i)) ∧
    Z.of_nat i ≤ iteration_bound self ∧
    (llm_calls w + (2 * i + 1) ≤ llm_calls w' ≤ llm_calls w + (3 * i + 3))%nat ∧
    (retriever_calls w ≤ retriever_calls w' ≤ retriever_calls w + 6 * i)%nat ∧
    uuids_drawn w' = uuids_drawn w.
Proof.
  intros Hrun.
  destruct (completed_run _ _ _ _ _ _ _ _ Hrun)
    as (i & entries & Hi & _ & Hbound & _ & _ & _ & Hu & Hllm & Hretr).
  by exists i.
Qed.

Lemma completed_run_makes_a_bounded_number_of_calls_witness :
  ∃ final w' i,
    app_invoke Example.runtime Scenario.services Scenario.self
      Scenario.init Scenario.tid empty_world = (Ok final, w') ∧
    final !! "iteration" = Some (VInt (Z.of_nat i)) ∧
    Z.of_nat i ≤ 3 ∧
    (llm_calls w' ≤ 3 * i + 3)%nat ∧
    (retriever_calls w' ≤ 6 * i)%nat.
Proof.
  assert (Scenario.succeeded
            (app_invoke Example.runtime Scenario.services Scenario.self
               Scenario.init Scenario.tid empty_world) = true) as Hok
    by (vm_compute; reflexivity).
  destruct (app_invoke Example.runtime Scenario.services Scenario.self
              Scenario.init Scenario.tid empty_world) as [[final|e] w'] eqn:Hrun;
    [|discriminate Hok].
  destruct (completed_run_makes_a_bounded_number_of_calls _ _ _ _ _ _ _ _ Hrun)
    as (i & Hi & Hbound & [_ Hllm] & [_ Hretr] & _).
  exists final, w', i.
  exact (conj eq_refl (conj Hi (conj Hbound (conj Hllm Hretr)))).
Defined.



Section Budget.
Context (rt : Runtime) (sv : Services) (self : Pipeline) (tid : string).

Local Ltac not_written := simpl; rewrite ?elem_of_cons, elem_of_nil; naive_solver.

Lemma dynamic_budget_ge complexity hops m :
  dynamic_budget self complexity hops = Ok m → Z.min (default_max_iters self) 2 ≤ m.
Proof.
  unfold dynamic_budget. intros H.
  apply rbind_Ok in H as (a & _ & H). apply rbind_Ok in H as (b & _ & H).
  apply rbind_Ok in H as (n & _ & [= <-]). lia.
Qed.

(** The budget is at least [min(configured maximum, 2)] all along. *)
Lemma reachable_budget state0 w0 n state w :
  reachable rt sv self tid state0 w0 (n, state, w) →
  n ≠ analyze_question →
  ∃ m, state !! "max_dynamic_iters" = Some (VInt m) ∧
       Z.min (default_max_iters self) 2 ≤ m.
Proof.
  unfold reachable. intros Hreach.
  pose (P := λ c : config,
          c.1.1 ≠ analyze_question →
          ∃ m, c.1.2 !! "max_dynamic_iters" = Some (VInt m) ∧
               Z.min (default_max_iters self) 2 ≤ m).
  change (P (n, state, w)).
  revert Hreach. generalize (n, state, w). apply (rtc_ind_r P); [by unfold P|].
  unfold P.
  intros [[n1 s1] w1] [[n2 s2] w2] _ Hstep IH _. simpl in *.
  inversion Hstep as [? ? ? update wa wb ? Hrun Hrec Hnext]; subst.
  destruct (decide (n1 = analyze_question)) as [->|Hother].
  - simpl in Hrun. apply analyze_question_spec in Hrun
      as (complexity & hops & m & Hbudget & _ & _ & Hm & _).
    exists m. split; [by apply merged_lookup_written|by eapply dynamic_budget_ge].
  - destruct (IH Hother) as (m & Hm & Hge). exists m. split; [|done].
    rewrite <- Hm. eapply merged_lookup_frame; [done|].
    destruct n1; try done; not_written.
Qed.
End Budget.

(** X9. A pipeline configured with [max_iters = 0] never completes a
    run: its budget is 0, and the decision node divides the iteration
    count by the budget, so that with a budget of 0 in the state it
    always raises. *)
Theorem zero_budget_never_answers
    (rt : Runtime) (sv : Services) (min_iters_arg : Z)
    (init : State) (tid : string) (w : World) :
  is_ok (app_invoke rt sv (EnhancedRAGPipeline 0 min_iters_arg) init tid w).1 = false ∧
  (∀ self state wD,
     state !! "max_dynamic_iters" = Some (VInt 0) →
     is_ok (_intelligent_decide rt sv self state wD).1 = false).
Proof.
  split.
  - destruct (app_invoke rt sv (EnhancedRAGPipeline 0 min_iters_arg) init tid w)
      as [[final|e] w'] eqn:Hrun; [|done].
    exfalso.
    apply app_invoke_steps in Hrun
      as (state1 & w1 & update & w2 & Hreach & _).
    pose proof (reachable_inv _ _ _ _ _ _ _ _ _ Hreach)
      as (_ & (iz & m & [Hi Hm] & Hle & Hnz & _) & _).
    destruct (reachable_budget _ _ _ _ _ _ _ _ _ Hreach ltac:(done)) as (m' & Hm' & Hge).
    rewrite Hm in Hm'. injection Hm' as <-. simpl in *. lia.
  - intros self state wD Hzero.
    destruct (_intelligent_decide rt sv self state wD) as [[update|e] w'] eqn:Hrun; [|done].
    exfalso. unfold _intelligent_decide in Hrun.
    unfold state_get in Hrun at 2. rewrite Hzero in Hrun. simpl in Hrun.
    inv_bind Hrun. subst. simplify_eq.
Qed.

Section Bounded.
Context (rt : Runtime) (sv : Services) (self : Pipeline) (tid : string).

Local Ltac not_written := simpl; rewrite ?elem_of_cons, elem_of_nil; naive_solver.

Lemma length_last_n {A} (n : nat) (l : list A) :
  (length (PyString.last_n n l) ≤ n)%nat.
Proof. unfold PyString.last_n. rewrite length_drop. lia. Qed.

Lemma analyze_question_lists state w update w' :
  _analyze_question rt sv self state w = (Ok update, w') →
  update !! "evidence_hints" = Some (VList []) ∧
  update !! "recent_quality_improvements" = Some (VList []).
Proof.
  intros Hrun. unfold _analyze_question in Hrun. inv_bind Hrun. by subst.
Qed.

Lemma parallel_retrieve_hints state w update w' :
  _parallel_retrieve rt sv state w = (Ok update, w') →
  list_within 50 (update !! "evidence_hints").
Proof.
  intros Hrun. unfold _parallel_retrieve in Hrun. inv_bind Hrun. subst.
  match goal with
  | Hhints : extend_hints ?l _ = Ok _ |- _ =>
      unfold extend_hints in Hhints; destruct l; try done; injection Hhints as <-
  end.
  eexists. split; [done|]. apply length_last_n.
Qed.

Lemma advanced_assess_improvements state w update w' :
  _advanced_assess rt sv state w = (Ok update, w') →
  update !! "recent_quality_improvements" = None ∨
  list_within 3 (update !! "recent_quality_improvements").
Proof.
  intros Hrun. unfold _advanced_assess in Hrun. inv_bind Hrun; subst.
  - by left.
  - right.
    match goal with
    | Happend : Py.append ?l _ = Ok ?l', Hslice : Py.slice_last 3 ?l' = Ok _ |- _ =>
        unfold Py.append in Happend; destruct l; try done;
        injection Happend as <-; simpl in Hslice; injection Hslice as <-
    end.
    eexists. split; [done|]. apply length_last_n.
Qed.
End Bounded.

Section BoundedRuns.
Context (rt : Runtime) (sv : Services) (self : Pipeline) (tid : string).

Local Ltac not_written := simpl; rewrite ?elem_of_cons, elem_of_nil; naive_solver.

Lemma step_preserves_bounds n state w n' state' w' :
  step rt sv self tid (n, state, w) (n', state', w') →
  lists_bounded n state → lists_bounded n' state'.
Proof.
  intros Hstep Hinv _.
  inversion Hstep as [? ? ? update w1 w2 ? Hrun Hrec Hnext]; subst.
  assert (∀ k, k ∉ node_writes n → (update ∪ state) !! k = state !! k) as Hframe
    by (intros; by eapply merged_lookup_frame).
  destruct n; simpl in Hnext, Hrun.
  - injection Hnext as <-.
    apply analyze_question_lists in Hrun as [Hhints Hrecent].
    split; [|split; [|done]].
    + exists []. split; [by apply merged_lookup_written|simpl; lia].
    + exists []. split; [by apply merged_lookup_written|simpl; lia].
  - injection Hnext as <-. destruct (Hinv ltac:(done)) as (Hh & Hr & _).
    rewrite (Hframe "evidence_hints") by not_written.
    rewrite (Hframe "recent_quality_improvements") by not_written.
    split; [done|]. split; [done|]. intros _.
    apply enhanced_plan_batch in Hrun as (batch & Hb & Hlen).
    exists batch. split; [by apply merged_lookup_written|done].
  - injection Hnext as <-. destruct (Hinv ltac:(done)) as (Hh & Hr & Hb).
    specialize (Hb ltac:(done)).
    rewrite (Hframe "recent_quality_improvements") by not_written.
    rewrite (Hframe "current_query_batch") by not_written.
    split; [|done].
    apply parallel_retrieve_hints in Hrun as (hints & Hhints & Hlen).
    exists hints. split; [by apply merged_lookup_written|done].
  - injection Hnext as <-. destruct (Hinv ltac:(done)) as (Hh & Hr & Hb).
    specialize (Hb ltac:(done)).
    rewrite (Hframe "evidence_hints") by not_written.
    rewrite (Hframe "current_query_batch") by not_written.
    split; [done|]. split; [|done].
    apply advanced_assess_improvements in Hrun as [Hnone|(l & Hl & Hlen)].
    + by rewrite lookup_union_r.
    + exists l. split; [by apply merged_lookup_written|done].
  - destruct (Hinv ltac:(done)) as (Hh & Hr & Hb). specialize (Hb ltac:(done)).
    rewrite (Hframe "evidence_hints") by not_written.
    rewrite (Hframe "recent_quality_improvements") by not_written.
    rewrite (Hframe "current_query_batch") by not_written.
    done.
  - injection Hnext as <-. destruct (Hinv ltac:(done)) as (Hh & Hr & Hb).
    specialize (Hb ltac:(done)).
    rewrite (Hframe "evidence_hints") by not_written.
    rewrite (Hframe "recent_quality_improvements") by not_written.
    rewrite (Hframe "current_query_batch") by not_written.
    done.
  - done.
Qed.

Lemma reachable_bounds state0 w0 n state w :
  reachable rt sv self tid state0 w0 (n, state, w) → lists_bounded n state.
Proof.
  unfold reachable. intros Hreach.
  change (lists_bounded (n, state, w).1.1 (n, state, w).1.2).
  revert Hreach. generalize (n, state, w). apply rtc_ind_r; [done|].
  intros [[n1 s1] w1] [[n2 s2] w2] _ Hstep IH. simpl in *.
  by eapply step_preserves_bounds.
Qed.
End BoundedRuns.

(** X10. In every configuration a run reaches after the analysis, the
    state holds at most 50 evidence hints and at most 3 recent quality
    improvements, and from the first planning step on a query batch of at
    most 3 queries. *)
Theorem working_lists_stay_bounded
    (rt : Runtime) (sv : Services) (self : Pipeline) (tid : string)
    (state0 : State) (w0 : World) (n : node) (state : State) (w : World) :
  reachable rt sv self tid state0 w0 (n, state, w) →
  n ≠ analyze_question →
  list_within 50 (state !! "evidence_hints") ∧
  list_within 3 (state !! "recent_quality_improvements") ∧
  (n ≠ enhanced_plan → list_within 3 (state !! "current_query_batch")).
Proof.
  intros Hreach Hn. by apply (reachable_bounds _ _ _ _ _ _ _ _ _ Hreach).
Qed.

Lemma working_lists_stay_bounded_witness :
  ∃ state w,
    reachable Example.runtime Scenario.services_growing Scenario.self Scenario.tid
      Scenario.init empty_world (parallel_retrieve, state, w) ∧
    list_within 50 (state !! "evidence_hints") ∧
    list_within 3 (state !! "recent_quality_improvements") ∧
    list_within 3 (state !! "current_query_batch").
Proof.
  assert (Scenario.stepped
            (exec_steps Example.runtime Scenario.services_growing Scenario.self
               Scenario.tid 6 Scenario.start) = Some parallel_retrieve) as H6
    by (vm_compute; reflexivity).
  destruct (exec_steps Example.runtime Scenario.services_growing Scenario.self
              Scenario.tid 6 Scenario.start) as [[[n state] w]|] eqn:Hreach;
    [|discriminate H6].
  injection H6 as ->.
  apply exec_steps_sound in Hreach.
  destruct (working_lists_stay_bounded _ _ _ _ _ _ _ _ _ Hreach ltac:(discriminate))
    as (Hhints & Hrecent & Hbatch).
  exists state, w.
  exact (conj Hreach (conj Hhints (conj Hrecent (Hbatch ltac:(discriminate))))).
Defined.

Lemma thread_or_fresh_world sv thread_id w tid w' :
  thread_or_fresh sv thread_id w = (Ok tid, w') →
  llm_calls w' = llm_calls w ∧ retriever_calls w' = retriever_calls w ∧
  node_log w' = node_log w ∧ checkpoints w' = checkpoints w.
Proof.
  unfold thread_or_fresh, fresh_thread_id, ret.
  destruct thread_id as [t|]; [destruct (PyString.is_empty t)|];
    intros [= _ <-]; done.
Qed.

Lemma event_of_schema_only entry :
  schema_only entry → event_of entry = NodeEvent (node_name entry.1) VNone VNone.
Proof.
  intros Hschema. unfold event_of, state_get.
  rewrite !Hschema; [done| |];
    destruct entry as [[] update]; simpl;
    rewrite ?elem_of_cons, elem_of_nil; naive_solver.
Qed.

(** X11. A [stream] call consumed to its end runs the graph twice on
    the same thread.  Its events are one per node of the first run, in
    the order the nodes ran, each with the node's name and with [None]
    for both "input" and "output" (no node update has these keys), and
    last the ["__final__"] event with the final state of the second run;
    the model is called for both runs. *)
Theorem stream_reports_node_names_and_runs_the_graph_twice
    (rt : Runtime) (sv : Services) (self : Pipeline)
    (question : string) (max_iters : option Z) (thread_id : option string)
    (w : World) (events : list stream_event) (w' : World) :
  stream rt sv self question max_iters thread_id w = (Ok events, w') →
  ∃ tid w0 first w1 final i j,
    thread_or_fresh sv thread_id w = (Ok tid, w0) ∧
    app_invoke rt sv self (dict [("question", VStr question)]) tid w0 = (Ok first, w1) ∧
    app_invoke rt sv self (dict [("question", VStr question)]) tid w1 = (Ok final, w') ∧
    first !! "iteration" = Some (VInt (Z.of_nat i)) ∧
    final !! "iteration" = Some (VInt (Z.of_nat j)) ∧
    events = ((λ n, NodeEvent (node_name n) VNone VNone) <$> run_trace i)
             ++ [FinalEvent final] ∧
    (llm_calls w + (2 * i + 1) + (2 * j + 1) ≤ llm_calls w')%nat.
Proof.
  intros Hrun. unfold stream in Hrun.
  apply bind_Ok in Hrun as (tid & w0 & Htid & Hrun).
  apply bind_Ok in Hrun as (mark & wm & Hmark & Hrun).
  unfold steps_so_far in Hmark. injection Hmark as <- <-.
  apply bind_Ok in Hrun as (first & w1 & Hfirst & Hrun).
  apply bind_Ok in Hrun as (steps & ws & Hsteps & Hrun).
  unfold steps_since in Hsteps. injection Hsteps as <- <-.
  apply bind_Ok in Hrun as (final & w2 & Hsecond & Hrun).
  apply ret_Ok in Hrun as [-> ->].
  destruct (completed_run _ _ _ _ _ _ _ _ Hfirst)
    as (i & entries & Hi & _ & _ & Hlog & Hnames & Hschema & _ & Hllm & _).
  destruct (completed_run _ _ _ _ _ _ _ _ Hsecond)
    as (j & entries2 & Hj & Hj1 & _ & _ & _ & _ & _ & Hllm2 & _).
  apply thread_or_fresh_world in Htid as Hw0. destruct Hw0 as (Hl0 & _).
  exists tid, w0, first, w1, final, i, j.
  split; [done|]. split; [done|]. split; [done|]. split; [done|]. split; [done|]. split.
  - f_equal. rewrite Hlog, drop_app_length. rewrite <- Hnames.
    rewrite <- list_fmap_compose. apply Forall_fmap_ext_1.
    eapply Forall_impl; [exact Hschema|]. intros entry Hentry. simpl.
    by apply event_of_schema_only.
  - lia.
Qed.

Lemma stream_reports_node_names_and_runs_the_graph_twice_witness :
  ∃ events w' final i,
    stream Example.runtime Scenario.services Scenario.self
      "Is windscreen damage covered?" None (Some Scenario.tid) empty_world
    = (Ok events, w') ∧
    events = ((λ n, NodeEvent (node_name n) VNone VNone) <$> run_trace i)
             ++ [FinalEvent final].
Proof.
  assert (Scenario.succeeded
            (stream Example.runtime Scenario.services Scenario.self
               "Is windscreen damage covered?" None (Some Scenario.tid) empty_world)
          = true) as Hok
    by (vm_compute; reflexivity).
  destruct (stream Example.runtime Scenario.services Scenario.self
              "Is windscreen damage covered?" None (Some Scenario.tid) empty_world)
    as [[events|e] w'] eqn:Hrun; [|discriminate Hok].
  destruct (stream_reports_node_names_and_runs_the_graph_twice _ _ _ _ _ _ _ _ _ Hrun)
    as (tid & w0 & first & w1 & final & i & j & _ & _ & _ & _ & _ & Hevents & _).
  exists events, w', final, i. exact (conj eq_refl Hevents).
Defined.


Section ClaimTableFacts.
Context (rt : Runtime).

Lemma brief_string (summary : string) :
  App.brief (VStr summary) = Ok (VStr (App.shortened summary)).
Proof.
  unfold App.brief, App.shortened. simpl.
  destruct (decide (100 < length (PyString.chars summary))%nat) as [Hlong|Hshort].
  - by rewrite decide_True by lia.
  - by rewrite decide_False by lia.
Qed.

Lemma shortened_length (summary : string) :
  (length (PyString.chars (App.shortened summary)) ≤ 103)%nat.
Proof.
  unfold App.shortened. case_decide as Hlong; [|lia].
  rewrite chars_app. unfold PyString.of_chars, PyString.chars.
  rewrite String.list_ascii_of_string_of_list_ascii, length_app, length_take.
  change (length (String.list_ascii_of_string "...")) with 3%nat. lia.
Qed.

Lemma photo_rows_from_strings policy_number date_of_loss estimated_loss summaries :
  ∀ i, ∃ rows,
    App.photo_rows_from rt policy_number date_of_loss estimated_loss i
      (VStr <$> summaries) = Ok rows ∧
    length rows = length summaries ∧
    ∀ k summary,
      summaries !! k = Some summary →
      rows !! k
      = Some (VDict [("Claim ID/Policy #",
                      VStr (py_str rt policy_number +:+ "-D"
                              +:+ PyString.of_nat (i + k)));
                     ("Date of Loss", date_of_loss);
                     ("Type of Claim", VStr "Motor - Damage Photo");
                     ("Description", VStr (App.shortened summary));
                     ("Estimated Loss Amount", estimated_loss);
                     ("Total Loss", VStr "No");
                     ("No Claim Bonus", VStr "Unknown");
                     ("Status", VStr "Open")]).
Proof.
  induction summaries as [|s rest IH]; intros i.
  - exists []. by repeat split.
  - destruct (IH (S i)) as (rows & Hrows & Hlen & Hcontent).
    rewrite fmap_cons. cbn [App.photo_rows_from].
    unfold App.photo_row at 1. rewrite brief_string. cbn [rbind].
    rewrite Hrows. cbn [rbind].
    eexists. split; [done|]. split; [simpl; by rewrite Hlen|].
    intros [|k] summary Hk; simpl in Hk.
    + injection Hk as <-. simpl. by rewrite Nat.add_0_r.
    + simpl. rewrite (Hcontent k summary Hk).
      by replace (i + S k)%nat with (S i + k)%nat by lia.
Qed.

(** Whatever the analysis is, the scalar fields of the table are
    computed without an exception. *)
Lemma claim_table_fields analysis extracted_data :
  ∃ policy_number date_of_loss description estimated_loss total_loss,
    App.generate_claim_table_rows rt analysis extracted_data
    = (try! photos_entry := Py.get extracted_data "damaged_photos" (VDict []) in
       try! damaged_photos := Py.get photos_entry "summaries" (VList []) in
       try! photos := Py.iterate damaged_photos in
       try! photo_rows :=
         App.photo_rows_from rt policy_number date_of_loss estimated_loss 1 photos in
       Ok (take 10
             (VDict [("Claim ID/Policy #", policy_number);
                     ("Date of Loss", date_of_loss);
                     ("Type of Claim", VStr "Motor");
                     ("Description", description);
                     ("Estimated Loss Amount", estimated_loss);
                     ("Total Loss", VStr total_loss);
                     ("No Claim Bonus", VStr "Unknown");
                     ("Status", VStr "Open")] :: photo_rows))) ∧
    (App.is_dict analysis = false →
     policy_number = VStr "Unknown" ∧ date_of_loss = VStr "Unknown" ∧
     description = VStr "Analysis failed" ∧ estimated_loss = VStr "Unknown" ∧
     total_loss = "No").
Proof.
  unfold App.generate_claim_table_rows.
  destruct (App.is_dict analysis) eqn:Hdict.
  - destruct analysis as [| | | | | |d|]; try done.
    cbn [Py.get rbind].
    destruct (default (VDict []) (Py.dict_lookup "policy_details" d));
      destruct (default (VDict []) (Py.dict_lookup "claim_details" d));
      cbn [App.is_dict App.is_str Py.get rbind];
      eexists _, _, _, _, _; (split; [reflexivity|done]).
  - cbn. eexists _, _, _, _, _. split; [reflexivity|]. intros _. by repeat split.
Qed.
End ClaimTableFacts.

(** X13. On extracted data whose photo summaries are a list of strings
    (or are absent), [generate_claim_table_rows] succeeds for every
    analysis value, dict or not.  It returns one claim row followed by
    one row per summary, cut to ten rows; the claim row has type
    "Motor", bonus "Unknown" and status "Open", and for an analysis
    that is not a dict it is the row of the fallback analysis. *)
Theorem claim_table_has_one_row_and_one_per_photo_up_to_ten
    (rt : Runtime) (analysis : value)
    (entries photos : list (string * value)) (summaries : list string) :
  Py.get (VDict entries) "damaged_photos" (VDict []) = Ok (VDict photos) →
  Py.get (VDict photos) "summaries" (VList []) = Ok (VList (VStr <$> summaries)) →
  ∃ rows first,
    App.generate_claim_table_rows rt analysis (VDict entries) = Ok rows ∧
    length rows = Nat.min 10 (1 + length summaries) ∧
    rows !! 0%nat = Some (VDict first) ∧
    Py.dict_lookup "Type of Claim" first = Some (VStr "Motor") ∧
    Py.dict_lookup "No Claim Bonus" first = Some (VStr "Unknown") ∧
    Py.dict_lookup "Status" first = Some (VStr "Open") ∧
    (App.is_dict analysis = false →
     first = [("Claim ID/Policy #", VStr "Unknown");
              ("Date of Loss", VStr "Unknown");
              ("Type of Claim", VStr "Motor");
              ("Description", VStr "Analysis failed");
              ("Estimated Loss Amount", VStr "Unknown");
              ("Total Loss", VStr "No");
              ("No Claim Bonus", VStr "Unknown");
              ("Status", VStr "Open")]).
Proof.
  intros Hentry Hsummaries.
  destruct (claim_table_fields rt analysis (VDict entries))
    as (pn & dl & ds & el & tl & Hrows & Hfallback).
  rewrite Hrows, Hentry. cbn [rbind]. rewrite Hsummaries. cbn [rbind Py.iterate].
  destruct (photo_rows_from_strings rt pn dl el summaries 1)
    as (photo_rows & Hphotos & Hlen & _).
  rewrite Hphotos. cbn [rbind].
  eexists _, _. split; [done|]. split; [|split; [done|]].
  - rewrite length_take. simpl. rewrite Hlen. lia.
  - split; [done|]. split; [done|]. split; [done|].
    intros Hnot. by destruct (Hfallback Hnot) as (-> & -> & -> & -> & ->).
Qed.

Lemma claim_table_has_one_row_and_one_per_photo_up_to_ten_witness :
  ∃ rows,
    App.generate_claim_table_rows Example.runtime (VStr "not an object")
      (VDict [("damaged_photos",
               VDict [("summaries", VList [VStr "Dent in the door"; VStr "Broken lamp"])])])
    = Ok rows ∧
    length rows = 3%nat.
Proof.
  destruct (claim_table_has_one_row_and_one_per_photo_up_to_ten Example.runtime
              (VStr "not an object")
              [("damaged_photos",
                VDict [("summaries", VList [VStr "Dent in the door"; VStr "Broken lamp"])])]
              [("summaries", VList [VStr "Dent in the door"; VStr "Broken lamp"])]
              ["Dent in the door"; "Broken lamp"] eq_refl eq_refl)
    as (rows & first & Hrows & Hlen & _).
  exists rows. exact (conj Hrows Hlen).
Defined.

(** X14. Row [k + 1] of the claim table (for [k < 9]) belongs to the
    photo summary at index [k]: its id is the claim row's policy number
    followed by [-D] and [k + 1], its description is the summary, cut to
    its first 100 characters followed by "..." when it is longer than
    100 (so never longer than 103), and it is never a total loss. *)
Theorem claim_table_photo_rows_number_and_shorten_the_summaries
    (rt : Runtime) (analysis : value)
    (entries photos : list (string * value)) (summaries : list string)
    (rows : list value) :
  Py.get (VDict entries) "damaged_photos" (VDict []) = Ok (VDict photos) →
  Py.get (VDict photos) "summaries" (VList []) = Ok (VList (VStr <$> summaries)) →
  App.generate_claim_table_rows rt analysis (VDict entries) = Ok rows →
  ∃ policy_number date_of_loss estimated_loss first,
    rows !! 0%nat = Some (VDict first) ∧
    Py.dict_lookup "Claim ID/Policy #" first = Some policy_number ∧
    ∀ k summary,
      summaries !! k = Some summary →
      (k < 9)%nat →
      rows !! S k
      = Some (VDict [("Claim ID/Policy #",
                      VStr (py_str rt policy_number +:+ "-D"
                              +:+ PyString.of_nat (S k)));
                     ("Date of Loss", date_of_loss);
                     ("Type of Claim", VStr "Motor - Damage Photo");
                     ("Description", VStr (App.shortened summary));
                     ("Estimated Loss Amount", estimated_loss);
                     ("Total Loss", VStr "No");
                     ("No Claim Bonus", VStr "Unknown");
                     ("Status", VStr "Open")]) ∧
      (length (PyString.chars (App.shortened summary)) ≤ 103)%nat ∧
      ((length (PyString.chars summary) ≤ 100)%nat → App.shortened summary = summary).
Proof.
  intros Hentry Hsummaries Hrun.
  destruct (claim_table_fields rt analysis (VDict entries))
    as (pn & dl & ds & el & tl & Hrows & _).
  rewrite Hrows, Hentry in Hrun. cbn [rbind] in Hrun.
  rewrite Hsummaries in Hrun. cbn [rbind Py.iterate] in Hrun.
  destruct (photo_rows_from_strings rt pn dl el summaries 1)
    as (photo_rows & Hphotos & Hlen & Hcontent).
  rewrite Hphotos in Hrun. cbn [rbind] in Hrun. injection Hrun as <-.
  eexists pn, dl, el, _. split; [done|]. split; [done|].
  intros k summary Hk Hk9. split; [|split].
  - rewrite lookup_cons_ne_0 by done. simpl. rewrite lookup_take_lt by lia.
    by apply Hcontent.
  - apply shortened_length.
  - intros Hshort. unfold App.shortened. by rewrite decide_False by lia.
Qed.

Lemma claim_table_photo_rows_number_and_shorten_the_summaries_witness :
  ∃ rows row,
    App.generate_claim_table_rows Example.runtime (VStr "not an object")
      (VDict [("damaged_photos",
               VDict [("summaries", VList [VStr "Dent in the door"; VStr "Broken lamp"])])])
    = Ok rows ∧
    rows !! 2%nat = Some (VDict row) ∧
    Py.dict_lookup "Description" row = Some (VStr "Broken lamp").
Proof.
  assert (Scenario.succeeded
            (App.generate_claim_table_rows Example.runtime (VStr "not an object")
               (VDict [("damaged_photos",
                        VDict [("summaries",
                                VList [VStr "Dent in the door"; VStr "Broken lamp"])])]),
             empty_world) = true) as Hok
    by (vm_compute; reflexivity).
  destruct (App.generate_claim_table_rows Example.runtime (VStr "not an object")
              (VDict [("damaged_photos",
                       VDict [("summaries",
                               VList [VStr "Dent in the door"; VStr "Broken lamp"])])]))
    as [rows|e] eqn:Hrun; [|discriminate Hok].
  destruct (claim_table_photo_rows_number_and_shorten_the_summaries Example.runtime
              (VStr "not an object")
              [("damaged_photos",
                VDict [("summaries", VList [VStr "Dent in the door"; VStr "Broken lamp"])])]
              [("summaries", VList [VStr "Dent in the door"; VStr "Broken lamp"])]
              ["Dent in the door"; "Broken lamp"] rows eq_refl eq_refl Hrun)
    as (pn & dl & el & first & _ & _ & Hphoto).
  destruct (Hphoto 1%nat "Broken lamp" eq_refl ltac:(lia)) as (Hrow & _ & _).
  exists rows. eexists. split; [reflexivity|]. split; [exact Hrow|].
  reflexivity.
Defined.

Section NothingFound.
Context (rt : Runtime) (sv : Services) (self : Pipeline) (tid : string).
Hypothesis Hnothing : ∀ n r query,
  retriever_invoke sv n r query = Ok [] ∨ ∃ e, retriever_invoke sv n r query = Raise e.

Local Ltac not_written := simpl; rewrite ?elem_of_cons, elem_of_nil; naive_solver.

Lemma retrieve_with_strategy_nothing query strategy w docs w' :
  retrieve_with_strategy sv query strategy w = (Ok docs, w') → docs = [].
Proof using Hnothing.
  unfold retrieve_with_strategy, catch, bind, retriever_call, ret.
  destruct (Py.eq_str strategy "semantic").
  - destruct (Hnothing (retriever_calls w) semantic_retriever query) as [->|[e ->]];
      by intros [= <- _].
  - destruct (Py.eq_str strategy "similarity").
    + destruct (Hnothing (retriever_calls w) similarity_retriever query) as [->|[e ->]];
        by intros [= <- _].
    + simpl.
      destruct (Hnothing (retriever_calls w) semantic_retriever query) as [->|[e ->]];
        [|by intros [= <- _]].
      destruct (Hnothing (S (retriever_calls w)) similarity_retriever query)
        as [->|[e ->]]; by intros [= <- _].
Qed.

Lemma retrieve_loop_nothing state queries : ∀ parallel_results w looped w',
  retrieve_loop rt sv state queries parallel_results [] w = (Ok looped, w') →
  looped.2 = [].
Proof using Hnothing.
  induction queries as [|query rest IH]; intros parallel_results w looped w' Hrun.
  - simpl in Hrun. by injection Hrun as <- _.
  - simpl in Hrun. apply bind_lift_Ok in Hrun as (strategy & _ & Hrun).
    apply bind_Ok in Hrun as (docs & w1 & Hdocs & Hrun).
    apply retrieve_with_strategy_nothing in Hdocs as ->.
    by apply IH in Hrun.
Qed.

Lemma parallel_retrieve_nothing state w update w' :
  evidence_of state = Some [] →
  _parallel_retrieve rt sv state w = (Ok update, w') →
  update !! "evidence_docs" = Some (VList []).
Proof using Hnothing.
  intros Hempty Hrun. unfold _parallel_retrieve in Hrun. inv_bind Hrun. subst.
  match goal with
  | Hloop : retrieve_loop _ _ _ _ _ _ _ = (Ok ?looped, _) |- _ =>
      apply retrieve_loop_nothing in Hloop; rewrite Hloop
  end.
  unfold evidence_of in Hempty.
  match goal with
  | Hdocs : as_docs _ = Ok ?existing |- _ =>
      rewrite Hdocs in Hempty; injection Hempty as ->
  end.
  done.
Qed.

Lemma reachable_nothing state0 w0 n state w :
  reachable rt sv self tid state0 w0 (n, state, w) →
  n ≠ analyze_question → evidence_of state = Some [].
Proof using Hnothing.
  unfold reachable. intros Hreach.
  pose (P := λ c : config, c.1.1 ≠ analyze_question → evidence_of c.1.2 = Some []).
  change (P (n, state, w)).
  revert Hreach. generalize (n, state, w). apply (rtc_ind_r P); [by unfold P|].
  unfold P.
  intros [[n1 s1] w1] [[n2 s2] w2] _ Hstep IH _. simpl in *.
  inversion Hstep as [? ? ? update wa wb ? Hrun Hrec Hnext]; subst.
  destruct (decide (n1 = analyze_question)) as [->|Hother].
  - simpl in Hrun. apply analyze_question_spec in Hrun
      as (? & ? & ? & _ & _ & _ & _ & _ & Hev).
    unfold evidence_of, state_get. by rewrite (merged_lookup_written _ _ _ _ Hev).
  - specialize (IH Hother).
    destruct (decide (n1 = parallel_retrieve)) as [->|Hnot].
    + simpl in Hrun. apply (parallel_retrieve_nothing _ _ _ _ IH) in Hrun.
      unfold evidence_of, state_get. by rewrite (merged_lookup_written _ _ _ _ Hrun).
    + rewrite <- IH. apply evidence_of_ext.
      eapply merged_lookup_frame; [done|]. destruct n1; try done; not_written.
Qed.
End NothingFound.

(** X15. When every retriever call finds nothing or raises (the
    vector store is empty or cannot be reached), a run that completes
    has an empty Evidence Accumulator and ends with the fixed
    no-relevant-evidence answer, confidence 0.0 and [grounded_ok] false:
    the retrieval failures are not reported. *)
Theorem empty_or_failing_retrieval_gives_the_fixed_answer
    (rt : Runtime) (sv : Services) (self : Pipeline)
    (init : State) (tid : string) (w : World) (final : State) (w' : World) :
  (∀ n r query,
     retriever_invoke sv n r query = Ok [] ∨
     ∃ e, retriever_invoke sv n r query = Raise e) →
  app_invoke rt sv self init tid w = (Ok final, w') →
  evidence_of final = Some [] ∧
  final !! "final_answer" = Some (VStr FIXED_NO_EVIDENCE_ANSWER) ∧
  final !! "answer_confidence" = Some (VFloat PyFloat.f0_0) ∧
  final !! "grounded_ok" = Some (VBool false).
Proof.
  intros Hnothing Hrun.
  apply app_invoke_steps in Hrun
    as (state1 & w1 & update & w2 & Hreach & Hverify & -> & _).
  pose proof (reachable_nothing _ _ _ _ Hnothing _ _ _ _ _ Hreach ltac:(done)) as Hempty.
  pose proof (reachable_inv _ _ _ _ _ _ _ _ _ Hreach) as (_ & _ & Hfixed).
  destruct (Hfixed eq_refl Hempty) as [Hanswer Hconf].
  assert (∀ k, k ≠ "grounded_ok" → (update ∪ state1) !! k = state1 !! k) as Hframe.
  { intros k Hk. eapply (merged_lookup_frame rt sv self advanced_verify); [done|].
    simpl. by rewrite list_elem_of_singleton. }
  apply advanced_verify_spec in Hverify as (grounded & -> & Hshort).
  split; [|split; [|split]].
  - rewrite <- Hempty. apply evidence_of_ext. by apply Hframe.
  - by rewrite Hframe.
  - by rewrite Hframe.
  - destruct Hshort as [-> _]; [|by apply merged_lookup_written].
    left. unfold evidence_of in Hempty.
    destruct (as_docs (state_get state1 "evidence_docs" (VList []))) as [docs|] eqn:Hdocs;
      [|done].
    injection Hempty as ->. apply as_docs_nil in Hdocs. by rewrite Hdocs.
Qed.

Lemma empty_or_failing_retrieval_gives_the_fixed_answer_witness :
  ∃ final w',
    app_invoke Example.runtime Scenario.services_down Scenario.self
      Scenario.init Scenario.tid empty_world = (Ok final, w') ∧
    final !! "final_answer" = Some (VStr FIXED_NO_EVIDENCE_ANSWER) ∧
    final !! "grounded_ok" = Some (VBool false).
Proof.
  assert (∀ n r query,
            retriever_invoke Scenario.services_down n r query = Ok [] ∨
            ∃ e, retriever_invoke Scenario.services_down n r query = Raise e) as Hdown
    by (intros; right; eexists; reflexivity).
  assert (Scenario.succeeded
            (app_invoke Example.runtime Scenario.services_down Scenario.self
               Scenario.init Scenario.tid empty_world) = true) as Hok
    by (vm_compute; reflexivity).
  destruct (app_invoke Example.runtime Scenario.services_down Scenario.self
              Scenario.init Scenario.tid empty_world) as [[final|e] w'] eqn:Hrun;
    [|discriminate Hok].
  destruct (empty_or_failing_retrieval_gives_the_fixed_answer _ _ _ _ _ _ _ _ Hdown Hrun)
    as (_ & Hanswer & _ & Hgrounded).
  exists final, w'. exact (conj eq_refl (conj Hanswer Hgrounded)).
Defined.

Section LowFloor.
Context (rt : Runtime) (sv : Services) (self1 self2 : Pipeline) (tid : string).
Hypothesis Hmax : default_max_iters self1 = default_max_iters self2.
Hypothesis Hfloor1 : min_iters self1 ≤ 1.
Hypothesis Hfloor2 : min_iters self2 ≤ 1.

Lemma bind_lift_ext {A B} (r : result A) (k1 k2 : A → M B) w :
  (∀ a, r = Ok a → k1 a w = k2 a w) →
  bind (lift r) k1 w = bind (lift r) k2 w.
Proof. unfold bind, lift. destruct r; [|done]. intros H. by apply H. Qed.

Lemma node_fn_low_floor n state w :
  run_inv self1 n state →
  node_fn rt sv self1 n state w = node_fn rt sv self2 n state w.
Proof using Hmax Hfloor1 Hfloor2.
  intros Hinv. destruct n; try reflexivity.
  - simpl. unfold _analyze_question, dynamic_budget. by rewrite Hmax.
  - destruct Hinv as (_ & i & m & [Hi Hm] & _ & Hi0 & _).
    simpl. unfold _intelligent_decide. rewrite Hmax.
    apply bind_lift_ext. intros iteration Hit.
    unfold state_get in Hit. rewrite Hi in Hit. simpl in Hit. injection Hit as <-.
    destruct (decide (i + 1 < min_iters self1)) as [?|_]; [lia|].
    destruct (decide (i + 1 < min_iters self2)) as [?|_]; [lia|].
    reflexivity.
Qed.

Lemma run_from_low_floor limit : ∀ n state w,
  run_inv self1 n state →
  run_from rt sv self1 limit tid n state w = run_from rt sv self2 limit tid n state w.
Proof using Hmax Hfloor1 Hfloor2.
  induction limit as [|limit IH]; intros n state w Hinv; [done|].
  rewrite !run_from_unfold, <- (node_fn_low_floor n state w Hinv).
  destruct (node_fn rt sv self1 n state w) as [[update|e] w1] eqn:Hnode; [|done].
  cbv zeta.
  destruct (next_node n (update ∪ state)) as [n'|] eqn:Hnext; [|done].
  assert (step rt sv self1 tid (n, state, w)
            (n', update ∪ state,
             (record_step tid n update (update ∪ state) w1).2)) as Hstep
    by (by econstructor).
  apply IH. by eapply step_preserves_inv.
Qed.
End LowFloor.

(** X16. Two pipelines with the same maximum whose [min_iters]
    arguments are both at most 1 behave alike on every run: the loop
    body runs once before the first decision, so the floor check
    [iteration + 1 < min_iters] can only hold for a floor of 2 or more.
    The [min_iters=1] of [app.py] is such a floor. *)
Theorem floor_of_one_or_less_has_no_effect
    (rt : Runtime) (sv : Services) (max_iters floor1 floor2 : Z)
    (init : State) (tid : string) (w : World) :
  floor1 ≤ 1 → floor2 ≤ 1 →
  app_invoke rt sv (EnhancedRAGPipeline max_iters floor1) init tid w
  = app_invoke rt sv (EnhancedRAGPipeline max_iters floor2) init tid w.
Proof.
  intros H1 H2. unfold app_invoke.
  apply run_from_low_floor; simpl; try done; lia.
Qed.

Lemma floor_of_one_or_less_has_no_effect_witness :
  app_invoke Example.runtime Scenario.services (EnhancedRAGPipeline 3 1)
    Scenario.init Scenario.tid empty_world
  = app_invoke Example.runtime Scenario.services (EnhancedRAGPipeline 3 (-4))
      Scenario.init Scenario.tid empty_world.
Proof.
  exact (floor_of_one_or_less_has_no_effect Example.runtime Scenario.services 3 1 (-4)
           Scenario.init Scenario.tid empty_world ltac:(lia) ltac:(lia)).
Defined.

Section Respects.
Context (rt : Runtime) (sv : Services).

Lemma same_calls_refl w : same_calls w w.
Proof. by repeat split. Qed.

Lemma respects_ret {A} (a : A) : respects (ret a).
Proof. by intros w1 w2 H. Qed.

Lemma respects_lift {A} (r : result A) : respects (lift r).
Proof. by intros w1 w2 H. Qed.

Lemma respects_bind {A B} (m : M A) (k : A → M B) :
  respects m → (∀ a, respects (k a)) → respects (bind m k).
Proof.
  intros Hm Hk w1 w2 Hw. unfold bind.
  destruct (Hm w1 w2 Hw) as [Hr Hw'].
  destruct (m w1) as [[a1|e1] w1'], (m w2) as [[a2|e2] w2']; simpl in *;
    try done.
  - injection Hr as ->. by apply Hk.
  - by injection Hr as ->.
Qed.

Lemma respects_catch {A} (m : M A) (h : exn → M A) :
  respects m → (∀ e, respects (h e)) → respects (catch m h).
Proof.
  intros Hm Hh w1 w2 Hw. unfold catch.
  destruct (Hm w1 w2 Hw) as [Hr Hw'].
  destruct (m w1) as [[a1|e1] w1'], (m w2) as [[a2|e2] w2']; simpl in *;
    try done.
  injection Hr as ->. by apply Hh.
Qed.

Lemma respects_chain llm t vars : respects (chain_invoke sv llm t vars).
Proof.
  intros w1 w2 (Hl & Hr & Hu). unfold chain_invoke, same_calls. simpl.
  by rewrite Hl, Hr, Hu.
Qed.

Lemma respects_retriever r query : respects (retriever_call sv r query).
Proof.
  intros w1 w2 (Hl & Hr & Hu). unfold retriever_call, same_calls. simpl.
  by rewrite Hl, Hr, Hu.
Qed.

Lemma respects_fresh : respects (fresh_thread_id sv).
Proof.
  intros w1 w2 (Hl & Hr & Hu). unfold fresh_thread_id, same_calls. simpl.
  by rewrite Hl, Hr, Hu.
Qed.

Lemma respects_record tid n update state' : respects (record_step tid n update state').
Proof. by intros w1 w2 (Hl & Hr & Hu). Qed.
End Respects.

Ltac respects_step :=
  first
    [ apply respects_ret
    | apply respects_lift
    | apply respects_chain
    | apply respects_retriever
    | apply respects_fresh
    | apply respects_bind; [|intros ?]
    | apply respects_catch; [|intros ?]
    | match goal with
      | |- respects (if ?c then _ else _) => destruct c
      | |- respects (match ?x with _ => _ end) => destruct x
      end
    | progress cbv zeta ].

Section NodesRespect.
Context (rt : Runtime) (sv : Services) (self : Pipeline).

Lemma respects_retrieve_with_strategy query strategy :
  respects (retrieve_with_strategy sv query strategy).
Proof. unfold retrieve_with_strategy. repeat respects_step. Qed.

Lemma respects_retrieve_loop state queries : ∀ parallel_results all_docs,
  respects (retrieve_loop rt sv state queries parallel_results all_docs).
Proof.
  induction queries as [|query rest IH]; intros parallel_results all_docs; simpl.
  - apply respects_ret.
  - apply respects_bind; [apply respects_lift|]. intros strategy.
    apply respects_bind; [apply respects_retrieve_with_strategy|]. intros docs.
    apply IH.
Qed.

Lemma respects_node n state : respects (node_fn rt sv self n state).
Proof.
  destruct n; simpl;
    [ unfold _analyze_question
    | unfold _enhanced_plan
    | unfold _parallel_retrieve
    | unfold _advanced_assess
    | unfold _intelligent_decide
    | unfold _enhanced_synthesis
    | unfold _advanced_verify ];
    repeat first [apply respects_retrieve_loop | respects_step].
Qed.
End NodesRespect.

Ltac known_key :=
  apply (bool_decide_unpack _); vm_compute; exact I.

Ltac read_same Hagree s1 :=
  unfold state_get, state_getitem;
  repeat match goal with
    | |- context [s1 !! ?k] => rewrite (Hagree k) by known_key
    end.

Section NodesRead.
Context (rt : Runtime) (sv : Services) (self : Pipeline).

Lemma bind_ext {A B} (m : M A) (k1 k2 : A → M B) w :
  (∀ a w', k1 a w' = k2 a w') → bind m k1 w = bind m k2 w.
Proof. intros H. unfold bind. by destruct (m w) as [[a|e] w']. Qed.

Lemma pick_strategy_ext (s1 s2 : State) query :
  s1 !! "sub_questions" = s2 !! "sub_questions" →
  pick_strategy rt s1 query = pick_strategy rt s2 query.
Proof. intros H. unfold pick_strategy, state_get. by rewrite H. Qed.

Lemma retrieve_loop_ext (s1 s2 : State) queries :
  s1 !! "sub_questions" = s2 !! "sub_questions" →
  ∀ parallel_results all_docs w,
    retrieve_loop rt sv s1 queries parallel_results all_docs w
    = retrieve_loop rt sv s2 queries parallel_results all_docs w.
Proof.
  intros H. induction queries as [|query rest IH]; intros parallel_results all_docs w;
    [done|].
  simpl. rewrite (pick_strategy_ext s1 s2 query H).
  apply bind_ext. intros strategy w1. apply bind_ext. intros docs w2. apply IH.
Qed.

(** A node reads only keys that are the run's own. *)
Lemma node_reads n s1 s2 w :
  agree_on (known n) s1 s2 →
  node_fn rt sv self n s1 w = node_fn rt sv self n s2 w.
Proof.
  intros Hagree. destruct n; simpl.
  - unfold _analyze_question. by read_same Hagree s1.
  - unfold _enhanced_plan. by read_same Hagree s1.
  - unfold _parallel_retrieve. read_same Hagree s1.
    apply bind_ext. intros question w1. apply bind_ext. intros queries w2.
    unfold bind at 1 2.
    rewrite (retrieve_loop_ext s1 s2) by (apply Hagree; known_key).
    done.
  - unfold _advanced_assess. by read_same Hagree s1.
  - unfold _intelligent_decide. by read_same Hagree s1.
  - unfold _enhanced_synthesis. by read_same Hagree s1.
  - unfold _advanced_verify. by read_same Hagree s1.
Qed.

Lemma next_node_ext n (s1 s2 : State) :
  s1 !! "stop" = s2 !! "stop" → next_node n s1 = next_node n s2.
Proof. intros H. destruct n; try done. simpl. unfold state_get. by rewrite H. Qed.

(** What a node does not write of the keys it may write is the run's
    own already. *)
Lemma node_writes_or_known n state w update w' k :
  node_fn rt sv self n state w = (Ok update, w') →
  k ∈ node_writes n → is_Some (update !! k) ∨ k ∈ known n.
Proof.
  intros Hrun Hk. destruct n; simpl in Hrun;
    [ unfold _analyze_question in Hrun
    | unfold _enhanced_plan in Hrun
    | unfold _parallel_retrieve in Hrun
    | unfold _advanced_assess in Hrun
    | unfold _intelligent_decide in Hrun
    | unfold _enhanced_synthesis in Hrun
    | unfold _advanced_verify in Hrun ];
    inv_bind Hrun; subst; simpl in Hk;
    repeat (apply elem_of_cons in Hk as [->|Hk]; [try (by left; eexists)|]);
    try (by apply elem_of_nil in Hk);
    right; known_key.
Qed.

Lemma known_next n state n' :
  next_node n state = Some n' →
  ∀ k, k ∈ known n' → k ∈ known n ++ node_writes n.
Proof.
  intros Hnext.
  assert (known n' ⊆ known n ++ node_writes n) as Hsub; [|exact Hsub].
  destruct n; simpl in Hnext; try case_match; simplify_eq;
    apply (bool_decide_unpack _); vm_compute; exact I.
Qed.

Lemma agree_after n s1 s2 w update w' :
  agree_on (known n) s1 s2 →
  node_fn rt sv self n s1 w = (Ok update, w') →
  agree_on (known n ++ node_writes n) (update ∪ s1) (update ∪ s2).
Proof.
  intros Hagree Hrun k Hk.
  destruct (update !! k) as [v|] eqn:Hupdate.
  - by rewrite !(lookup_union_Some_l _ _ _ _ Hupdate).
  - rewrite !lookup_union_r by done. apply Hagree.
    apply elem_of_app in Hk as [Hk|Hk]; [done|].
    destruct (node_writes_or_known _ _ _ _ _ _ Hrun Hk) as [[v Hv]|Hknown];
      [congruence|done].
Qed.
End NodesRead.

Section RunsAgree.
Context (rt : Runtime) (sv : Services) (self : Pipeline) (tid : string).

Lemma next_node_agree n (s1 s2 : State) :
  agree_on (known n ++ node_writes n) s1 s2 → next_node n s1 = next_node n s2.
Proof.
  intros Hagree. destruct n; try done.
  apply next_node_ext. apply Hagree. known_key.
Qed.

Lemma run_from_same_outcome limit : ∀ n s1 s2 w1 w2,
  agree_on (known n) s1 s2 → same_calls w1 w2 →
  same_outcome (run_from rt sv self limit tid n s1 w1).1
               (run_from rt sv self limit tid n s2 w2).1 ∧
  same_calls (run_from rt sv self limit tid n s1 w1).2
             (run_from rt sv self limit tid n s2 w2).2.
Proof.
  induction limit as [|limit IH]; intros n s1 s2 w1 w2 Hagree Hw; [done|].
  rewrite !run_from_unfold.
  pose proof (node_reads rt sv self n s1 s2 w1 Hagree) as Hreads.
  destruct (respects_node rt sv self n s2 w1 w2 Hw) as [Hr Hw'].
  rewrite <- Hreads in Hr, Hw'.
  destruct (node_fn rt sv self n s1 w1) as [[update|e] w1'] eqn:Hnode1,
           (node_fn rt sv self n s2 w2) as [[update2|e2] w2'] eqn:Hnode2;
    simpl in Hr, Hw'; try done; [|by injection Hr as ->].
  injection Hr as <-. cbv zeta.
  pose proof (agree_after rt sv self n s1 s2 w1 update w1' Hagree Hnode1) as Hafter.
  rewrite <- (next_node_agree n _ _ Hafter).
  destruct (next_node n (update ∪ s1)) as [n'|] eqn:Hnext.
  - apply IH.
    + intros k Hk. apply Hafter. by eapply known_next.
    + destruct Hw' as (Hl & Hr & Hu). by repeat split.
  - simpl. split.
    + assert (n = advanced_verify) as ->
        by (destruct n; simpl in Hnext; by try case_match).
      exact Hafter.
    + destruct Hw' as (Hl & Hr & Hu). by repeat split.
Qed.

Lemma app_invoke_same_outcome question w1 w2 :
  same_calls w1 w2 →
  same_outcome (app_invoke rt sv self (dict [("question", VStr question)]) tid w1).1
               (app_invoke rt sv self (dict [("question", VStr question)]) tid w2).1 ∧
  same_calls (app_invoke rt sv self (dict [("question", VStr question)]) tid w1).2
             (app_invoke rt sv self (dict [("question", VStr question)]) tid w2).2.
Proof.
  intros Hw. unfold app_invoke. apply run_from_same_outcome; [|done].
  intros k Hk. apply list_elem_of_singleton in Hk as ->.
  by rewrite !(lookup_union_Some_l _ _ _ (VStr question)).
Qed.
End RunsAgree.

(** X17. What earlier runs left in a thread's checkpoint has no
    influence on [ask]: in two worlds whose services have been called
    equally often, whatever their checkpoints and logs, [ask] returns
    the same answer and debug information (or raises the same
    exception) and calls the services equally often.  Every key a node
    reads was written earlier in the same run, or is the question. *)
Theorem earlier_runs_on_a_thread_do_not_influence_the_answer
    (rt : Runtime) (sv : Services) (self : Pipeline)
    (question : string) (max_iters : option Z) (thread_id : option string)
    (w1 w2 : World) :
  same_calls w1 w2 →
  (ask rt sv self question max_iters thread_id w1).1
  = (ask rt sv self question max_iters thread_id w2).1 ∧
  same_calls (ask rt sv self question max_iters thread_id w1).2
             (ask rt sv self question max_iters thread_id w2).2.
Proof.
  intros Hw. unfold ask. cbv zeta. unfold bind, lift, ret.
  assert (respects (thread_or_fresh sv thread_id)) as Htid.
  { unfold thread_or_fresh. repeat respects_step. }
  destruct (Htid w1 w2 Hw) as [Hr Hw0].
  destruct (thread_or_fresh sv thread_id w1) as [[tid|e] w1'],
           (thread_or_fresh sv thread_id w2) as [[tid2|e2] w2'];
    simpl in Hr, Hw0; try done; [|by injection Hr as ->].
  injection Hr as <-.
  destruct (app_invoke_same_outcome rt sv self tid question w1' w2' Hw0) as [Hout Hw1].
  destruct (app_invoke rt sv self (dict [("question", VStr question)]) tid w1')
    as [[final1|e1] w1''],
    (app_invoke rt sv self (dict [("question", VStr question)]) tid w2')
    as [[final2|e2] w2'']; simpl in Hout, Hw1; try done; [|by subst].
  unfold state_get.
  repeat match goal with
    | |- context [final1 !! ?k] => rewrite (Hout k) by known_key
    end.
  repeat case_match; simplify_eq; done.
Qed.

Lemma earlier_runs_on_a_thread_do_not_influence_the_answer_witness :
  same_calls empty_world Scenario.with_history ∧
  (ask Example.runtime Scenario.services Scenario.self
     "Is windscreen damage covered?" None (Some Scenario.tid) empty_world).1
  = (ask Example.runtime Scenario.services Scenario.self
       "Is windscreen damage covered?" None (Some Scenario.tid) Scenario.with_history).1.
Proof.
  assert (same_calls empty_world Scenario.with_history) as Hsame
    by (repeat split).
  split; [exact Hsame|].
  destruct (earlier_runs_on_a_thread_do_not_influence_the_answer
              Example.runtime Scenario.services Scenario.self
              "Is windscreen damage covered?" None (Some Scenario.tid)
              empty_world Scenario.with_history Hsame) as [Hanswer _].
  exact Hanswer.
Defined.

Lemma validate_sizes_first_too_large files :
  App.validate_sizes files
  = match App.first_too_large files with
    | Some file =>
        Raise (HTTPException 422
                 ("File " +:+ App.filename_str file +:+ " exceeds 10MB limit"))
    | None => Ok ()
    end.
Proof.
  induction files as [|file rest IH]; [done|]. simpl. by case_decide.
Qed.

Lemma reraise_http_raises_http rt {W A} (body : W → result A * W) w e :
  (App.reraise_http rt body w).1 = Raise e → ∃ code detail, e = HTTPException code detail.
Proof.
  unfold App.reraise_http. destruct (body w) as [[a|[]] w']; simpl; intros [= <-]; eauto.
Qed.

(** X18. [process_claim] validates before it does anything else.
    More than five damaged photos are refused with status 422 without a
    file being looked at.  Otherwise the four documents, the photos and
    the police report (when given), in this order, are checked against
    the 10 MB limit and the first file above it is refused with status
    422 and its name; the police document is not among the checked
    files.  When all checked files pass, the endpoint is the rest of the
    handler under its two [except] clauses.  A 422 is re-raised as it
    is, and whatever the handler raises is an [HTTPException]. *)
Theorem claim_uploads_are_validated_before_anything_else
    (rt : Runtime) (W : Type)
    (remainder : App.UploadFile → App.UploadFile → App.UploadFile → App.UploadFile →
                 list App.UploadFile → option App.UploadFile → option App.UploadFile →
                 W → result App.JSONResponse * W)
    (emirates_id driving_license vehicle_registry claim_form : App.UploadFile)
    (damaged_photos : list App.UploadFile)
    (police_report police_document : option App.UploadFile) (w : W) :
  let validated :=
    [emirates_id; driving_license; vehicle_registry; claim_form]
      ++ damaged_photos ++ option_list police_report in
  let response :=
    App.process_claim rt remainder emirates_id driving_license vehicle_registry
      claim_form damaged_photos police_report police_document w in
  ((5 < length damaged_photos)%nat →
   response = (Raise (HTTPException 422 "Maximum 5 damaged photos allowed"), w)) ∧
  ((length damaged_photos ≤ 5)%nat →
   ∀ file, App.first_too_large validated = Some file →
     response
     = (Raise (HTTPException 422
                 ("File " +:+ App.filename_str file +:+ " exceeds 10MB limit")), w)) ∧
  ((length damaged_photos ≤ 5)%nat →
   App.first_too_large validated = None →
   response
   = App.reraise_http rt
       (remainder emirates_id driving_license vehicle_registry claim_form
          damaged_photos police_report police_document) w) ∧
  (∀ e, response.1 = Raise e → ∃ code detail, e = HTTPException code detail).
Proof.
  intros validated response.
  assert (validated
          = match police_report with
            | Some report =>
                ([emirates_id; driving_license; vehicle_registry; claim_form]
                   ++ damaged_photos) ++ [report]
            | None =>
                [emirates_id; driving_license; vehicle_registry; claim_form]
                  ++ damaged_photos
            end) as Hfiles.
  { unfold validated. destruct police_report; simpl; by rewrite ?app_nil_r. }
  split; [|split; [|split]].
  - intros Hmany. unfold response, App.process_claim, App.reraise_http.
    by rewrite decide_True by (unfold App.MAX_DAMAGED_PHOTOS; lia).
  - intros Hfew file Hfile. unfold response, App.process_claim, App.reraise_http.
    rewrite decide_False by (unfold App.MAX_DAMAGED_PHOTOS; lia).
    cbv zeta. rewrite <- Hfiles, validate_sizes_first_too_large, Hfile. done.
  - intros Hfew Hnone. unfold response, App.process_claim, App.reraise_http.
    rewrite decide_False by (unfold App.MAX_DAMAGED_PHOTOS; lia).
    cbv zeta. rewrite <- Hfiles, validate_sizes_first_too_large, Hnone. done.
  - intros e. apply reraise_http_raises_http.
Qed.

(** X19. [workshop_suggestion] checks its three uploads against the
    10 MB limit, in order, before it does anything else: the first file
    above the limit is refused with status 422 and its name; when all
    three pass, the endpoint is the rest of the handler under its two
    [except] clauses.  Whatever it raises is an [HTTPException]. *)
Theorem workshop_uploads_are_validated_before_anything_else
    (rt : Runtime) (W : Type)
    (remainder : App.UploadFile → App.UploadFile → App.UploadFile →
                 W → result App.JSONResponse * W)
    (workshop1 workshop2 workshop3 : App.UploadFile) (w : W) :
  let response :=
    App.workshop_suggestion rt remainder workshop1 workshop2 workshop3 w in
  (∀ file,
     App.first_too_large [workshop1; workshop2; workshop3] = Some file →
     response
     = (Raise (HTTPException 422
                 ("File " +:+ App.filename_str file +:+ " exceeds 10MB limit")), w)) ∧
  (App.first_too_large [workshop1; workshop2; workshop3] = None →
   response = App.reraise_http rt (remainder workshop1 workshop2 workshop3) w) ∧
  (∀ e, response.1 = Raise e → ∃ code detail, e = HTTPException code detail).
Proof.
  intros response. split; [|split].
  - intros file Hfile. unfold response, App.workshop_suggestion, App.reraise_http.
    by rewrite validate_sizes_first_too_large, Hfile.
  - intros Hnone. unfold response, App.workshop_suggestion, App.reraise_http.
    by rewrite validate_sizes_first_too_large, Hnone.
  - intros e. apply reraise_http_raises_http.
Qed.

Section Typed.
Context (rt : Runtime) (sv : Services) (self : Pipeline) (tid : string).



End Typed.


